(** * Competitive math quiz: the server-side core

    A shallow embedding of the backend services of the quiz server

      - [QuestionGenerator]   (services/QuestionGenerator.js)
      - [StateMachineLogger]  (services/StateMachineLogger.js)
      - [StateManager]        (services/StateManager.js)
      - [socketHandlers]      (handlers/socketHandlers.js)

    together with the pieces of the JavaScript runtime they call ([JS]),
    followed by the properties of the specification checked against them.

    Conventions of the embedding.
      - A method that mutates [this] takes the object and returns the new
        object next to its completion (a returned value or a thrown error).
      - Integers that are JavaScript numbers in the source (timestamps,
        operands, answers, counters) are [Z]; numbers that come out of
        [Number(...)] or [Math.random()] are exact rationals, so rounding to
        IEEE doubles is outside the model.
      - Strings are sequences of code units below 256.
      - Clock readings and random draws are inputs of the functions that
        read them, in the order the source reads them.
      - [console.log] diagnostics are left out; [console.warn] is kept: the
        world records the warnings written so far. *)

From Stdlib Require Import ZArith QArith Qabs Qround String Ascii List Bool Lia.
From Stdlib Require Import DecimalString DecimalPos Permutation.
Import ListNotations.

Open Scope string_scope.
Open Scope Z_scope.

(* ================================================================== *)
(** * The JavaScript runtime used by the services *)
(* ================================================================== *)

Module JS.

(** ** Completions: a call returns a value or throws. *)

Inductive Error : Type :=
| RangeError (message : string)
| TypeError (message : string)
| PlainError (message : string).

Inductive Completion (A : Type) : Type :=
| Returns (a : A)
| Throws (e : Error).
Arguments Returns {A} a.
Arguments Throws {A} e.

Definition returned {A} (c : Completion A) : option A :=
  match c with Returns a => Some a | Throws _ => None end.

(** ** Numbers.  [Number(...)] yields NaN, an infinity or a finite value. *)

Inductive number : Type :=
| NaN
| Infinity (negative : bool)
| Finite (q : Q).

Definition isNaN (n : number) : bool :=
  match n with NaN => true | _ => false end.

(** [a - b] for a finite (integer) right operand. *)
Definition minus (a : number) (b : Z) : number :=
  match a with
  | NaN => NaN
  | Infinity s => Infinity s
  | Finite q => Finite (q - inject_Z b)
  end.

(** [Math.abs]. *)
Definition abs (a : number) : number :=
  match a with
  | NaN => NaN
  | Infinity _ => Infinity false
  | Finite q => Finite (Qabs q)
  end.

Definition Qltb (x y : Q) : bool := negb (Qle_bool y x).

(** [a < b] for a finite right operand: false on NaN. *)
Definition lessThan (a : number) (b : Q) : bool :=
  match a with
  | NaN => false
  | Infinity s => s
  | Finite q => Qltb q b
  end.

(** [Math.round]: the nearest integer, a half going up. *)
Definition Math_round (q : Q) : Z := Qfloor (q + (1 # 2)).

(** ** Values a client can put into a submission's [answer] field. *)

Inductive value : Type :=
| Null
| Undefined
| Str (s : string)
| Num (n : number).

(** ** StringToNumber (ECMA-262, StringNumericLiteral). *)

(** StrWhiteSpaceChar among the code units below 256:
    TAB, LF, VT, FF, CR, SP and NBSP. *)
Definition isWhiteSpace (c : ascii) : bool :=
  let n := nat_of_ascii c in
  (Nat.leb 9 n && Nat.leb n 13) || Nat.eqb n 32 || Nat.eqb n 160.

Fixpoint trimStart (s : string) : string :=
  match s with
  | EmptyString => EmptyString
  | String c s' => if isWhiteSpace c then trimStart s' else s
  end.

Fixpoint trimEnd (s : string) : string :=
  match s with
  | EmptyString => EmptyString
  | String c s' =>
      match trimEnd s' with
      | EmptyString => if isWhiteSpace c then EmptyString else String c EmptyString
      | r => String c r
      end
  end.

Definition trim (s : string) : string := trimEnd (trimStart s).

(** The value of a digit in a radix up to 16, if it is one. *)
Definition digitValue (radix : Z) (c : ascii) : option Z :=
  let n := Z.of_nat (nat_of_ascii c) in
  let v :=
    if (48 <=? n) && (n <=? 57) then Some (n - 48)
    else if (97 <=? n) && (n <=? 102) then Some (n - 87)
    else if (65 <=? n) && (n <=? 70) then Some (n - 55)
    else None in
  match v with
  | Some d => if d <? radix then Some d else None
  | None => None
  end.

(** Reads the longest run of digits at the head of [s]: the value of the
    run, its length, and what follows it. *)
Fixpoint digits (radix : Z) (acc : Z) (len : nat) (s : string) : Z * nat * string :=
  match s with
  | EmptyString => (acc, len, s)
  | String c s' =>
      match digitValue radix c with
      | Some d => digits radix (radix * acc + d) (S len) s'
      | None => (acc, len, s)
      end
  end.

(** ExponentPart, optional: [e] or [E], an optional sign, digits, and
    nothing after them. *)
Definition exponent (s : string) : option Z :=
  match s with
  | EmptyString => Some 0
  | String c s' =>
      if Ascii.eqb c "e" || Ascii.eqb c "E" then
        let '(sign, s'') :=
          match s' with
          | String "+" r => (1, r)
          | String "-" r => (-1, r)
          | _ => (1, s')
          end in
        match digits 10 0 0 s'' with
        | (_, O, _) => None
        | (e, _, EmptyString) => Some (sign * e)
        | _ => None
        end
      else None
  end.

(** StrUnsignedDecimalLiteral. *)
Definition unsignedDecimal (s : string) : number :=
  if String.eqb s "Infinity" then Infinity false
  else
    let '(ip, ilen, s1) := digits 10 0 0 s in
    match s1 with
    | String "." s2 =>
        let '(fp, flen, s3) := digits 10 0 0 s2 in
        match ilen, flen with
        | O, O => NaN
        | _, _ =>
            match exponent s3 with
            | Some e =>
                Finite ((inject_Z ip + inject_Z fp / inject_Z (10 ^ Z.of_nat flen))
                        * Qpower (inject_Z 10) e)
            | None => NaN
            end
        end
    | _ =>
        match ilen with
        | O => NaN
        | _ =>
            match exponent s1 with
            | Some e => Finite (inject_Z ip * Qpower (inject_Z 10) e)
            | None => NaN
            end
        end
    end.

(** NonDecimalIntegerLiteral: [0x], [0o] or [0b] and digits of the radix. *)
Definition nonDecimal (radix : Z) (s : string) : number :=
  match digits radix 0 0 s with
  | (_, O, _) => NaN
  | (v, _, EmptyString) => Finite (inject_Z v)
  | _ => NaN
  end.

Definition negate (n : number) : number :=
  match n with
  | NaN => NaN
  | Infinity s => Infinity (negb s)
  | Finite q => Finite (- q)
  end.

(** StrNumericLiteral, on a string already trimmed and not empty. *)
Definition numericLiteral (s : string) : number :=
  match s with
  | String "0" (String c r) =>
      if Ascii.eqb c "x" || Ascii.eqb c "X" then nonDecimal 16 r
      else if Ascii.eqb c "o" || Ascii.eqb c "O" then nonDecimal 8 r
      else if Ascii.eqb c "b" || Ascii.eqb c "B" then nonDecimal 2 r
      else unsignedDecimal s
  | String "+" r => unsignedDecimal r
  | String "-" r => negate (unsignedDecimal r)
  | _ => unsignedDecimal s
  end.

Definition StringToNumber (s : string) : number :=
  match trim s with
  | EmptyString => Finite 0
  | t => numericLiteral t
  end.

(** [Number(v)]. *)
Definition Number (v : value) : number :=
  match v with
  | Null => Finite 0
  | Undefined => NaN
  | Str s => StringToNumber s
  | Num n => n
  end.

(** ** Dates: [new Date(t).toISOString()] for a time value [t] in
    milliseconds since the epoch. *)

Definition maxTime : Z := 8640000000000000.

(** TimeClip: a time value beyond 100,000,000 days from the epoch is an
    invalid date. *)
Definition validTime (t : Z) : bool := Z.abs t <=? maxTime.

Definition decimal (n : Z) : string := NilZero.string_of_int (Z.to_int n).

Fixpoint zeros (n : nat) : string :=
  match n with O => EmptyString | S n' => String "0" (zeros n') end.

(** A non-negative number written with at least [width] digits. *)
Definition padded (width : nat) (n : Z) : string :=
  let d := decimal n in
  zeros (width - String.length d) ++ d.

(** Year, month and day of a day number counted from 1970-01-01
    (proleptic Gregorian calendar). *)
Definition civilFromDays (days : Z) : Z * Z * Z :=
  let z := days + 719468 in
  let era := z / 146097 in
  let doe := z - era * 146097 in
  let yoe := (doe - doe / 1460 + doe / 36524 - doe / 146096) / 365 in
  let doy := doe - (365 * yoe + yoe / 4 - yoe / 100) in
  let mp := (5 * doy + 2) / 153 in
  let d := doy - (153 * mp + 2) / 5 + 1 in
  let m := if mp <? 10 then mp + 3 else mp - 9 in
  let y := yoe + era * 400 in
  (if m <=? 2 then y + 1 else y, m, d).

Definition isoYear (y : Z) : string :=
  if (0 <=? y) && (y <=? 9999) then padded 4 y
  else if y <? 0 then "-" ++ padded 6 (- y)
  else "+" ++ padded 6 y.

Definition toISOString (t : Z) : Completion string :=
  if validTime t then
    let '(y, m, d) := civilFromDays (t / 86400000) in
    let ms := t mod 86400000 in
    Returns (isoYear y ++ "-" ++ padded 2 m ++ "-" ++ padded 2 d ++ "T"
             ++ padded 2 (ms / 3600000) ++ ":"
             ++ padded 2 (ms / 60000 mod 60) ++ ":"
             ++ padded 2 (ms / 1000 mod 60) ++ "."
             ++ padded 3 (ms mod 1000) ++ "Z")
  else Throws (RangeError "Invalid time value").

(** [new Date().toISOString()]: the current time is a valid time value,
    so the rendering is all that is left of the call. *)
Definition isoOf (t : Z) : string :=
  match toISOString t with Returns s => s | Throws _ => EmptyString end.

(** ** The world outside the program: the clock and the random source.
    The world holds every outcome the program will read, and how many it
    has read so far. *)

Record World : Type := {
  randomOutcomes : nat -> Q;
  randomCalls : nat;
  clockReadings : nat -> Z;
  clockReads : nat;
  warnings : list string
}.

Definition IO (A : Type) : Type := World -> A * World.

Definition ret {A} (a : A) : IO A := fun w => (a, w).

Definition bind {A B} (m : IO A) (f : A -> IO B) : IO B :=
  fun w => let '(a, w') := m w in f a w'.

(** [Math.random()]: a number in [0, 1). *)
Definition Math_random : IO Q :=
  fun w =>
    let r := randomOutcomes w (randomCalls w) in
    ((r - inject_Z (Qfloor r))%Q,
     {| randomOutcomes := randomOutcomes w; randomCalls := S (randomCalls w);
        clockReadings := clockReadings w; clockReads := clockReads w;
        warnings := warnings w |}).

(** [Date.now()], also the instant of [new Date()]: a valid time value. *)
Definition Date_now : IO Z :=
  fun w =>
    let t := clockReadings w (clockReads w) in
    (Z.max (- maxTime) (Z.min maxTime t),
     {| randomOutcomes := randomOutcomes w; randomCalls := randomCalls w;
        clockReadings := clockReadings w; clockReads := S (clockReads w);
        warnings := warnings w |}).

(** [console.warn(message)]. *)
Definition console_warn (message : string) : IO unit :=
  fun w =>
    (tt,
     {| randomOutcomes := randomOutcomes w; randomCalls := randomCalls w;
        clockReadings := clockReadings w; clockReads := clockReads w;
        warnings := warnings w ++ [message] |}).

(** ** [Number.prototype.toString(36)] on a number in [0, 1): ["0"], or
    ["0."] and the digits of the base-36 expansion.  The language leaves
    the number of digits to the engine; the model prints the exact
    expansion up to [maxDigits36] digits. *)

Definition digit36 (d : Z) : ascii :=
  if d <? 10 then ascii_of_nat (Z.to_nat (48 + d))
  else ascii_of_nat (Z.to_nat (87 + d)).

Fixpoint fraction36 (fuel : nat) (r : Q) : string :=
  match fuel with
  | O => EmptyString
  | S fuel' =>
      if Qeq_bool r 0 then EmptyString
      else
        let x := (r * 36)%Q in
        let d := Qfloor x in
        String (digit36 d) (fraction36 fuel' (Qred (x - inject_Z d)%Q))
  end.

Definition maxDigits36 : nat := 52.

Definition toString36 (r : Q) : string :=
  if Qeq_bool r 0 then "0" else "0." ++ fraction36 maxDigits36 r.

(** [s.substr(start, length)]. *)
Definition substr (s : string) (start length : nat) : string :=
  String.substring start length s.

(** ** [Map] with string keys: entries in insertion order, one per key. *)

Module Map.

Definition t (V : Type) : Type := list (string * V).

Definition empty {V} : t V := [].

Fixpoint get {V} (m : t V) (k : string) : option V :=
  match m with
  | [] => None
  | (k', v) :: m' => if String.eqb k' k then Some v else get m' k
  end.

Definition has {V} (m : t V) (k : string) : bool :=
  match get m k with Some _ => true | None => false end.

(** [set] replaces the value of a present key where it stands and
    appends a new key at the end. *)
Fixpoint set {V} (m : t V) (k : string) (v : V) : t V :=
  match m with
  | [] => [(k, v)]
  | (k', v') :: m' =>
      if String.eqb k' k then (k', v) :: m' else (k', v') :: set m' k v
  end.

Definition clear {V} (m : t V) : t V := [].

Definition size {V} (m : t V) : Z := Z.of_nat (List.length m).

Definition entries {V} (m : t V) : list (string * V) := m.

(** [delete] removes the entry of the key, if there is one, and leaves
    the other entries in their order. *)
Fixpoint delete {V} (m : t V) (k : string) : t V :=
  match m with
  | [] => []
  | (k', v) :: m' => if String.eqb k' k then m' else (k', v) :: delete m' k
  end.

End Map.

(** ** [Array.prototype.sort] with a comparator [(a, b) => key a - key b]
    on integer keys.  The sort is stable: elements with equal keys keep
    their order. *)

Section Sort.
Context {A : Type} (key : A -> Z).

(** [x] goes before the first element whose key is not smaller. *)
Fixpoint insert (x : A) (l : list A) : list A :=
  match l with
  | [] => [x]
  | y :: l' => if key x <=? key y then x :: l else y :: insert x l'
  end.

Fixpoint sort (l : list A) : list A :=
  match l with
  | [] => []
  | x :: l' => insert x (sort l')
  end.
End Sort.

End JS.

Declare Scope io_scope.
Delimit Scope io_scope with io.
Notation "x <- c1 ;; c2" := (JS.bind c1 (fun x => c2))
  (at level 61, c1 at next level, right associativity) : io_scope.
Notation "' p <- c1 ;; c2" := (JS.bind c1 (fun p => c2))
  (at level 61, p pattern, c1 at next level, right associativity) : io_scope.

(* ================================================================== *)
(** * services/QuestionGenerator.js *)
(* ================================================================== *)

Module QuestionGenerator.

Inductive Difficulty : Type := easy | medium | hard.

(** The operator symbols ['+'], ['-'] and ['*']. *)
Inductive Symbol : Type := Plus | Minus | Times.

Definition Symbol_eqb (a b : Symbol) : bool :=
  match a, b with
  | Plus, Plus | Minus, Minus | Times, Times => true
  | _, _ => false
  end.

Definition symbolText (s : Symbol) : string :=
  match s with Plus => "+" | Minus => "-" | Times => "*" end.

Record Operator : Type := {
  symbol : Symbol;
  name : string;
  operation : Z -> Z -> Z;
  opDifficulty : Difficulty
}.

Record Config : Type := {
  minNumber : Z;
  maxNumber : Z;
  configOperators : list Symbol
}.

Module Question.
Record t : Type := {
  id : string;
  question : string;
  answer : Z;
  operands : Z * Z;
  operator : Symbol;
  operatorName : string;
  difficulty : Difficulty;
  generatedAt : Z;
  generatedAtISO : string
}.
End Question.

(** The generator object: its tables are constants, [currentDifficulty]
    is its only field that changes. *)
Record t : Type := { currentDifficulty : Difficulty }.

Definition constructor : t := {| currentDifficulty := medium |}.

Definition operators : list Operator :=
  [ {| symbol := Plus; name := "addition";
       operation := fun a b => a + b; opDifficulty := easy |};
    {| symbol := Minus; name := "subtraction";
       operation := fun a b => a - b; opDifficulty := easy |};
    {| symbol := Times; name := "multiplication";
       operation := fun a b => a * b; opDifficulty := medium |} ].

Definition difficultyLevels (d : Difficulty) : Config :=
  match d with
  | easy => {| minNumber := 1; maxNumber := 50; configOperators := [Plus; Minus] |}
  | medium => {| minNumber := 1; maxNumber := 100; configOperators := [Plus; Minus; Times] |}
  | hard => {| minNumber := 10; maxNumber := 100; configOperators := [Plus; Minus; Times] |}
  end.

Definition getRandomNumber (min max : Z) : JS.IO Z :=
  (r <- JS.Math_random ;;
   JS.ret (Qfloor (r * inject_Z (max - min + 1)) + min))%io.

Definition includes (l : list Symbol) (s : Symbol) : bool :=
  existsb (Symbol_eqb s) l.

(** [availableOperators[randomIndex]]: the index is below the length
    because the draw is below 1 and no difficulty has an empty operator
    list; the default stands for [undefined] and is never taken. *)
Definition getRandomOperator (g : t) (difficulty : option Difficulty) : JS.IO Operator :=
  let difficulty := match difficulty with Some d => d | None => currentDifficulty g end in
  let config := difficultyLevels difficulty in
  let availableOperators :=
    filter (fun op => includes (configOperators config) (symbol op)) operators in
  (r <- JS.Math_random ;;
   let randomIndex := Qfloor (r * inject_Z (Z.of_nat (List.length availableOperators))) in
   JS.ret (nth (Z.to_nat randomIndex) availableOperators
               {| symbol := Plus; name := "undefined";
                  operation := fun _ _ => 0; opDifficulty := easy |}))%io.

Definition generate (g : t) (difficulty : option Difficulty) : JS.IO Question.t :=
  let difficulty := match difficulty with Some d => d | None => currentDifficulty g end in
  let config := difficultyLevels difficulty in
  (num1 <- getRandomNumber (minNumber config) (maxNumber config) ;;
   num2 <- getRandomNumber (minNumber config) (maxNumber config) ;;
   operator <- getRandomOperator g (Some difficulty) ;;
   (* For subtraction, ensure result is non-negative *)
   let '(num1, num2) :=
     if Symbol_eqb (symbol operator) Minus && (num1 <? num2)
     then (num2, num1) else (num1, num2) in
   (* For multiplication, use smaller numbers *)
   ' (num1, num2) <-
     (if Symbol_eqb (symbol operator) Times then
        n1 <- getRandomNumber (minNumber config) (Z.min (maxNumber config) 20) ;;
        n2 <- getRandomNumber (minNumber config) (Z.min (maxNumber config) 20) ;;
        JS.ret (n1, n2)
      else JS.ret (num1, num2)) ;;
   let answer := operation operator num1 num2 in
   now <- JS.Date_now ;;
   r <- JS.Math_random ;;
   let questionId := "q_" ++ JS.decimal now ++ "_" ++ JS.substr (JS.toString36 r) 2 9 in
   generatedAt <- JS.Date_now ;;
   today <- JS.Date_now ;;
   JS.ret {| Question.id := questionId;
             Question.question :=
               JS.decimal num1 ++ " " ++ symbolText (symbol operator) ++ " " ++ JS.decimal num2;
             Question.answer := answer;
             Question.operands := (num1, num2);
             Question.operator := symbol operator;
             Question.operatorName := name operator;
             Question.difficulty := difficulty;
             Question.generatedAt := generatedAt;
             Question.generatedAtISO := JS.isoOf today |})%io.

Definition validate (userAnswer : JS.value) (correctAnswer : Z) : bool :=
  match userAnswer with
  | JS.Null | JS.Undefined | JS.Str EmptyString => false
  | _ =>
      let parsedAnswer := JS.Number userAnswer in
      if JS.isNaN parsedAnswer then false
      else JS.lessThan (JS.abs (JS.minus parsedAnswer correctAnswer)) (1 # 10000)
  end.

Definition difficultyOfString (s : string) : option Difficulty :=
  if String.eqb s "easy" then Some easy
  else if String.eqb s "medium" then Some medium
  else if String.eqb s "hard" then Some hard
  else None.

(** The names [difficultyLevels] inherits from [Object.prototype]: the
    lookup [this.difficultyLevels[name]] finds a value under them too,
    and the value is truthy. *)
Definition inherited (s : string) : bool :=
  existsb (String.eqb s)
    ["constructor"; "__proto__"; "hasOwnProperty"; "isPrototypeOf";
     "propertyIsEnumerable"; "toLocaleString"; "toString"; "valueOf";
     "__defineGetter__"; "__defineSetter__"; "__lookupGetter__";
     "__lookupSetter__"].

(** [setDifficulty].  Under an inherited name the check passes and the
    generator is left with a difficulty that is no level; the model,
    whose generators hold a level, does not follow it there ([None]). *)
Definition setDifficulty (g : t) (difficulty : string)
  : option (t * JS.Completion unit) :=
  match difficultyOfString difficulty with
  | Some d => Some ({| currentDifficulty := d |}, JS.Returns tt)
  | None =>
      if inherited difficulty then None
      else
        Some (g, JS.Throws (JS.PlainError
                ("Invalid difficulty level: " ++ difficulty
                 ++ ". Must be 'easy', 'medium', or 'hard'.")))
  end.

Definition getDifficulty (g : t) : Difficulty := currentDifficulty g.

(** The loop of [generateBatch]: [count] calls of [generate], in order. *)
Fixpoint generateBatch (g : t) (count : nat) (difficulty : option Difficulty)
  : JS.IO (list Question.t) :=
  match count with
  | O => JS.ret []
  | S count' =>
      (q <- generate g (Some (match difficulty with
                              | Some d => d | None => currentDifficulty g end)) ;;
       questions <- generateBatch g count' difficulty ;;
       JS.ret (q :: questions))%io
  end.

End QuestionGenerator.

(* ================================================================== *)
(** * services/StateMachineLogger.js *)
(* ================================================================== *)

Module StateMachineLogger.

(** The keys of [this.states]; every caller passes one of these names. *)
Inductive State : Type := IDLE | ACTIVE | LOCKED | TRANSITIONING.

Definition State_eqb (a b : State) : bool :=
  match a, b with
  | IDLE, IDLE | ACTIVE, ACTIVE | LOCKED, LOCKED
  | TRANSITIONING, TRANSITIONING => true
  | _, _ => false
  end.

Definition stateName (s : State) : string :=
  match s with
  | IDLE => "IDLE" | ACTIVE => "ACTIVE" | LOCKED => "LOCKED"
  | TRANSITIONING => "TRANSITIONING"
  end.

(** The [context] object of a transition: its keys and their values. *)
Definition Context : Type := list (string * JS.value).

Module Transition.
Record t : Type := {
  from : State;
  to : State;
  timestamp : Z;
  timestampISO : string;
  transitionNumber : Z;
  context : Context
}.
End Transition.

Record t : Type := {
  currentState : State;
  stateHistory : list Transition.t;
  transitionCount : Z
}.

Definition constructor : t :=
  {| currentState := IDLE; stateHistory := []; transitionCount := 0 |}.

(** Valid state transitions *)
Definition validTransitions (s : State) : list State :=
  match s with
  | IDLE => [ACTIVE]
  | ACTIVE => [LOCKED; IDLE]
  | LOCKED => [TRANSITIONING]
  | TRANSITIONING => [ACTIVE; IDLE]
  end.

Definition includes (l : list State) (s : State) : bool :=
  existsb (State_eqb s) l.

(** The text of the warning, its symbols outside the code units of the
    model written in ASCII. *)
Definition invalidTransitionMessage (oldState newState : State) : string :=
  "Invalid state transition: " ++ stateName oldState ++ " -> " ++ stateName newState.

Definition transition (m : t) (newState : State) (context : Context) : JS.IO t :=
  let oldState := currentState m in
  (* Validate transition *)
  (_ <- (if negb (includes (validTransitions oldState) newState)
         then JS.console_warn (invalidTransitionMessage oldState newState)
         else JS.ret tt) ;;
   (* Record transition *)
   let transitionCount' := transitionCount m + 1 in
   now <- JS.Date_now ;;
   today <- JS.Date_now ;;
   let transition :=
     {| Transition.from := oldState;
        Transition.to := newState;
        Transition.timestamp := now;
        Transition.timestampISO := JS.isoOf today;
        Transition.transitionNumber := transitionCount';
        Transition.context := context |} in
   JS.ret {| currentState := newState;
             stateHistory := stateHistory m ++ [transition];
             transitionCount := transitionCount' |})%io.

Definition getCurrentState (m : t) : State := currentState m.

Definition isInState (m : t) (state : State) : bool :=
  State_eqb (currentState m) state.

Definition getHistory (m : t) : list Transition.t := stateHistory m.

(** [stateCounts] of [getStatistics]: how often each state was entered. *)
Definition stateVisitCounts (m : t) (s : State) : Z :=
  Z.of_nat (List.length
    (filter (fun tr => State_eqb (Transition.to tr) s) (stateHistory m))).

(** Resets the state machine to IDLE *)
Definition reset (m : t) : JS.IO t :=
  transition m IDLE [("reason", JS.Str "Manual reset")].

(** The operations of the machine, for runs of them. *)
Inductive Op : Type :=
| OpTransition (newState : State) (context : Context)
| OpReset
| OpGetCurrentState
| OpIsInState (state : State)
| OpGetHistory
| OpStateVisitCounts (state : State).

Definition step (m : t) (op : Op) : JS.IO t :=
  match op with
  | OpTransition newState context => transition m newState context
  | OpReset => reset m
  | OpGetCurrentState | OpIsInState _ | OpGetHistory | OpStateVisitCounts _ => JS.ret m
  end.

Fixpoint run (m : t) (ops : list Op) : JS.IO t :=
  match ops with
  | [] => JS.ret m
  | op :: ops' => (m' <- step m op ;; run m' ops')%io
  end.

(** A recorded transition is legal when its pair is in the table. *)
Definition allowed (tr : Transition.t) : bool :=
  includes (validTransitions (Transition.from tr)) (Transition.to tr).

(** ** Statistics *)

(** [counters[key] || 0] on an object of counters, its keys in the order
    they were first written. *)
Definition orZero (counters : JS.Map.t Z) (key : string) : Z :=
  match JS.Map.get counters key with Some v => v | None => 0 end.

(** The [forEach] of [getStatistics]: one more visit for the state each
    record leads to. *)
Fixpoint countVisits (h : list Transition.t) (stateCounts : JS.Map.t Z) : JS.Map.t Z :=
  match h with
  | [] => stateCounts
  | tr :: h' =>
      let key := stateName (Transition.to tr) in
      countVisits h' (JS.Map.set stateCounts key (orZero stateCounts key + 1))
  end.

(** The loop of [calculateAverageTimeInStates] over each record and the
    one after it: the time between the two is spent in the state the
    first leads to. *)
Fixpoint sumDurations (h : list Transition.t) (stateTimes stateCounts : JS.Map.t Z)
  : JS.Map.t Z * JS.Map.t Z :=
  match h with
  | current :: ((next :: _) as rest) =>
      let duration := Transition.timestamp next - Transition.timestamp current in
      let key := stateName (Transition.to current) in
      sumDurations rest
        (JS.Map.set stateTimes key (orZero stateTimes key + duration))
        (JS.Map.set stateCounts key (orZero stateCounts key + 1))
  | _ => (stateTimes, stateCounts)
  end.

(** [Math.round(total / count)]; a missing count is [undefined] and the
    quotient NaN.  The quotient is taken exactly; the source's doubles
    round to the same integer while the total stays below 2^52 in size. *)
Definition average (total : Z) (count : option Z) : JS.number :=
  match count with
  | None => JS.NaN
  | Some c =>
      if c =? 0 then (if total =? 0 then JS.NaN else JS.Infinity (total <? 0))
      else JS.Finite (inject_Z (JS.Math_round (inject_Z total / inject_Z c)))
  end.

Definition calculateAverageTimeInStates (m : t) : JS.Map.t JS.number :=
  let '(stateTimes, stateCounts) :=
    sumDurations (stateHistory m) JS.Map.empty JS.Map.empty in
  map (fun '(state, total) => (state, average total (JS.Map.get stateCounts state)))
      (JS.Map.entries stateTimes).

Module Statistics.
Record t : Type := {
  currentState : State;
  totalTransitions : Z;
  stateVisitCounts : JS.Map.t Z;
  averageTimeInStates : JS.Map.t JS.number;
  lastTransition : option Transition.t
}.
End Statistics.

Definition getStatistics (m : t) : Statistics.t :=
  {| Statistics.currentState := currentState m;
     Statistics.totalTransitions := transitionCount m;
     Statistics.stateVisitCounts := countVisits (stateHistory m) JS.Map.empty;
     Statistics.averageTimeInStates := calculateAverageTimeInStates m;
     Statistics.lastTransition :=
       match stateHistory m with
       | [] => None
       | _ => nth_error (stateHistory m) (List.length (stateHistory m) - 1)
       end |}.

End StateMachineLogger.

(* ================================================================== *)
(** * services/StateManager.js *)
(* ================================================================== *)

Module StateManager.

Module Question := QuestionGenerator.Question.

(** The value stored in [submissions] under a socket id. *)
Module Submission.
Record t : Type := {
  answer : JS.value;
  timestamp : Z;
  timestampISO : string
}.
End Submission.

(** An element of [submissionOrder]. *)
Module Entry.
Record t : Type := {
  socketId : string;
  timestamp : Z
}.
End Entry.

Record t : Type := {
  currentQuestion : option Question.t;
  currentWinner : option string;
  isLocked : bool;
  submissions : JS.Map.t Submission.t;
  submissionOrder : list Entry.t;
  GRACE_PERIOD_MS : Z
}.

Definition constructor : t :=
  {| currentQuestion := None;
     currentWinner := None;
     isLocked := false;
     submissions := JS.Map.empty;
     submissionOrder := [];
     GRACE_PERIOD_MS := 100 |}.

(** Sets a new question and resets all state *)
Definition setQuestion (s : t) (question : Question.t) : t :=
  {| currentQuestion := Some question;
     currentWinner := None;
     isLocked := false;
     submissions := JS.Map.clear (submissions s);
     submissionOrder := [];
     GRACE_PERIOD_MS := GRACE_PERIOD_MS s |}.

Definition getCurrentQuestion (s : t) : option Question.t := currentQuestion s.

Definition hasSubmitted (s : t) (socketId : string) : bool :=
  JS.Map.has (submissions s) socketId.

(** The object [recordSubmission] returns: [{success: true, timestamp}]
    or [{success: false, reason, message}]. *)
Inductive RecordResult : Type :=
| Accepted (timestamp : Z)
| Rejected (reason message : string).

Definition success (r : RecordResult) : bool :=
  match r with Accepted _ => true | Rejected _ _ => false end.

Definition recordSubmission (s : t) (socketId : string) (answer : JS.value)
    (timestamp : Z) : t * JS.Completion RecordResult :=
  (* Check if question is locked (already has a winner) *)
  if isLocked s then
    (s, JS.Returns (Rejected "question-locked" "This question already has a winner"))
  (* Check for double submission *)
  else if hasSubmitted s socketId then
    (s, JS.Returns (Rejected "already-submitted"
                      "You have already submitted an answer for this question"))
  (* Check if there's a current question *)
  else match currentQuestion s with
  | None => (s, JS.Returns (Rejected "no-question" "No active question to answer"))
  | Some _ =>
      (* The submission object is built before [set] is called, and
         [toISOString] throws on an invalid time value. *)
      match JS.toISOString timestamp with
      | JS.Throws e => (s, JS.Throws e)
      | JS.Returns iso =>
          ({| currentQuestion := currentQuestion s;
              currentWinner := currentWinner s;
              isLocked := isLocked s;
              (* Record the submission *)
              submissions :=
                JS.Map.set (submissions s) socketId
                  {| Submission.answer := answer;
                     Submission.timestamp := timestamp;
                     Submission.timestampISO := iso |};
              (* Track submission order *)
              submissionOrder :=
                submissionOrder s
                ++ [ {| Entry.socketId := socketId; Entry.timestamp := timestamp |} ];
              GRACE_PERIOD_MS := GRACE_PERIOD_MS s |},
           JS.Returns (Accepted timestamp))
      end
  end.

Definition attemptWin (s : t) (socketId : string) (isCorrect : bool) : t * bool :=
  if isLocked s then (s, false)
  else if isCorrect then
    ({| currentQuestion := currentQuestion s;
        currentWinner := Some socketId;
        isLocked := true;
        submissions := submissions s;
        submissionOrder := submissionOrder s;
        GRACE_PERIOD_MS := GRACE_PERIOD_MS s |},
     true)
  else (s, false).

Definition getWinner (s : t) : option string := currentWinner s.

Definition isQuestionLocked (s : t) : bool := isLocked s.

(** [this.submissionOrder.sort(...)] sorts the array where it is: the
    field holds the sorted array afterwards. *)
Definition sortSubmissionOrder (s : t) : t :=
  {| currentQuestion := currentQuestion s;
     currentWinner := currentWinner s;
     isLocked := isLocked s;
     submissions := submissions s;
     submissionOrder := JS.sort Entry.timestamp (submissionOrder s);
     GRACE_PERIOD_MS := GRACE_PERIOD_MS s |}.

(** An element of the array [getSubmissionsInOrder] returns: the entry's
    fields, overwritten and extended by the stored submission's. *)
Module Ordered.
Record t : Type := {
  socketId : string;
  timestamp : Z;
  answer : option JS.value;
  timestampISO : option string
}.
End Ordered.

Definition spread (s : t) (entry : Entry.t) : Ordered.t :=
  match JS.Map.get (submissions s) (Entry.socketId entry) with
  | Some sub =>
      {| Ordered.socketId := Entry.socketId entry;
         Ordered.timestamp := Submission.timestamp sub;
         Ordered.answer := Some (Submission.answer sub);
         Ordered.timestampISO := Some (Submission.timestampISO sub) |}
  | None =>
      {| Ordered.socketId := Entry.socketId entry;
         Ordered.timestamp := Entry.timestamp entry;
         Ordered.answer := None;
         Ordered.timestampISO := None |}
  end.

Definition getSubmissionsInOrder (s : t) : t * list Ordered.t :=
  let s' := sortSubmissionOrder s in
  (s', map (spread s') (submissionOrder s')).

Definition getGracePeriodSubmissions (s : t) : t * list Entry.t :=
  match submissionOrder s with
  | [] => (s, [])
  | _ =>
      let s' := sortSubmissionOrder s in
      let sorted := submissionOrder s' in
      let firstTimestamp :=
        match sorted with e :: _ => Entry.timestamp e | [] => 0 end in
      let gracePeriodEnd := firstTimestamp + GRACE_PERIOD_MS s' in
      (s', filter (fun entry => Entry.timestamp entry <=? gracePeriodEnd) sorted)
  end.

Definition getSubmission (s : t) (socketId : string) : option Submission.t :=
  JS.Map.get (submissions s) socketId.

Module Snapshot.
Record t : Type := {
  question : option Question.t;
  winner : option string;
  isLocked : bool;
  submissionCount : Z;
  submissions : list (string * Submission.t);
  gracePeriodMs : Z
}.
End Snapshot.

Definition getState (s : t) : Snapshot.t :=
  {| Snapshot.question := currentQuestion s;
     Snapshot.winner := currentWinner s;
     Snapshot.isLocked := isLocked s;
     Snapshot.submissionCount := JS.Map.size (submissions s);
     Snapshot.submissions := JS.Map.entries (submissions s);
     Snapshot.gracePeriodMs := GRACE_PERIOD_MS s |}.

Module Stats.
Record t : Type := {
  totalSubmissions : Z;
  hasWinner : bool;
  isLocked : bool;
  questionId : option string;
  gracePeriodSubmissions : Z
}.
End Stats.

Definition getStats (s : t) : t * Stats.t :=
  let totalSubmissions := JS.Map.size (submissions s) in
  let hasWinner := match currentWinner s with Some _ => true | None => false end in
  let locked := isLocked s in
  let questionId :=
    match currentQuestion s with
    | Some q => if String.eqb (Question.id q) "" then None else Some (Question.id q)
    | None => None
    end in
  let '(s', grace) := getGracePeriodSubmissions s in
  (s', {| Stats.totalSubmissions := totalSubmissions;
          Stats.hasWinner := hasWinner;
          Stats.isLocked := locked;
          Stats.questionId := questionId;
          Stats.gracePeriodSubmissions := Z.of_nat (List.length grace) |}).

(** Resets all state completely *)
Definition reset (s : t) : t :=
  {| currentQuestion := None;
     currentWinner := None;
     isLocked := false;
     submissions := JS.Map.clear (submissions s);
     submissionOrder := [];
     GRACE_PERIOD_MS := GRACE_PERIOD_MS s |}.

Definition setGracePeriod (s : t) (milliseconds : Z) : t * JS.Completion unit :=
  if milliseconds <? 0 then
    (s, JS.Throws (JS.PlainError "Grace period must be non-negative"))
  else
    ({| currentQuestion := currentQuestion s;
        currentWinner := currentWinner s;
        isLocked := isLocked s;
        submissions := submissions s;
        submissionOrder := submissionOrder s;
        GRACE_PERIOD_MS := milliseconds |},
     JS.Returns tt).

Definition getGracePeriod (s : t) : Z := GRACE_PERIOD_MS s.

(** ** Runs of public operations *)

(** The read-only accessors of the class. *)
Inductive Accessor : Type :=
| GetCurrentQuestion
| HasSubmitted (socketId : string)
| GetSubmission (socketId : string)
| GetWinner
| IsQuestionLocked
| GetSubmissionsInOrder
| GetGracePeriodSubmissions
| GetState
| GetStats
| GetGracePeriod.

Inductive Op : Type :=
| SetQuestion (question : Question.t)
| RecordSubmission (socketId : string) (answer : JS.value) (timestamp : Z)
| AttemptWin (socketId : string) (isCorrect : bool)
| Reset
| SetGracePeriod (milliseconds : Z)
| Read (a : Accessor).

(** What a call evaluates to. *)
Inductive Outcome : Type :=
| Void
| Threw (e : JS.Error)
| Recorded (r : RecordResult)
| Won (b : bool)
| TheQuestion (q : option Question.t)
| Submitted (b : bool)
| TheSubmission (sub : option Submission.t)
| TheWinner (w : option string)
| Locked (b : bool)
| InOrder (l : list Ordered.t)
| InGracePeriod (l : list Entry.t)
| TheState (snapshot : Snapshot.t)
| TheStats (stats : Stats.t)
| GracePeriod (ms : Z).

Definition read (s : t) (a : Accessor) : t * Outcome :=
  match a with
  | GetCurrentQuestion => (s, TheQuestion (getCurrentQuestion s))
  | HasSubmitted socketId => (s, Submitted (hasSubmitted s socketId))
  | GetSubmission socketId => (s, TheSubmission (getSubmission s socketId))
  | GetWinner => (s, TheWinner (getWinner s))
  | IsQuestionLocked => (s, Locked (isQuestionLocked s))
  | GetSubmissionsInOrder => let '(s', l) := getSubmissionsInOrder s in (s', InOrder l)
  | GetGracePeriodSubmissions =>
      let '(s', l) := getGracePeriodSubmissions s in (s', InGracePeriod l)
  | GetState => (s, TheState (getState s))
  | GetStats => let '(s', stats) := getStats s in (s', TheStats stats)
  | GetGracePeriod => (s, GracePeriod (getGracePeriod s))
  end.

Definition step (s : t) (op : Op) : t * Outcome :=
  match op with
  | SetQuestion question => (setQuestion s question, Void)
  | RecordSubmission socketId answer timestamp =>
      match recordSubmission s socketId answer timestamp with
      | (s', JS.Returns r) => (s', Recorded r)
      | (s', JS.Throws e) => (s', Threw e)
      end
  | AttemptWin socketId isCorrect =>
      let '(s', b) := attemptWin s socketId isCorrect in (s', Won b)
  | Reset => (reset s, Void)
  | SetGracePeriod milliseconds =>
      match setGracePeriod s milliseconds with
      | (s', JS.Returns _) => (s', Void)
      | (s', JS.Throws e) => (s', Threw e)
      end
  | Read a => read s a
  end.

(** The state after a run and what each call evaluated to. *)
Fixpoint run (s : t) (ops : list Op) : t * list Outcome :=
  match ops with
  | [] => (s, [])
  | op :: ops' =>
      let '(s1, o) := step s op in
      let '(s2, os) := run s1 ops' in
      (s2, o :: os)
  end.

End StateManager.

(* ================================================================== *)
(** * handlers/socketHandlers.js *)
(* ================================================================== *)

Module socketHandlers.

Module Question := QuestionGenerator.Question.

(** Question progression configuration *)
Definition WINNER_DISPLAY_DURATION : Z := 3000.
Definition DEFAULT_DIFFICULTY : QuestionGenerator.Difficulty := QuestionGenerator.medium.

(** The events the server emits, with their payloads. *)
Inductive Message : Type :=
| current_question (question questionId : string)
    (difficulty : QuestionGenerator.Difficulty) (timestamp : Z)
| waiting_for_question (message : string) (timestamp : Z)
| submission_error (error message : string) (timestamp : Z)
| submission_rejected (reason message : string) (timestamp : Z)
| winner_declared (winnerId : string) (correctAnswer : Z) (question questionId : string)
    (submissionTime nextQuestionIn timestamp : Z)
| you_won (message : string) (correctAnswer : Z) (question : string) (timestamp : Z)
| submission_result (correct winner : bool) (message : string) (timestamp : Z)
| new_question (question questionId : string)
    (difficulty : QuestionGenerator.Difficulty) (timestamp : Z).

(** The two functions handed to [setTimeout]. *)
Inductive Callback : Type :=
| ToTransitioning
| NextQuestion.

(** What a handler does to the outside, in order. *)
Inductive Effect : Type :=
| SocketEmit (socketId : string) (m : Message)
| IoEmit (m : Message)
| SetTimeout (handle : Z) (callback : Callback) (delay : Z)
| ClearTimeout (handle : option Z).

(** The module's services and its [questionTimeout]; [timers] counts the
    handles [setTimeout] has given out. *)
Record t : Type := {
  questionGenerator : QuestionGenerator.t;
  stateManager : StateManager.t;
  stateMachine : StateMachineLogger.t;
  questionTimeout : option Z;
  timers : Z
}.

Definition initial : t :=
  {| questionGenerator := QuestionGenerator.constructor;
     stateManager := StateManager.constructor;
     stateMachine := StateMachineLogger.constructor;
     questionTimeout := None;
     timers := 0 |}.

(** The payload of [submit-answer]: an object whose [answer] may be
    missing ([Undefined]). *)
Record Data : Type := { answer : JS.value }.

Definition Result : Type := t * list Effect * JS.Completion unit.

Definition number (n : Z) : JS.value := JS.Num (JS.Finite (inject_Z n)).

Definition sendCurrentQuestionToUser (h : t) (socketId : string) : JS.IO Result :=
  match StateManager.getCurrentQuestion (stateManager h) with
  | Some currentQuestion =>
      (now <- JS.Date_now ;;
       JS.ret (h,
               [SocketEmit socketId
                  (current_question (Question.question currentQuestion)
                     (Question.id currentQuestion)
                     (Question.difficulty currentQuestion) now)],
               JS.Returns tt))%io
  | None =>
      (now <- JS.Date_now ;;
       JS.ret (h,
               [SocketEmit socketId
                  (waiting_for_question "Waiting for next question..." now)],
               JS.Returns tt))%io
  end.

Definition emptyAnswer (answer : JS.value) : bool :=
  match answer with
  | JS.Undefined | JS.Null | JS.Str EmptyString => true
  | _ => false
  end.

Definition handleAnswerSubmission (h : t) (socketId : string) (data : Data)
  : JS.IO Result :=
  let answer := answer data in
  (timestamp <- JS.Date_now ;;
   (* Validate input *)
   if emptyAnswer answer then
     JS.ret (h,
             [SocketEmit socketId
                (submission_error "Invalid answer" "Answer cannot be empty" timestamp)],
             JS.Returns tt)
   else
     (* Record the submission (handles double submission and lock checks) *)
     match StateManager.recordSubmission (stateManager h) socketId answer timestamp with
     | (sm, JS.Throws e) =>
         JS.ret ({| questionGenerator := questionGenerator h; stateManager := sm;
                    stateMachine := stateMachine h;
                    questionTimeout := questionTimeout h; timers := timers h |},
                 [], JS.Throws e)
     | (sm, JS.Returns (StateManager.Rejected reason message)) =>
         JS.ret ({| questionGenerator := questionGenerator h; stateManager := sm;
                    stateMachine := stateMachine h;
                    questionTimeout := questionTimeout h; timers := timers h |},
                 [SocketEmit socketId (submission_rejected reason message timestamp)],
                 JS.Returns tt)
     | (sm, JS.Returns (StateManager.Accepted _)) =>
         match StateManager.getCurrentQuestion sm with
         | None =>
             JS.ret ({| questionGenerator := questionGenerator h; stateManager := sm;
                        stateMachine := stateMachine h;
                        questionTimeout := questionTimeout h; timers := timers h |},
                     [], JS.Throws (JS.TypeError "currentQuestion is null"))
         | Some currentQuestion =>
             (* Validate the answer against the correct answer *)
             let isCorrect :=
               QuestionGenerator.validate answer (Question.answer currentQuestion) in
             (* Attempt to claim victory (atomic operation) *)
             let '(sm, isWinner) := StateManager.attemptWin sm socketId isCorrect in
             if isWinner then
               (* Transition state machine: ACTIVE -> LOCKED *)
               machine <- StateMachineLogger.transition (stateMachine h)
                            StateMachineLogger.LOCKED
                            [("winnerId", JS.Str socketId);
                             ("question", JS.Str (Question.question currentQuestion));
                             ("answer", number (Question.answer currentQuestion))] ;;
               match StateManager.getSubmission sm socketId with
               | None =>
                   JS.ret ({| questionGenerator := questionGenerator h;
                              stateManager := sm; stateMachine := machine;
                              questionTimeout := questionTimeout h;
                              timers := timers h |},
                           [], JS.Throws (JS.TypeError "winnerSubmission is undefined"))
               | Some winnerSubmission =>
                   JS.ret ({| questionGenerator := questionGenerator h;
                              stateManager := sm; stateMachine := machine;
                              questionTimeout := Some (timers h + 1);
                              timers := timers h + 2 |},
                           [ (* Broadcast winner to ALL connected clients *)
                             IoEmit
                               (winner_declared socketId
                                  (Question.answer currentQuestion)
                                  (Question.question currentQuestion)
                                  (Question.id currentQuestion)
                                  (StateManager.Submission.timestamp winnerSubmission)
                                  WINNER_DISPLAY_DURATION timestamp);
                             (* Send special acknowledgment to the winner *)
                             SocketEmit socketId
                               (you_won "Congratulations! You got it right first!"
                                  (Question.answer currentQuestion)
                                  (Question.question currentQuestion) timestamp);
                             (* Transition state machine: LOCKED -> TRANSITIONING *)
                             SetTimeout (timers h) ToTransitioning 100;
                             (* Schedule the next question *)
                             ClearTimeout (questionTimeout h);
                             SetTimeout (timers h + 1) NextQuestion WINNER_DISPLAY_DURATION ],
                           JS.Returns tt)
               end
             else
               JS.ret ({| questionGenerator := questionGenerator h; stateManager := sm;
                          stateMachine := stateMachine h;
                          questionTimeout := questionTimeout h; timers := timers h |},
                       [SocketEmit socketId
                          (if isCorrect then
                             submission_result true false
                               "Correct answer, but someone else got it first!" timestamp
                           else
                             submission_result false false
                               "Incorrect answer. Keep trying!" timestamp)],
                       JS.Returns tt)
         end
     end)%io.

Definition generateNewQuestion (h : t) (difficulty : option QuestionGenerator.Difficulty)
  : JS.IO Result :=
  let difficulty := match difficulty with Some d => d | None => DEFAULT_DIFFICULTY end in
  ((* Generate a new question *)
   newQuestion <- QuestionGenerator.generate (questionGenerator h) (Some difficulty) ;;
   (* Update state manager with new question (resets all state) *)
   let sm := StateManager.setQuestion (stateManager h) newQuestion in
   (* Transition state machine: TRANSITIONING/IDLE -> ACTIVE *)
   machine <- StateMachineLogger.transition (stateMachine h) StateMachineLogger.ACTIVE
                [("questionId", JS.Str (Question.id newQuestion));
                 ("question", JS.Str (Question.question newQuestion));
                 ("difficulty",
                  JS.Str (match Question.difficulty newQuestion with
                          | QuestionGenerator.easy => "easy"
                          | QuestionGenerator.medium => "medium"
                          | QuestionGenerator.hard => "hard"
                          end))] ;;
   now <- JS.Date_now ;;
   JS.ret ({| questionGenerator := questionGenerator h; stateManager := sm;
              stateMachine := machine;
              questionTimeout := questionTimeout h; timers := timers h |},
           [ (* Broadcast the new question to ALL connected clients *)
             IoEmit (new_question (Question.question newQuestion)
                       (Question.id newQuestion)
                       (Question.difficulty newQuestion) now) ],
           JS.Returns tt))%io.

Definition forceNewQuestion (h : t) (difficulty : option QuestionGenerator.Difficulty)
  : JS.IO Result :=
  (' (h', effects, c) <- generateNewQuestion h difficulty ;;
   JS.ret (h', ClearTimeout (questionTimeout h) :: effects, c))%io.

Definition resetQuiz (h : t) : JS.IO Result :=
  JS.ret ({| questionGenerator := questionGenerator h;
             stateManager := StateManager.reset (stateManager h);
             stateMachine := stateMachine h;
             questionTimeout := questionTimeout h; timers := timers h |},
          [ClearTimeout (questionTimeout h)], JS.Returns tt).

(** A timer fires: the callback it was armed with runs. *)
Definition fire (h : t) (callback : Callback) : JS.IO Result :=
  match callback with
  | ToTransitioning =>
      (machine <- StateMachineLogger.transition (stateMachine h)
                    StateMachineLogger.TRANSITIONING
                    [("displayDuration", number WINNER_DISPLAY_DURATION)] ;;
       JS.ret ({| questionGenerator := questionGenerator h;
                  stateManager := stateManager h; stateMachine := machine;
                  questionTimeout := questionTimeout h; timers := timers h |},
               [], JS.Returns tt))%io
  | NextQuestion => generateNewQuestion h None
  end.

(** What reaches the server: the socket events registered in
    [setupSocketHandlers], timers firing, and the exported controls. *)
Inductive Inbound : Type :=
| connection (socketId : string)
| submit_answer (socketId : string) (data : Data)
| request_question (socketId : string)
| disconnect (socketId : string)
| timeout (callback : Callback)
| force (difficulty : option QuestionGenerator.Difficulty)
| resetting.

Definition handle (h : t) (e : Inbound) : JS.IO Result :=
  match e with
  | connection socketId => sendCurrentQuestionToUser h socketId
  | submit_answer socketId data => handleAnswerSubmission h socketId data
  | request_question socketId => sendCurrentQuestionToUser h socketId
  | disconnect _ => JS.ret (h, [], JS.Returns tt)
  | timeout callback => fire h callback
  | force difficulty => forceNewQuestion h difficulty
  | resetting => resetQuiz h
  end.

(** [setupSocketHandlers]: the first question is generated at start. *)
Definition setupSocketHandlers : JS.IO Result := generateNewQuestion initial None.

(** The server handles its inbound events one after the other; an
    uncaught error ends the run. *)
Fixpoint serve (h : t) (events : list Inbound) : JS.IO Result :=
  match events with
  | [] => JS.ret (h, [], JS.Returns tt)
  | e :: events' =>
      (' (h1, effects1, c1) <- handle h e ;;
       match c1 with
       | JS.Throws err => JS.ret (h1, effects1, JS.Throws err)
       | JS.Returns _ =>
           ' (h2, effects2, c2) <- serve h1 events' ;;
           JS.ret (h2, (effects1 ++ effects2)%list, c2)
       end)%io
  end.


Module QuizState.
Record t : Type := {
  stateManager : StateManager.Snapshot.t;
  stats : StateManager.Stats.t;
  stateMachine : StateMachineLogger.Statistics.t;
  currentDifficulty : QuestionGenerator.Difficulty
}.
End QuizState.

(** Gets current quiz state (for debugging/monitoring); [getStats] is
    called after [getState] and sorts the order list. *)
Definition getQuizState (h : t) : t * QuizState.t :=
  let snapshot := StateManager.getState (stateManager h) in
  let '(sm, stats) := StateManager.getStats (stateManager h) in
  ({| questionGenerator := questionGenerator h; stateManager := sm;
      stateMachine := stateMachine h;
      questionTimeout := questionTimeout h; timers := timers h |},
   {| QuizState.stateManager := snapshot;
      QuizState.stats := stats;
      QuizState.stateMachine := StateMachineLogger.getStatistics (stateMachine h);
      QuizState.currentDifficulty := DEFAULT_DIFFICULTY |}).

End socketHandlers.

(* ================================================================== *)
(** * server.js *)
(* ================================================================== *)

Module server.

(** A value of [connectedUsers]. *)
Module User.
Record t : Type := {
  id : string;
  connectedAt : Z;
  connectedAtISO : string
}.
End User.

(** The process: the connection tracking of this file and the quiz
    handlers it sets up. *)
Record t : Type := {
  connectedUsers : JS.Map.t User.t;
  quiz : socketHandlers.t
}.

(** What the server sends and arms: the [user-count] broadcast of this
    file, and the effects of the quiz handlers. *)
Inductive Effect : Type :=
| UserCount (userCount : Z)
| Quiz (e : socketHandlers.Effect).

Definition Result : Type := t * list Effect * JS.Completion unit.

(** The listener of [connection] registered in this file: it runs
    before the one of the quiz handlers. *)
Definition trackConnection (s : t) (socketId : string) : JS.IO (t * list Effect) :=
  (today <- JS.Date_now ;;
   let connectionTime := JS.isoOf today in
   now <- JS.Date_now ;;
   (* Track connected user *)
   let users :=
     JS.Map.set (connectedUsers s) socketId
       {| User.id := socketId; User.connectedAt := now;
          User.connectedAtISO := connectionTime |} in
   (* Broadcast current user count to all clients *)
   JS.ret ({| connectedUsers := users; quiz := quiz s |},
           [UserCount (JS.Map.size users)]))%io.

(** The listener of [disconnect] registered in this file. *)
Definition trackDisconnection (s : t) (socketId : string) : t * list Effect :=
  (* Remove from tracking *)
  let users := JS.Map.delete (connectedUsers s) socketId in
  (* Broadcast updated user count *)
  ({| connectedUsers := users; quiz := quiz s |}, [UserCount (JS.Map.size users)]).

(** The quiz handlers' part of an event. *)
Definition quizHandles (s : t) (effects : list Effect) (e : socketHandlers.Inbound)
  : JS.IO Result :=
  (' (h, quizEffects, c) <- socketHandlers.handle (quiz s) e ;;
   JS.ret ({| connectedUsers := connectedUsers s; quiz := h |},
           (effects ++ map Quiz quizEffects)%list, c))%io.

Definition on (s : t) (e : socketHandlers.Inbound) : JS.IO Result :=
  match e with
  | socketHandlers.connection socketId =>
      (' (s1, effects) <- trackConnection s socketId ;;
       quizHandles s1 effects e)%io
  | socketHandlers.disconnect socketId =>
      let '(s1, effects) := trackDisconnection s socketId in
      quizHandles s1 effects e
  | _ => quizHandles s [] e
  end.

(** The module is loaded: nobody is connected, and [setupSocketHandlers]
    generates the first question. *)
Definition start : JS.IO Result :=
  (' (h, quizEffects, c) <- socketHandlers.setupSocketHandlers ;;
   JS.ret ({| connectedUsers := JS.Map.empty; quiz := h |}, map Quiz quizEffects, c))%io.

(** The events of a run, handled one after the other. *)
Fixpoint serve (s : t) (events : list socketHandlers.Inbound) : JS.IO Result :=
  match events with
  | [] => JS.ret (s, [], JS.Returns tt)
  | e :: events' =>
      (' (s1, effects1, c1) <- on s e ;;
       match c1 with
       | JS.Throws err => JS.ret (s1, effects1, JS.Throws err)
       | JS.Returns _ =>
           ' (s2, effects2, c2) <- serve s1 events' ;;
           JS.ret (s2, (effects1 ++ effects2)%list, c2)
       end)%io
  end.

End server.

(* ================================================================== *)
(** * Sample worlds and inputs *)
(* ================================================================== *)

Module Samples.

(** A world whose clock starts at [t0] and advances one millisecond per
    reading, and whose random source repeats [r]. *)
Definition world (t0 : Z) (r : Q) : JS.World :=
  {| JS.randomOutcomes := fun _ => r;
     JS.randomCalls := 0;
     JS.clockReadings := fun n => t0 + Z.of_nat n;
     JS.clockReads := 0;
     JS.warnings := [] |}.

Definition noon : JS.World := world 1700000000000 (1 # 4).

(** A world in which two questions are generated within one millisecond
    and the two draws for the identifiers' suffixes come out the same
    (the fourth and the eighth draw), the other draws differing. *)
Definition sameMillisecond : JS.World :=
  {| JS.randomOutcomes :=
       fun n => nth n [1 # 10; 2 # 10; 1 # 10; 1 # 2;
                       7 # 10; 3 # 10; 1 # 2; 1 # 2] 0%Q;
     JS.randomCalls := 0;
     JS.clockReadings := fun _ => 1700000000000;
     JS.clockReads := 0;
     JS.warnings := [] |}.

End Samples.

(* ================================================================== *)
(** * Notions the properties are stated with *)
(* ================================================================== *)

(** The transitions of a history whose pair is not in the table. *)
Definition illegal (h : list StateMachineLogger.Transition.t)
  : list StateMachineLogger.Transition.t :=
  filter (fun tr => negb (StateMachineLogger.allowed tr)) h.

(** A history is linked when each record starts where the one before it
    ended; [linked s h] is the state the last record leads to. *)
Fixpoint linked (s : StateMachineLogger.State) (h : list StateMachineLogger.Transition.t)
  : option StateMachineLogger.State :=
  match h with
  | [] => Some s
  | tr :: h' =>
      if StateMachineLogger.State_eqb (StateMachineLogger.Transition.from tr) s
      then linked (StateMachineLogger.Transition.to tr) h' else None
  end.

(** ** Order of a list by keys *)

Section SortNotions.
Context {A : Type} (key : A -> Z).

(** No element is followed by one with a smaller key. *)
Fixpoint ascending (l : list A) : Prop :=
  match l with
  | [] => True
  | x :: l' =>
      match l' with [] => True | y :: _ => key x <= key y end /\ ascending l'
  end.

(** [x] goes behind the last element whose key is not larger: where the
    stable sort puts an element that came last. *)
Fixpoint insertLast (x : A) (l : list A) : list A :=
  match l with
  | [] => [x]
  | y :: l' => if key x <? key y then x :: l else y :: insertLast x l'
  end.
End SortNotions.

(** ** Rounds of the state manager *)

(** The operations that leave the round in place: every one but
    [setQuestion] and [reset], which start the state over. *)
Definition withinRound (op : StateManager.Op) : bool :=
  match op with
  | StateManager.SetQuestion _ | StateManager.Reset => false
  | _ => true
  end.

(** The connections elected in a run: those whose [attemptWin] call
    evaluated to [true]. *)
Fixpoint elected (ops : list StateManager.Op) (outcomes : list StateManager.Outcome)
  : list string :=
  match ops, outcomes with
  | StateManager.AttemptWin socketId _ :: ops', StateManager.Won true :: outcomes' =>
      socketId :: elected ops' outcomes'
  | _ :: ops', _ :: outcomes' => elected ops' outcomes'
  | _, _ => []
  end.

(** Every [attemptWin] of the run is called while a question is current,
    the way the submission handler calls it. *)
Fixpoint winsAskedOnQuestions (s : StateManager.t) (ops : list StateManager.Op) : bool :=
  match ops with
  | [] => true
  | op :: ops' =>
      match op, StateManager.currentQuestion s with
      | StateManager.AttemptWin _ _, None => false
      | _, _ => winsAskedOnQuestions (fst (StateManager.step s op)) ops'
      end
  end.

(** Without a question there is no submission: the half of I4 that
    holds after every run. *)
Definition nothingRecorded (s : StateManager.t) : Prop :=
  StateManager.currentQuestion s = None ->
  StateManager.submissions s = JS.Map.empty /\ StateManager.submissionOrder s = [].

(** Without a question there is no lock and no winner: the half that
    rests on how [attemptWin] is called. *)
Definition nobodyElected (s : StateManager.t) : Prop :=
  StateManager.currentQuestion s = None ->
  StateManager.isLocked s = false /\ StateManager.currentWinner s = None.

(** I2 with the order list: the keys of the mapping are pairwise
    different, and the order list holds them, one entry each, with the
    timestamp stored under the key. *)
Definition inStep (s : StateManager.t) : Prop :=
  NoDup (map fst (StateManager.submissions s))
  /\ Permutation (map StateManager.Entry.socketId (StateManager.submissionOrder s))
                 (map fst (StateManager.submissions s))
  /\ Forall (fun e => exists sub,
               JS.Map.get (StateManager.submissions s) (StateManager.Entry.socketId e)
               = Some sub
               /\ StateManager.Submission.timestamp sub = StateManager.Entry.timestamp e)
            (StateManager.submissionOrder s).

(** A question to run the examples on. *)
Definition sevenPlusEight : QuestionGenerator.Question.t :=
  {| QuestionGenerator.Question.id := "q_1700000000000_i";
     QuestionGenerator.Question.question := "7 + 8";
     QuestionGenerator.Question.answer := 15;
     QuestionGenerator.Question.operands := (7, 8);
     QuestionGenerator.Question.operator := QuestionGenerator.Plus;
     QuestionGenerator.Question.operatorName := "addition";
     QuestionGenerator.Question.difficulty := QuestionGenerator.medium;
     QuestionGenerator.Question.generatedAt := 1700000000000;
     QuestionGenerator.Question.generatedAtISO := "2023-11-14T22:13:20.000Z" |}.

(** The accessors whose body calls [submissionOrder.sort]. *)
Definition sorts (a : StateManager.Accessor) : bool :=
  match a with
  | StateManager.GetSubmissionsInOrder
  | StateManager.GetGracePeriodSubmissions
  | StateManager.GetStats => true
  | _ => false
  end.

(** ** What a handler leaves behind *)

Definition hubOf (r : socketHandlers.Result * JS.World) : socketHandlers.t :=
  fst (fst (fst r)).

Definition effectsOf (r : socketHandlers.Result * JS.World) : list socketHandlers.Effect :=
  snd (fst (fst r)).

Definition completionOf (r : socketHandlers.Result * JS.World) : JS.Completion unit :=
  snd (fst r).


(** ** Strings of whitespace *)


(** ** Winners announced by the server *)

(** The events with which the server starts a new question. *)
Definition startsQuestion (e : socketHandlers.Inbound) : bool :=
  match e with
  | socketHandlers.timeout socketHandlers.NextQuestion | socketHandlers.force _ => true
  | _ => false
  end.

(** The winners of the [winner-declared] broadcasts among the effects. *)
Fixpoint declaredWinners (effects : list socketHandlers.Effect) : list string :=
  match effects with
  | [] => []
  | socketHandlers.IoEmit (socketHandlers.winner_declared winnerId _ _ _ _ _ _) :: rest =>
      winnerId :: declaredWinners rest
  | _ :: rest => declaredWinners rest
  end.

(** The connections that were sent [you-won]. *)
Fixpoint congratulated (effects : list socketHandlers.Effect) : list string :=
  match effects with
  | [] => []
  | socketHandlers.SocketEmit socketId (socketHandlers.you_won _ _ _ _) :: rest =>
      socketId :: congratulated rest
  | _ :: rest => congratulated rest
  end.

(** A round that elects nobody any more: it has its winner, or the
    question is gone. *)
Definition closed (sm : StateManager.t) : bool :=
  StateManager.isLocked sm
  || match StateManager.currentQuestion sm with Some _ => false | None => true end.

(** ** Order of arrival and order of time *)

(** [x] stands in the list with [y] somewhere behind it. *)
Fixpoint precedes {A : Type} (x y : A) (l : list A) : Prop :=
  match l with
  | [] => False
  | z :: l' => (z = x /\ In y l') \/ precedes x y l'
  end.

(** The timestamp of an entry of the submission mapping. *)
Definition arrivalTime (p : string * StateManager.Submission.t) : Z :=
  StateManager.Submission.timestamp (snd p).

(** The element [getSubmissionsInOrder] returns for a stored submission. *)
Definition orderedOf (p : string * StateManager.Submission.t) : StateManager.Ordered.t :=
  {| StateManager.Ordered.socketId := fst p;
     StateManager.Ordered.timestamp := StateManager.Submission.timestamp (snd p);
     StateManager.Ordered.answer := Some (StateManager.Submission.answer (snd p));
     StateManager.Ordered.timestampISO :=
       Some (StateManager.Submission.timestampISO (snd p)) |}.

(** The entry of the order list that goes with a stored submission. *)
Definition entryOf (p : string * StateManager.Submission.t) : StateManager.Entry.t :=
  {| StateManager.Entry.socketId := fst p;
     StateManager.Entry.timestamp := StateManager.Submission.timestamp (snd p) |}.

(** The order list, sorted, is the mapping's entries sorted by their
    timestamps: both hold the submissions in the order of arrival until an
    accessor sorts the list. *)
Definition orderFollowsArrival (s : StateManager.t) : Prop :=
  JS.sort StateManager.Entry.timestamp (StateManager.submissionOrder s)
  = map entryOf (JS.sort arrivalTime (StateManager.submissions s)).

(** ** Questions as the generator makes them *)

(** The arithmetic of an operator symbol. *)
Definition apply (s : QuestionGenerator.Symbol) : Z -> Z -> Z :=
  match s with
  | QuestionGenerator.Plus => Z.add
  | QuestionGenerator.Minus => Z.sub
  | QuestionGenerator.Times => Z.mul
  end.

(** The name the operator table gives a symbol. *)
Definition nameOf (s : QuestionGenerator.Symbol) : string :=
  match s with
  | QuestionGenerator.Plus => "addition"
  | QuestionGenerator.Minus => "subtraction"
  | QuestionGenerator.Times => "multiplication"
  end.

(** A question is well formed for a difficulty: its operator is one the
    difficulty allows, its operands lie in the difficulty's range (and do
    not exceed 20 in a product, nor is the first the smaller in a
    difference), and its text, answer and operator name go with them. *)
Definition wellFormed (d : QuestionGenerator.Difficulty) (q : QuestionGenerator.Question.t)
  : Prop :=
  let config := QuestionGenerator.difficultyLevels d in
  let a := fst (QuestionGenerator.Question.operands q) in
  let b := snd (QuestionGenerator.Question.operands q) in
  let op := QuestionGenerator.Question.operator q in
  QuestionGenerator.Question.difficulty q = d
  /\ In op (QuestionGenerator.configOperators config)
  /\ QuestionGenerator.minNumber config <= a <= QuestionGenerator.maxNumber config
  /\ QuestionGenerator.minNumber config <= b <= QuestionGenerator.maxNumber config
  /\ (op = QuestionGenerator.Times -> a <= 20 /\ b <= 20)
  /\ (op = QuestionGenerator.Minus -> b <= a)
  /\ QuestionGenerator.Question.answer q = apply op a b
  /\ QuestionGenerator.Question.question q
     = JS.decimal a ++ " " ++ QuestionGenerator.symbolText op ++ " " ++ JS.decimal b
  /\ QuestionGenerator.Question.operatorName q = nameOf op.

(** ** Statistics of the lifecycle machine *)

(** The sum of the counters of an object. *)
Definition totalOf (counters : JS.Map.t Z) : Z :=
  fold_right Z.add 0 (map snd counters).

(** The records of a history carry the numbers 1, 2, 3, ... *)
Definition numbered (h : list StateMachineLogger.Transition.t) : Prop :=
  map StateMachineLogger.Transition.transitionNumber h
  = map Z.of_nat (seq 1 (List.length h)).

(** The time a history shows the machine in state [s]: from each record
    that leads to [s] to the record after it. *)
Fixpoint timeIn (s : StateMachineLogger.State) (h : list StateMachineLogger.Transition.t)
  : Z :=
  match h with
  | current :: ((next :: _) as rest) =>
      (if StateMachineLogger.State_eqb (StateMachineLogger.Transition.to current) s
       then StateMachineLogger.Transition.timestamp next
            - StateMachineLogger.Transition.timestamp current
       else 0)
      + timeIn s rest
  | _ => 0
  end.

(** How many stays in [s] a history shows complete: the records that lead
    to [s] and are followed by another. *)
Fixpoint staysIn (s : StateMachineLogger.State) (h : list StateMachineLogger.Transition.t)
  : Z :=
  match h with
  | current :: ((_ :: _) as rest) =>
      (if StateMachineLogger.State_eqb (StateMachineLogger.Transition.to current) s
       then 1 else 0)
      + staysIn s rest
  | _ => 0
  end.

(** ** What the server sends, and to whom *)

(** The connection an event comes from, if it comes from one. *)
Definition senderOf (e : socketHandlers.Inbound) : option string :=
  match e with
  | socketHandlers.connection socketId
  | socketHandlers.submit_answer socketId _
  | socketHandlers.request_question socketId
  | socketHandlers.disconnect socketId => Some socketId
  | _ => None
  end.

(** The messages meant for everybody. *)
Definition broadcast (m : socketHandlers.Message) : bool :=
  match m with
  | socketHandlers.winner_declared _ _ _ _ _ _ _
  | socketHandlers.new_question _ _ _ _ => true
  | _ => false
  end.

(** An effect of handling [e] is well addressed: a message to one
    connection is not one meant for everybody and goes to the sender of
    [e]; a message to all is one meant for everybody. *)
Definition wellAddressed (e : socketHandlers.Inbound) (eff : socketHandlers.Effect) : bool :=
  match eff with
  | socketHandlers.SocketEmit socketId m =>
      negb (broadcast m)
      && match senderOf e with
         | Some sender => String.eqb sender socketId
         | None => false
         end
  | socketHandlers.IoEmit m => broadcast m
  | _ => true
  end.

(** The events that only ask or announce. *)
Definition onlyAsks (e : socketHandlers.Inbound) : bool :=
  match e with
  | socketHandlers.connection _
  | socketHandlers.request_question _
  | socketHandlers.disconnect _ => true
  | _ => false
  end.

(** The reply to a correct answer that did not win. *)
Definition tooLate (eff : socketHandlers.Effect) : bool :=
  match eff with
  | socketHandlers.SocketEmit _ (socketHandlers.submission_result true _ _ _) => true
  | _ => false
  end.

(** The replies that tell a connection there is no question. *)
Definition noQuestionReply (eff : socketHandlers.Effect) : bool :=
  match eff with
  | socketHandlers.SocketEmit _ (socketHandlers.waiting_for_question _ _) => true
  | socketHandlers.SocketEmit _ (socketHandlers.submission_rejected reason _ _) =>
      String.eqb reason "no-question"
  | _ => false
  end.

(** The control that resets the quiz. *)
Definition resets (e : socketHandlers.Inbound) : bool :=
  match e with socketHandlers.resetting => true | _ => false end.

(** ** Timers *)

(** A timer armed with [setTimeout] and not yet fired or cleared. *)
Module Timer.
Record t : Type := {
  handle : Z;
  callback : socketHandlers.Callback;
  delay : Z
}.
End Timer.

Definition Callback_eqb (a b : socketHandlers.Callback) : bool :=
  match a, b with
  | socketHandlers.ToTransitioning, socketHandlers.ToTransitioning
  | socketHandlers.NextQuestion, socketHandlers.NextQuestion => true
  | _, _ => false
  end.

(** The pending timers stand in the order they are due.  A timer that is
    armed goes behind those due no later; for timers armed by the same
    call these are the ones whose delay is not larger. *)
Fixpoint enqueue (t : Timer.t) (pending : list Timer.t) : list Timer.t :=
  match pending with
  | [] => [t]
  | p :: rest =>
      if Timer.delay t <? Timer.delay p then t :: pending else p :: enqueue t rest
  end.

(** What an effect does to the pending timers. *)
Definition schedule (pending : list Timer.t) (eff : socketHandlers.Effect)
  : list Timer.t :=
  match eff with
  | socketHandlers.SetTimeout handle callback delay =>
      enqueue {| Timer.handle := handle; Timer.callback := callback;
                 Timer.delay := delay |} pending
  | socketHandlers.ClearTimeout (Some handle) =>
      filter (fun t => negb (Timer.handle t =? handle)) pending
  | _ => pending
  end.

Definition scheduled (pending : list Timer.t) (effects : list socketHandlers.Effect)
  : list Timer.t :=
  fold_left schedule effects pending.

(** The events of a run of the server as it is deployed: what connections
    send, in any order, and between them the timers, each firing when it
    is the one due first.  The exported controls, which nothing in the
    server calls, stay out. *)
Fixpoint timely (h : socketHandlers.t) (pending : list Timer.t)
    (events : list socketHandlers.Inbound) (w : JS.World) : bool :=
  match events with
  | [] => true
  | e :: events' =>
      let r := socketHandlers.handle h e w in
      match e with
      | socketHandlers.timeout callback =>
          match pending with
          | t :: pending' =>
              Callback_eqb (Timer.callback t) callback
              && timely (hubOf r) (scheduled pending' (effectsOf r)) events' (snd r)
          | [] => false
          end
      | socketHandlers.force _ | socketHandlers.resetting => false
      | _ => timely (hubOf r) (scheduled pending (effectsOf r)) events' (snd r)
      end
  end.

(** The lifecycle machine, the lock of the round and the pending timers
    go together: ACTIVE with the round open and no timer pending; LOCKED
    with the round locked and both timers pending; TRANSITIONING with the
    round locked and the timer of the next question pending. *)
Definition inPhase (h : socketHandlers.t) (pending : list Timer.t) : Prop :=
  let state := StateMachineLogger.currentState (socketHandlers.stateMachine h) in
  let locked := StateManager.isLocked (socketHandlers.stateManager h) in
  (state = StateMachineLogger.ACTIVE /\ locked = false /\ pending = [])
  \/ (state = StateMachineLogger.LOCKED /\ locked = true
      /\ map Timer.callback pending
         = [socketHandlers.ToTransitioning; socketHandlers.NextQuestion])
  \/ (state = StateMachineLogger.TRANSITIONING /\ locked = true
      /\ map Timer.callback pending = [socketHandlers.NextQuestion]).

(** ** Who is connected *)





(** ** The winner of a round *)

(** A round is sound: if it has a winner it is locked, and the winner's
    stored answer is right for the current question; without a winner it
    is open. *)
Definition winnerIsRight (sm : StateManager.t) : Prop :=
  match StateManager.getWinner sm with
  | Some winner =>
      StateManager.isQuestionLocked sm = true
      /\ exists q sub,
           StateManager.getCurrentQuestion sm = Some q
           /\ StateManager.getSubmission sm winner = Some sub
           /\ QuestionGenerator.validate (StateManager.Submission.answer sub)
                (QuestionGenerator.Question.answer q) = true
  | None => StateManager.isQuestionLocked sm = false
  end.

(** The names of the difficulty levels. *)
Definition difficultyName (d : QuestionGenerator.Difficulty) : string :=
  match d with
  | QuestionGenerator.easy => "easy"
  | QuestionGenerator.medium => "medium"
  | QuestionGenerator.hard => "hard"
  end.

(* ================================================================== *)
(** * Properties *)
(* ================================================================== *)

(* ================================================================== *)
(** * The lifecycle machine: transitions and their legality *)
(* ================================================================== *)

Section Lifecycle.
Import StateMachineLogger.

Lemma State_eqb_refl s : State_eqb s s = true.
Proof. destruct s; reflexivity. Qed.

Lemma linked_app s h1 h2 s1 :
  linked s h1 = Some s1 -> linked s (h1 ++ h2) = linked s1 h2.
Proof.
  revert s; induction h1 as [|tr h1 IH]; intros s H; simpl in *.
  - now inversion H.
  - destruct (State_eqb (Transition.from tr) s); [auto | discriminate].
Qed.

(** What one call of [transition] does, whatever the pair. *)
Lemma transition_effect m newState context w :
  exists tr,
    fst (transition m newState context w)
    = {| currentState := newState;
         stateHistory := stateHistory m ++ [tr];
         transitionCount := transitionCount m + 1 |}
    /\ Transition.from tr = currentState m
    /\ Transition.to tr = newState
    /\ Transition.transitionNumber tr = transitionCount m + 1
    /\ Transition.context tr = context
    /\ JS.warnings (snd (transition m newState context w))
       = (JS.warnings w
          ++ (if allowed tr then []
              else [invalidTransitionMessage (currentState m) newState]))%list.
Proof.
  unfold transition, allowed, JS.bind.
  destruct (includes (validTransitions (currentState m)) newState) eqn:E;
    simpl; eexists; (split; [reflexivity|]); simpl; rewrite E;
    repeat split; simpl; auto using app_nil_r.
Qed.

Lemma step_effect m op w :
  exists h ws,
    stateHistory (fst (step m op w)) = (stateHistory m ++ h)%list
    /\ JS.warnings (snd (step m op w)) = (JS.warnings w ++ ws)%list
    /\ linked (currentState m) h = Some (currentState (fst (step m op w)))
    /\ List.length ws = List.length (illegal h)
    /\ Forall (fun tr => allowed tr = true
                 \/ In (invalidTransitionMessage (Transition.from tr) (Transition.to tr)) ws) h
    /\ transitionCount (fst (step m op w))
       = transitionCount m + Z.of_nat (List.length h).
Proof.
  assert (T : forall s c, exists h ws,
    stateHistory (fst (transition m s c w)) = (stateHistory m ++ h)%list
    /\ JS.warnings (snd (transition m s c w)) = (JS.warnings w ++ ws)%list
    /\ linked (currentState m) h = Some (currentState (fst (transition m s c w)))
    /\ List.length ws = List.length (illegal h)
    /\ Forall (fun tr => allowed tr = true
                 \/ In (invalidTransitionMessage (Transition.from tr) (Transition.to tr)) ws) h
    /\ transitionCount (fst (transition m s c w))
       = transitionCount m + Z.of_nat (List.length h)).
  { intros s c.
    destruct (transition_effect m s c w) as (tr & E & Hf & Ht & _ & _ & Hw).
    exists [tr]. eexists. rewrite E, Hw; simpl.
    split; [reflexivity|]. split; [reflexivity|].
    rewrite Hf, Ht, State_eqb_refl.
    split; [reflexivity|].
    unfold illegal; simpl.
    destruct (allowed tr) eqn:A; simpl; (split; [reflexivity|]);
      (split; [|reflexivity]); constructor; auto.
    right; left. now rewrite Hf, Ht. }
  destruct op; simpl; try apply T;
    exists [], []; simpl; rewrite !app_nil_r; repeat split; auto; lia.
Qed.

Lemma run_effect ops : forall m w,
  exists h ws,
    stateHistory (fst (run m ops w)) = (stateHistory m ++ h)%list
    /\ JS.warnings (snd (run m ops w)) = (JS.warnings w ++ ws)%list
    /\ linked (currentState m) h = Some (currentState (fst (run m ops w)))
    /\ List.length ws = List.length (illegal h)
    /\ Forall (fun tr => allowed tr = true
                 \/ In (invalidTransitionMessage (Transition.from tr) (Transition.to tr)) ws) h
    /\ transitionCount (fst (run m ops w))
       = transitionCount m + Z.of_nat (List.length h).
Proof.
  induction ops as [|op ops IH]; intros m w; simpl.
  - exists [], []; simpl; rewrite !app_nil_r; repeat split; auto; lia.
  - unfold JS.bind.
    destruct (step_effect m op w) as (h1 & ws1 & H1 & W1 & L1 & N1 & F1 & C1).
    destruct (step m op w) as [m1 w1]; simpl in *.
    destruct (IH m1 w1) as (h2 & ws2 & H2 & W2 & L2 & N2 & F2 & C2).
    exists (h1 ++ h2)%list, (ws1 ++ ws2)%list.
    rewrite H2, H1, W2, W1, !app_assoc.
    split; [reflexivity|]. split; [reflexivity|].
    split; [rewrite (linked_app _ _ _ _ L1); exact L2|].
    split; [unfold illegal in *; rewrite filter_app, !length_app; lia|].
    split.
    + apply Forall_app; split;
        (eapply Forall_impl; [|eassumption]); simpl;
        intros tr [A|A]; auto; right; apply in_or_app; auto.
    + rewrite C2, C1, length_app; lia.
Qed.

End Lifecycle.

(** C1, as the code has it.  [transition] always takes the machine to the
    requested state and appends the record of the move, in the table or
    not; a pair outside the table only adds a warning.  So after any run of
    operations on a new machine the history is linked from IDLE to the
    current state, the records outside the table are as many as the
    warnings written, and each record is in the table or was warned about. *)
Theorem transition_is_performed_and_warned :
  forall (ops : list StateMachineLogger.Op) (w : JS.World),
    let m := fst (StateMachineLogger.run StateMachineLogger.constructor ops w) in
    let w' := snd (StateMachineLogger.run StateMachineLogger.constructor ops w) in
    (forall m0 newState context w0,
        StateMachineLogger.currentState
          (fst (StateMachineLogger.transition m0 newState context w0)) = newState)
    /\ linked StateMachineLogger.IDLE (StateMachineLogger.stateHistory m)
       = Some (StateMachineLogger.currentState m)
    /\ StateMachineLogger.transitionCount m
       = Z.of_nat (List.length (StateMachineLogger.stateHistory m))
    /\ exists ws,
         JS.warnings w' = (JS.warnings w ++ ws)%list
         /\ List.length ws = List.length (illegal (StateMachineLogger.stateHistory m))
         /\ Forall (fun tr =>
                      StateMachineLogger.allowed tr = true
                      \/ In (StateMachineLogger.invalidTransitionMessage
                               (StateMachineLogger.Transition.from tr)
                               (StateMachineLogger.Transition.to tr)) ws)
                   (StateMachineLogger.stateHistory m).
Proof.
  intros ops w m w'. split.
  - intros m0 s c w0.
    destruct (transition_effect m0 s c w0) as (tr & E & _). now rewrite E.
  - destruct (run_effect ops StateMachineLogger.constructor w)
      as (h & ws & H & W & L & N & F & C).
    simpl in H, L, C. subst m w'. rewrite H.
    repeat split; auto. exists ws. auto.
Qed.

(** C1, as the specification states it, fails: from IDLE the move to LOCKED
    is not in the table, yet the machine ends in LOCKED and the history
    holds the record (IDLE, LOCKED). *)
Lemma invalid_transition_changes_state :
  let m := fst (StateMachineLogger.transition StateMachineLogger.constructor
                  StateMachineLogger.LOCKED [] Samples.noon) in
  StateMachineLogger.includes
    (StateMachineLogger.validTransitions
       (StateMachineLogger.currentState StateMachineLogger.constructor))
    StateMachineLogger.LOCKED = false
  /\ StateMachineLogger.currentState m = StateMachineLogger.LOCKED
  /\ StateMachineLogger.currentState m
     <> StateMachineLogger.currentState StateMachineLogger.constructor
  /\ map (fun tr => (StateMachineLogger.Transition.from tr,
                     StateMachineLogger.Transition.to tr,
                     StateMachineLogger.allowed tr))
         (StateMachineLogger.stateHistory m)
     = [(StateMachineLogger.IDLE, StateMachineLogger.LOCKED, false)].
Proof.
  repeat split; try reflexivity. discriminate.
Qed.

(* ================================================================== *)
(** * Facts about the runtime: maps and the stable sort *)
(* ================================================================== *)

Section MapFacts.
Context {V : Type}.
Implicit Types (m : JS.Map.t V) (k : string) (v : V).

Lemma Map_get_set_same m k v : JS.Map.get (JS.Map.set m k v) k = Some v.
Proof.
  induction m as [|[k' v'] m IH]; simpl.
  - now rewrite String.eqb_refl.
  - destruct (String.eqb k' k) eqn:E; simpl; rewrite E; auto.
Qed.

Lemma Map_get_set_other m k v k' :
  k' <> k -> JS.Map.get (JS.Map.set m k v) k' = JS.Map.get m k'.
Proof.
  intros N. induction m as [|[k0 v0] m IH]; simpl.
  - destruct (String.eqb k k') eqn:E; auto.
    apply String.eqb_eq in E. congruence.
  - destruct (String.eqb k0 k) eqn:E; simpl.
    + apply String.eqb_eq in E; subst k0.
      destruct (String.eqb k k') eqn:E'; auto.
      apply String.eqb_eq in E'. congruence.
    + now rewrite IH.
Qed.

Lemma Map_has_set m k v k' :
  JS.Map.has (JS.Map.set m k v) k' = String.eqb k k' || JS.Map.has m k'.
Proof.
  unfold JS.Map.has. destruct (String.eqb k k') eqn:E; simpl.
  - apply String.eqb_eq in E; subst. now rewrite Map_get_set_same.
  - rewrite Map_get_set_other; auto.
    intros ->. now rewrite String.eqb_refl in E.
Qed.

(** A key that was absent is appended: the map grows by one entry. *)
Lemma Map_set_absent m k v :
  JS.Map.has m k = false -> JS.Map.set m k v = (m ++ [(k, v)])%list.
Proof.
  unfold JS.Map.has. induction m as [|[k' v'] m IH]; simpl; auto.
  destruct (String.eqb k' k); [discriminate|].
  intros H. now rewrite IH.
Qed.
End MapFacts.

Section SortFacts.
Context {A : Type} (key : A -> Z).
Local Abbreviation insert := (JS.insert key).
Local Abbreviation sort := (JS.sort key).
Local Abbreviation ascending := (ascending key).
Local Abbreviation insertLast := (insertLast key).

Lemma insert_ascending x l : ascending l -> ascending (insert x l).
Proof.
  induction l as [|y l IH]; simpl; auto.
  intros [Hy Hl]. destruct (key x <=? key y) eqn:E.
  - simpl. split; [lia|]. auto.
  - specialize (IH Hl). simpl. split; auto.
    destruct l as [|z l]; simpl in *.
    + lia.
    + destruct (key x <=? key z); lia.
Qed.

Lemma sort_ascending l : ascending (sort l).
Proof. induction l; simpl; auto using insert_ascending. Qed.

Lemma sort_of_ascending l : ascending l -> sort l = l.
Proof.
  induction l as [|x l IH]; simpl; auto.
  intros [Hx Hl]. rewrite IH by assumption.
  destruct l as [|y l]; simpl; auto.
  destruct (key x <=? key y) eqn:E; auto. lia.
Qed.

Lemma sort_idempotent l : sort (sort l) = sort l.
Proof. apply sort_of_ascending, sort_ascending. Qed.

Lemma insert_insertLast a x l :
  insert a (insertLast x l) = insertLast x (insert a l).
Proof.
  induction l as [|y l IH]; simpl.
  - destruct (key a <=? key x) eqn:E1, (key x <? key a) eqn:E2; simpl; auto; lia.
  - destruct (key x <? key y) eqn:E1, (key a <=? key y) eqn:E2; simpl;
      rewrite ?E1, ?E2; simpl.
    + destruct (key a <=? key x) eqn:E3, (key x <? key a) eqn:E4; simpl;
        rewrite ?E1; auto; lia.
    + destruct (key a <=? key x) eqn:E3; simpl; rewrite ?E2; auto; lia.
    + destruct (key x <? key a) eqn:E4; simpl; rewrite ?E1; auto; lia.
    + now rewrite IH.
Qed.

Lemma sort_snoc l x : sort (l ++ [x]) = insertLast x (sort l).
Proof.
  induction l as [|a l IH]; simpl; auto.
  now rewrite IH, insert_insertLast.
Qed.

(** Sorting first changes nothing for what is appended and sorted later. *)
Lemma sort_sort_snoc l x : sort (sort l ++ [x]) = sort (l ++ [x]).
Proof. now rewrite !sort_snoc, sort_idempotent. Qed.

Lemma insert_permutation x l : Permutation (x :: l) (insert x l).
Proof.
  induction l as [|y l IH]; simpl; auto.
  destruct (key x <=? key y); auto.
  rewrite perm_swap. now apply perm_skip.
Qed.

Lemma sort_permutation l : Permutation l (sort l).
Proof.
  induction l as [|x l IH]; simpl; auto.
  rewrite <- insert_permutation. now apply perm_skip.
Qed.

Lemma sort_nil l : sort l = [] -> l = [].
Proof.
  intros H. apply Permutation_nil. rewrite <- H. symmetry. apply sort_permutation.
Qed.
End SortFacts.

(* ================================================================== *)
(** * The state manager *)
(* ================================================================== *)

Section RoundState.
Import StateManager.

Lemma run_app s ops1 ops2 :
  run s (ops1 ++ ops2)
  = (fst (run (fst (run s ops1)) ops2),
     (snd (run s ops1) ++ snd (run (fst (run s ops1)) ops2))%list).
Proof.
  revert s; induction ops1 as [|op ops1 IH]; intros s; simpl.
  - now destruct (run s ops2).
  - destruct (step s op) as [s1 o]. rewrite IH.
    destruct (run s1 ops1) as [s2 os]; simpl.
    now destruct (run s2 ops2).
Qed.

(** The accessors touch nothing but the order of [submissionOrder]. *)
Lemma read_frame s a :
  fst (read s a) = s \/ fst (read s a) = sortSubmissionOrder s.
Proof.
  destruct a; simpl; auto.
  - unfold getGracePeriodSubmissions. destruct (submissionOrder s); simpl; auto.
  - unfold getStats, getGracePeriodSubmissions.
    destruct (submissionOrder s); simpl; auto.
Qed.

Lemma read_fields s a :
  currentQuestion (fst (read s a)) = currentQuestion s
  /\ currentWinner (fst (read s a)) = currentWinner s
  /\ isLocked (fst (read s a)) = isLocked s
  /\ submissions (fst (read s a)) = submissions s
  /\ GRACE_PERIOD_MS (fst (read s a)) = GRACE_PERIOD_MS s.
Proof. destruct (read_frame s a) as [-> | ->]; simpl; auto. Qed.

(** Once the round is locked, no operation within it opens it again or
    elects anybody. *)
Lemma locked_step s op :
  isLocked s = true -> withinRound op = true ->
  isLocked (fst (step s op)) = true
  /\ currentWinner (fst (step s op)) = currentWinner s
  /\ snd (step s op) <> Won true.
Proof.
  intros L W. destruct op; simpl in *; try discriminate.
  - unfold recordSubmission. rewrite L. simpl. repeat split; auto; discriminate.
  - unfold attemptWin. rewrite L. simpl. repeat split; auto; discriminate.
  - unfold setGracePeriod. destruct (milliseconds <? 0); simpl;
      repeat split; auto; discriminate.
  - destruct (read_fields s a) as (_ & Hw & Hl & _).
    rewrite Hl, Hw. repeat split; auto.
    destruct a; simpl; try discriminate.
    + destruct (getGracePeriodSubmissions s); discriminate.
    + destruct (getStats s); discriminate.
Qed.

Lemma locked_run ops : forall s,
  isLocked s = true -> forallb withinRound ops = true ->
  elected ops (snd (run s ops)) = []
  /\ isLocked (fst (run s ops)) = true
  /\ currentWinner (fst (run s ops)) = currentWinner s.
Proof.
  induction ops as [|op ops IH]; intros s L W; simpl in *; auto.
  apply andb_prop in W as [W1 W2].
  destruct (locked_step s op L W1) as (L1 & Hw & N).
  destruct (step s op) as [s1 o] eqn:E; simpl in *.
  destruct (IH s1 L1 W2) as (E1 & L2 & Hw2).
  destruct (run s1 ops) as [s2 os]; simpl in *.
  rewrite Hw2, Hw. repeat split; auto.
  destruct op; auto. destruct o; auto. destruct b; auto. congruence.
Qed.

Lemma attemptWin_cases s socketId isCorrect :
  (isLocked s = true -> attemptWin s socketId isCorrect = (s, false))
  /\ (isCorrect = false -> attemptWin s socketId isCorrect = (s, false))
  /\ (isLocked s = false -> isCorrect = true ->
      attemptWin s socketId isCorrect
      = ({| currentQuestion := currentQuestion s;
            currentWinner := Some socketId;
            isLocked := true;
            submissions := submissions s;
            submissionOrder := submissionOrder s;
            GRACE_PERIOD_MS := GRACE_PERIOD_MS s |}, true)).
Proof.
  unfold attemptWin. repeat split.
  - now intros ->.
  - intros ->. now destruct (isLocked s).
  - now intros -> ->.
Qed.

Lemma elected_at_most_one ops : forall s,
  forallb withinRound ops = true ->
  (List.length (elected ops (snd (run s ops))) <= 1)%nat
  /\ (forall socketId, In socketId (elected ops (snd (run s ops))) ->
      currentWinner (fst (run s ops)) = Some socketId).
Proof.
  induction ops as [|op ops IH]; intros s W; simpl in *.
  - split; [lia | tauto].
  - apply andb_prop in W as [W1 W2].
    destruct (step s op) as [s1 o] eqn:E.
    assert (Won : (exists c, op = AttemptWin c true /\ o = Won true
                     /\ isLocked s1 = true /\ currentWinner s1 = Some c)
                  \/ (op, o) <> (op, Won true) \/ forall c b, op <> AttemptWin c b).
    { destruct op; try (right; right; discriminate).
      simpl in E. unfold attemptWin in E.
      destruct (isLocked s); [right; left; congruence|].
      destruct isCorrect; [|right; left; congruence].
      left. exists socketId. inversion E; subst; simpl; auto. }
    destruct Won as [(c & -> & -> & L1 & Hw) | N].
    + destruct (locked_run ops s1 L1 W2) as (E1 & _ & Hw2).
      destruct (run s1 ops) as [s2 os]; simpl in *.
      rewrite E1; simpl. split; [lia|].
      intros c' [<- | []]. congruence.
    + specialize (IH s1 W2).
      destruct (run s1 ops) as [s2 os]; simpl in *.
      destruct op; auto. destruct o; auto. destruct b; auto.
      destruct N as [N | N]; [congruence | now elim (N socketId isCorrect)].
Qed.

End RoundState.

(** C2, as the code has it.  [attemptWin] returns false on a locked round
    and on a wrong answer, and otherwise locks the round, makes the caller
    the winner and returns true.  Hence in a run of operations between two
    calls that start the round over ([setQuestion] or [reset]) at most one
    [attemptWin] call returns true, and the connection it elected is the
    round's winner. *)
Theorem attemptWin_single_winner :
  forall (s : StateManager.t) (socketId : string) (isCorrect : bool)
         (ops : list StateManager.Op),
    (StateManager.isLocked s = true ->
     StateManager.attemptWin s socketId isCorrect = (s, false))
    /\ (isCorrect = false ->
        StateManager.attemptWin s socketId isCorrect = (s, false))
    /\ (StateManager.isLocked s = false -> isCorrect = true ->
        snd (StateManager.attemptWin s socketId isCorrect) = true
        /\ StateManager.isLocked (fst (StateManager.attemptWin s socketId isCorrect)) = true
        /\ StateManager.currentWinner (fst (StateManager.attemptWin s socketId isCorrect))
           = Some socketId)
    /\ (forallb withinRound ops = true ->
        (List.length (elected ops (snd (StateManager.run s ops))) <= 1)%nat
        /\ forall c, In c (elected ops (snd (StateManager.run s ops))) ->
             StateManager.currentWinner (fst (StateManager.run s ops)) = Some c).
Proof.
  intros s socketId isCorrect ops.
  destruct (attemptWin_cases s socketId isCorrect) as (A & B & C).
  repeat split; auto.
  - rewrite C; auto.
  - rewrite C; auto.
  - rewrite C; auto.
  - now apply elected_at_most_one.
  - now apply elected_at_most_one.
Qed.

(** C2 at work: five connections record the right answer and all claim the
    win; the first is elected and nobody else. *)
Lemma attemptWin_single_winner_witness :
  let users := ["user-1"; "user-2"; "user-3"; "user-4"; "user-5"] in
  let ops := (map (fun u => StateManager.RecordSubmission u (JS.Str "15") 1700000000000) users
              ++ map (fun u => StateManager.AttemptWin u true) users)%list in
  let s := StateManager.setQuestion StateManager.constructor sevenPlusEight in
  elected ops (snd (StateManager.run s ops)) = ["user-1"]
  /\ (List.length (elected ops (snd (StateManager.run s ops))) <= 1)%nat.
Proof.
  intros users ops s. split; [reflexivity|].
  apply (attemptWin_single_winner s "user-1" true ops). reflexivity.
Defined.

(** C2, as the specification states it, fails: [reset] clears the lock as
    [setQuestion] does, so with a [reset] between them two [attemptWin]
    calls return true although no [setQuestion] separates them. *)
Lemma reset_reopens_the_round :
  let ops := [StateManager.RecordSubmission "user-1" (JS.Str "15") 1700000000000;
              StateManager.AttemptWin "user-1" true;
              StateManager.Reset;
              StateManager.AttemptWin "user-2" true] in
  let s := StateManager.setQuestion StateManager.constructor sevenPlusEight in
  Forall (fun op => forall q, op <> StateManager.SetQuestion q) ops
  /\ snd (StateManager.run s ops)
     = [StateManager.Recorded (StateManager.Accepted 1700000000000);
        StateManager.Won true; StateManager.Void; StateManager.Won true]
  /\ elected ops (snd (StateManager.run s ops)) = ["user-1"; "user-2"].
Proof.
  intros ops s. split; [|split; reflexivity].
  repeat constructor; discriminate.
Qed.

(** C8.  [setQuestion] installs the question and clears the submission
    mapping, the order list, the lock and the winner, whatever came before
    it; only the grace period is carried over. *)
Theorem setQuestion_resets_round :
  forall (s : StateManager.t) (ops : list StateManager.Op)
         (q : QuestionGenerator.Question.t),
    let before := fst (StateManager.run s ops) in
    let after := fst (StateManager.run s (ops ++ [StateManager.SetQuestion q])) in
    after = StateManager.setQuestion before q
    /\ StateManager.currentQuestion after = Some q
    /\ StateManager.submissions after = JS.Map.empty
    /\ StateManager.submissionOrder after = []
    /\ StateManager.isLocked after = false
    /\ StateManager.currentWinner after = None
    /\ StateManager.GRACE_PERIOD_MS after = StateManager.GRACE_PERIOD_MS before
    /\ (forall c, StateManager.hasSubmitted after c = false)
    /\ snd (StateManager.getSubmissionsInOrder after) = []
    /\ snd (StateManager.getGracePeriodSubmissions after) = [].
Proof.
  intros s ops q before after.
  assert (E : after = StateManager.setQuestion before q).
  { unfold after, before. now rewrite run_app. }
  rewrite E. repeat split; reflexivity.
Qed.

Lemma toISOString_valid t :
  JS.validTime t = true -> exists iso, JS.toISOString t = JS.Returns iso.
Proof.
  intros T. unfold JS.toISOString. rewrite T.
  destruct (JS.civilFromDays (t / 86400000)) as [[y m] d]. eauto.
Qed.




(** C10.  The failure paths change nothing: when [recordSubmission]
    returns a rejection, or throws, and when [attemptWin] returns false,
    the state after the call is the state before it. *)
Theorem failures_leave_state_unchanged :
  forall (s s' : StateManager.t) (socketId : string) (answer : JS.value)
         (timestamp : Z) (isCorrect : bool),
    (forall reason message,
        StateManager.recordSubmission s socketId answer timestamp
        = (s', JS.Returns (StateManager.Rejected reason message)) ->
        s' = s
        /\ In reason ["question-locked"; "already-submitted"; "no-question"])
    /\ (forall e,
           StateManager.recordSubmission s socketId answer timestamp = (s', JS.Throws e) ->
           s' = s)
    /\ (StateManager.attemptWin s socketId isCorrect = (s', false) -> s' = s).
Proof.
  intros s s' socketId answer timestamp isCorrect.
  unfold StateManager.recordSubmission, StateManager.attemptWin.
  split; [|split].
  - intros reason message.
    destruct (StateManager.isLocked s); [inversion 1; simpl; auto|].
    destruct (StateManager.hasSubmitted s socketId); [inversion 1; simpl; auto|].
    destruct (StateManager.currentQuestion s); [|inversion 1; simpl; auto].
    destruct (JS.toISOString timestamp); congruence.
  - intros e.
    destruct (StateManager.isLocked s); [congruence|].
    destruct (StateManager.hasSubmitted s socketId); [congruence|].
    destruct (StateManager.currentQuestion s); [|congruence].
    destruct (JS.toISOString timestamp); congruence.
  - destruct (StateManager.isLocked s); [congruence|].
    destruct isCorrect; congruence.
Qed.

(** C10 at work: a duplicate submission and a wrong answer on a round with
    two submissions recorded. *)
Lemma failures_leave_state_unchanged_witness :
  let s := fst (StateManager.run StateManager.constructor
                  [StateManager.SetQuestion sevenPlusEight;
                   StateManager.RecordSubmission "user-1" (JS.Str "99") 1700000000020;
                   StateManager.RecordSubmission "user-2" (JS.Str "15") 1700000000010]) in
  fst (StateManager.recordSubmission s "user-1" (JS.Str "15") 1700000000030) = s
  /\ fst (StateManager.attemptWin s "user-1" false) = s.
Proof.
  intros s. split.
  - apply (failures_leave_state_unchanged s
             (fst (StateManager.recordSubmission s "user-1" (JS.Str "15") 1700000000030))
             "user-1" (JS.Str "15") 1700000000030 false
           ) with (reason := "already-submitted")
                  (message := "You have already submitted an answer for this question").
    reflexivity.
  - apply (failures_leave_state_unchanged s
             (fst (StateManager.attemptWin s "user-1" false))
             "user-1" (JS.Str "15") 1700000000030 false).
    reflexivity.
Defined.

Section AbsentQuestion.
Import StateManager.

Lemma sortSubmissionOrder_empty s :
  submissionOrder s = [] -> sortSubmissionOrder s = s.
Proof.
  intros E. unfold sortSubmissionOrder. rewrite E. simpl.
  destruct s; simpl in *. now rewrite E.
Qed.

Lemma step_RecordSubmission s socketId answer timestamp :
  fst (step s (RecordSubmission socketId answer timestamp))
  = fst (recordSubmission s socketId answer timestamp).
Proof.
  simpl. now destruct (recordSubmission s socketId answer timestamp) as [s' [r|e]].
Qed.

(** [recordSubmission] changes the state only under a question, and
    then neither the question, the lock nor the winner. *)
Lemma recordSubmission_state s socketId answer timestamp :
  fst (recordSubmission s socketId answer timestamp) = s
  \/ (currentQuestion s <> None
      /\ currentQuestion (fst (recordSubmission s socketId answer timestamp))
         = currentQuestion s
      /\ isLocked (fst (recordSubmission s socketId answer timestamp)) = isLocked s
      /\ currentWinner (fst (recordSubmission s socketId answer timestamp))
         = currentWinner s).
Proof.
  unfold recordSubmission.
  destruct (isLocked s) eqn:L; simpl; auto.
  destruct (hasSubmitted s socketId); simpl; auto.
  destruct (currentQuestion s) eqn:Q; simpl; auto.
  destruct (JS.toISOString timestamp); simpl; auto.
  right. repeat split; auto. discriminate.
Qed.

Lemma step_nothingRecorded s op :
  nothingRecorded s -> nothingRecorded (fst (step s op)).
Proof.
  unfold nothingRecorded. intros I. destruct op.
  - simpl. discriminate.
  - rewrite step_RecordSubmission.
    destruct (recordSubmission_state s socketId answer timestamp)
      as [-> | (N & -> & _)]; auto.
    intros Q. contradiction.
  - simpl. unfold attemptWin.
    destruct (isLocked s); simpl; auto.
    destruct isCorrect; simpl; auto.
  - simpl. auto.
  - simpl. unfold setGracePeriod. destruct (milliseconds <? 0); simpl; auto.
  - simpl. destruct (read_frame s a) as [-> | ->]; auto.
    simpl. intros Q. destruct (I Q) as [M O]. rewrite M, O. auto.
Qed.

Lemma step_nobodyElected s op :
  match op, currentQuestion s with AttemptWin _ _, None => False | _, _ => True end ->
  nobodyElected s -> nobodyElected (fst (step s op)).
Proof.
  unfold nobodyElected. intros G I. destruct op.
  - simpl. discriminate.
  - rewrite step_RecordSubmission.
    destruct (recordSubmission_state s socketId answer timestamp)
      as [-> | (N & -> & _)]; auto.
    intros Q. contradiction.
  - simpl. unfold attemptWin.
    destruct (isLocked s) eqn:L; simpl; [now rewrite L|].
    destruct isCorrect; simpl; [|now rewrite L].
    intros Q. rewrite Q in G. contradiction.
  - simpl. auto.
  - simpl. unfold setGracePeriod. destruct (milliseconds <? 0); simpl; auto.
  - simpl. destruct (read_fields s a) as (Hq & Hw & Hl & _). rewrite Hq, Hw, Hl. auto.
Qed.

Lemma run_nothingRecorded ops : forall s,
  nothingRecorded s -> nothingRecorded (fst (run s ops)).
Proof.
  induction ops as [|op ops IH]; intros s I; simpl; auto.
  pose proof (step_nothingRecorded s op I) as I1.
  destruct (step s op) as [s1 o]; simpl in *.
  specialize (IH s1 I1). now destruct (run s1 ops).
Qed.

Lemma run_nobodyElected ops : forall s,
  winsAskedOnQuestions s ops = true ->
  nobodyElected s -> nobodyElected (fst (run s ops)).
Proof.
  induction ops as [|op ops IH]; intros s G I; simpl in *; auto.
  assert (G1 : match op, currentQuestion s with
               | AttemptWin _ _, None => False | _, _ => True end
               /\ winsAskedOnQuestions (fst (step s op)) ops = true).
  { destruct op; auto. destruct (currentQuestion s); auto. discriminate. }
  destruct G1 as [G1 G2].
  pose proof (step_nobodyElected s op G1 I) as I1.
  destruct (step s op) as [s1 o]; simpl in *.
  specialize (IH s1 G2 I1). now destruct (run s1 ops).
Qed.

End AbsentQuestion.

(** C4, as the code has it.  After any run of public operations on a new
    state manager, an absent question means an empty submission mapping
    and an empty order list; and when every [attemptWin] of the run was
    called while a question was current, it also means that the round is
    not locked and has no winner. *)
Theorem absent_question_means_empty_round :
  forall ops : list StateManager.Op,
    let s := fst (StateManager.run StateManager.constructor ops) in
    (StateManager.currentQuestion s = None ->
     StateManager.submissions s = JS.Map.empty
     /\ StateManager.submissionOrder s = [])
    /\ (winsAskedOnQuestions StateManager.constructor ops = true ->
        StateManager.currentQuestion s = None ->
        StateManager.isLocked s = false /\ StateManager.currentWinner s = None).
Proof.
  intros ops s. split.
  - apply (run_nothingRecorded ops StateManager.constructor). now intros _.
  - intros G. apply (run_nobodyElected ops StateManager.constructor G). now intros _.
Qed.

(** C4 at work: a round with a winner, then [reset]. *)
Lemma absent_question_means_empty_round_witness :
  let ops := [StateManager.SetQuestion sevenPlusEight;
              StateManager.RecordSubmission "user-1" (JS.Str "15") 1700000000000;
              StateManager.AttemptWin "user-1" true;
              StateManager.Read StateManager.GetStats;
              StateManager.Reset] in
  let s := fst (StateManager.run StateManager.constructor ops) in
  (StateManager.submissions s = JS.Map.empty /\ StateManager.submissionOrder s = [])
  /\ (StateManager.isLocked s = false /\ StateManager.currentWinner s = None).
Proof.
  intros ops s. split.
  - apply (absent_question_means_empty_round ops). reflexivity.
  - apply (absent_question_means_empty_round ops); reflexivity.
Defined.

(** C4, as the specification states it, fails: [attemptWin] does not look
    at the question, so a correct claim on a new state manager locks the
    round and names a winner while the question is absent. *)
Lemma attemptWin_without_question_locks :
  let s := fst (StateManager.run StateManager.constructor
                  [StateManager.AttemptWin "user-1" true]) in
  StateManager.currentQuestion s = None
  /\ StateManager.isLocked s = true
  /\ StateManager.currentWinner s = Some "user-1".
Proof. repeat split. Qed.

Section Accessors.
Import StateManager.
Local Abbreviation N := sortSubmissionOrder.

Lemma sortSubmissionOrder_idempotent s : N (N s) = N s.
Proof. unfold sortSubmissionOrder; simpl. now rewrite sort_idempotent. Qed.

Lemma getGracePeriodSubmissions_sorted s :
  getGracePeriodSubmissions (N s) = (N s, snd (getGracePeriodSubmissions s)).
Proof.
  unfold getGracePeriodSubmissions.
  destruct (submissionOrder s) as [|e l] eqn:E.
  - rewrite sortSubmissionOrder_empty by assumption. now rewrite E.
  - rewrite sortSubmissionOrder_idempotent.
    remember (submissionOrder (N s)) as o eqn:E'.
    destruct o as [|e' l']; [|reflexivity].
    simpl in E'. symmetry in E'. apply sort_nil in E'. congruence.
Qed.

Lemma getGracePeriodSubmissions_state s :
  fst (getGracePeriodSubmissions s) = N s.
Proof.
  unfold getGracePeriodSubmissions.
  destruct (submissionOrder s) as [|e l] eqn:E; simpl; auto.
  now rewrite sortSubmissionOrder_empty.
Qed.

(** Where an accessor leaves the state. *)
Lemma read_state s a : fst (read s a) = if sorts a then N s else s.
Proof.
  destruct a; simpl; auto.
  - pose proof (getGracePeriodSubmissions_state s) as H.
    now destruct (getGracePeriodSubmissions s).
  - unfold getStats.
    pose proof (getGracePeriodSubmissions_state s) as H.
    now destruct (getGracePeriodSubmissions s).
Qed.

(** An accessor on the sorted state returns what it returns on the state
    itself, and leaves the sorted state in place. *)
Lemma read_sorted s a : read (N s) a = (N s, snd (read s a)).
Proof.
  destruct a; try reflexivity.
  - unfold read, getSubmissionsInOrder.
    rewrite sortSubmissionOrder_idempotent. reflexivity.
  - unfold read. rewrite getGracePeriodSubmissions_sorted.
    now destruct (getGracePeriodSubmissions s).
  - unfold read, getStats. rewrite getGracePeriodSubmissions_sorted. simpl.
    now destruct (getGracePeriodSubmissions s).
Qed.

Lemma recordSubmission_sorted s socketId answer timestamp :
  snd (recordSubmission (N s) socketId answer timestamp)
  = snd (recordSubmission s socketId answer timestamp)
  /\ N (fst (recordSubmission (N s) socketId answer timestamp))
     = N (fst (recordSubmission s socketId answer timestamp)).
Proof.
  unfold recordSubmission, hasSubmitted; simpl.
  destruct (isLocked s); simpl; auto using sortSubmissionOrder_idempotent.
  destruct (JS.Map.has (submissions s) socketId); simpl;
    auto using sortSubmissionOrder_idempotent.
  destruct (currentQuestion s); simpl; auto using sortSubmissionOrder_idempotent.
  destruct (JS.toISOString timestamp); simpl; auto using sortSubmissionOrder_idempotent.
  split; auto. unfold sortSubmissionOrder; simpl. now rewrite sort_sort_snoc.
Qed.

(** Sorting the order list first is invisible to one operation ... *)
Lemma step_sorted s op :
  snd (step (N s) op) = snd (step s op)
  /\ N (fst (step (N s) op)) = N (fst (step s op)).
Proof.
  destruct op.
  - simpl. auto.
  - destruct (recordSubmission_sorted s socketId answer timestamp) as [O S].
    simpl.
    destruct (recordSubmission (N s) socketId answer timestamp) as [s1 [r1|e1]],
             (recordSubmission s socketId answer timestamp) as [s2 [r2|e2]];
      simpl in *; split; congruence.
  - simpl. unfold attemptWin; simpl.
    destruct (isLocked s); simpl; auto using sortSubmissionOrder_idempotent.
    destruct isCorrect; simpl; auto using sortSubmissionOrder_idempotent.
    split; auto. unfold sortSubmissionOrder; simpl. now rewrite sort_idempotent.
  - simpl. auto.
  - simpl. unfold setGracePeriod.
    destruct (milliseconds <? 0); simpl; auto using sortSubmissionOrder_idempotent.
    split; auto. unfold sortSubmissionOrder; simpl. now rewrite sort_idempotent.
  - simpl. rewrite read_sorted. simpl. split; auto.
    rewrite sortSubmissionOrder_idempotent.
    pose proof (read_state s a) as H. destruct (read s a) as [s' o]; simpl in *.
    subst s'. destruct (sorts a); auto using sortSubmissionOrder_idempotent.
Qed.

(** ... and to every run of them. *)
Lemma run_sorted ops : forall s, snd (run (N s) ops) = snd (run s ops).
Proof.
  induction ops as [|op ops IH]; intros s; simpl; auto.
  destruct (step_sorted s op) as [O S].
  destruct (step (N s) op) as [s1 o1], (step s op) as [s2 o2]; simpl in *.
  pose proof (IH s1) as H1. pose proof (IH s2) as H2. rewrite S in H1.
  destruct (run s1 ops) as [s1' os1], (run s2 ops) as [s2' os2],
           (run (N s2) ops) as [s3 os3]; simpl in *.
  congruence.
Qed.

End Accessors.

(** C9, as the code has it.  An accessor leaves the question, the
    submission mapping, the lock, the winner and the grace period as they
    were.  [getSubmissionsInOrder], [getGracePeriodSubmissions] and
    [getStats] sort the order list where it is stored, so after them it
    holds the same entries in the order of their timestamps; the other
    accessors leave it alone.  Reading a second time returns the same and
    changes nothing more, and no later operation returns anything else
    because of the read. *)
Theorem accessors_keep_all_but_order :
  forall (s : StateManager.t) (a : StateManager.Accessor) (ops : list StateManager.Op),
    let s' := fst (StateManager.read s a) in
    StateManager.currentQuestion s' = StateManager.currentQuestion s
    /\ StateManager.submissions s' = StateManager.submissions s
    /\ StateManager.isLocked s' = StateManager.isLocked s
    /\ StateManager.currentWinner s' = StateManager.currentWinner s
    /\ StateManager.GRACE_PERIOD_MS s' = StateManager.GRACE_PERIOD_MS s
    /\ StateManager.submissionOrder s'
       = (if sorts a
          then JS.sort StateManager.Entry.timestamp (StateManager.submissionOrder s)
          else StateManager.submissionOrder s)
    /\ Permutation (StateManager.submissionOrder s) (StateManager.submissionOrder s')
    /\ StateManager.read s' a = (s', snd (StateManager.read s a))
    /\ snd (StateManager.run s' ops) = snd (StateManager.run s ops).
Proof.
  intros s a ops s'.
  destruct (read_fields s a) as (Hq & Hw & Hl & Hs & Hg).
  pose proof (read_state s a) as E. fold s' in E.
  repeat split; auto.
  - rewrite E. now destruct (sorts a).
  - rewrite E. destruct (sorts a); simpl; auto using sort_permutation.
  - rewrite E. destruct (sorts a) eqn:A.
    + apply read_sorted.
    + pose proof (read_state s a) as E'. rewrite A in E'.
      destruct (StateManager.read s a) as [s1 o]; simpl in *. congruence.
  - rewrite E. destruct (sorts a); auto using run_sorted.
Qed.

(** C9, as the specification states it, fails: with two submissions
    recorded out of the order of their timestamps, reading the ordered
    submissions leaves another order list behind. *)
Lemma getSubmissionsInOrder_reorders :
  let s := fst (StateManager.run StateManager.constructor
                  [StateManager.SetQuestion sevenPlusEight;
                   StateManager.RecordSubmission "user-3" (JS.Str "10") 1700000000030;
                   StateManager.RecordSubmission "user-1" (JS.Str "20") 1700000000010]) in
  let s' := fst (StateManager.getSubmissionsInOrder s) in
  map StateManager.Entry.socketId (StateManager.submissionOrder s) = ["user-3"; "user-1"]
  /\ map StateManager.Entry.socketId (StateManager.submissionOrder s') = ["user-1"; "user-3"]
  /\ StateManager.submissionOrder s' <> StateManager.submissionOrder s.
Proof. repeat split. discriminate. Qed.

(* ================================================================== *)
(** * The submission handler *)
(* ================================================================== *)

Section Handlers.
Import socketHandlers.







End Handlers.




(* ================================================================== *)
(** * The question generator: validation and identifiers *)
(* ================================================================== *)

Section Trimming.











End Trimming.




(** C7 on the code.  The identifier of a question is made of the clock
    reading and nine digits of one random draw; no counter enters it.  Two
    calls of [generate] in the same millisecond whose draws for the suffix
    agree return two different questions under one identifier. *)
Theorem generated_ids_can_repeat :
  let batch := fst (QuestionGenerator.generateBatch QuestionGenerator.constructor 2 None
                      Samples.sameMillisecond) in
  map QuestionGenerator.Question.question batch = ["11 + 21"; "71 - 31"]
  /\ map QuestionGenerator.Question.id batch
     = ["q_1700000000000_i"; "q_1700000000000_i"]
  /\ ~ NoDup (map QuestionGenerator.Question.id batch).
Proof.
  intros batch.
  assert (E : map QuestionGenerator.Question.id batch
              = ["q_1700000000000_i"; "q_1700000000000_i"])
    by (vm_compute; reflexivity).
  split; [vm_compute; reflexivity|]. split; [exact E|].
  rewrite E. intros H. inversion H as [|x l N _]. apply N. now left.
Qed.

(* ================================================================== *)
(** * Further properties of the round state and of the handlers *)
(* ================================================================== *)

(** X1, P2 (lock monotonicity).  Once the round is locked, every later
    [recordSubmission] within the round is rejected for the lock. *)
Theorem locked_round_rejects_submissions :
  forall (s : StateManager.t) (ops : list StateManager.Op)
         (socketId : string) (answer : JS.value) (timestamp : Z),
    StateManager.isLocked s = true ->
    forallb withinRound ops = true ->
    StateManager.recordSubmission (fst (StateManager.run s ops)) socketId answer timestamp
    = (fst (StateManager.run s ops),
       JS.Returns (StateManager.Rejected "question-locked"
                     "This question already has a winner")).
Proof.
  intros s ops socketId answer timestamp L W.
  destruct (locked_run ops s L W) as (_ & L' & _).
  unfold StateManager.recordSubmission. now rewrite L'.
Qed.

Lemma locked_round_rejects_submissions_witness :
  let s := fst (StateManager.run StateManager.constructor
                  [StateManager.SetQuestion sevenPlusEight;
                   StateManager.RecordSubmission "user-1" (JS.Str "15") 1700000000000;
                   StateManager.AttemptWin "user-1" true]) in
  let ops := [StateManager.Read StateManager.GetStats;
              StateManager.AttemptWin "user-2" true] in
  snd (StateManager.recordSubmission (fst (StateManager.run s ops))
         "user-3" (JS.Str "15") 1700000000500)
  = JS.Returns (StateManager.Rejected "question-locked"
                  "This question already has a winner").
Proof.
  intros s ops.
  rewrite (locked_round_rejects_submissions s ops "user-3" (JS.Str "15") 1700000000500
             eq_refl eq_refl).
  reflexivity.
Defined.

Section RoundInvariants.
Import StateManager.

Lemma step_lock_and_winner s op :
  (isLocked s = true <-> currentWinner s <> None) ->
  (isLocked (fst (step s op)) = true <-> currentWinner (fst (step s op)) <> None).
Proof.
  intros I. destruct op.
  - simpl. split; [discriminate | congruence].
  - rewrite step_RecordSubmission.
    destruct (recordSubmission_state s socketId answer timestamp)
      as [-> | (_ & _ & -> & ->)]; auto.
  - simpl. unfold attemptWin.
    destruct (isLocked s) eqn:L; simpl; [now rewrite L|].
    destruct isCorrect; simpl; [|now rewrite L].
    split; [discriminate | reflexivity].
  - simpl. split; [discriminate | congruence].
  - simpl. unfold setGracePeriod. destruct (milliseconds <? 0); simpl; auto.
  - simpl. destruct (read_fields s a) as (_ & -> & -> & _). auto.
Qed.

Lemma run_lock_and_winner ops : forall s,
  (isLocked s = true <-> currentWinner s <> None) ->
  (isLocked (fst (run s ops)) = true <-> currentWinner (fst (run s ops)) <> None).
Proof.
  induction ops as [|op ops IH]; intros s I; simpl; auto.
  pose proof (step_lock_and_winner s op I) as I1.
  destruct (step s op) as [s1 o]; simpl in *.
  specialize (IH s1 I1). now destruct (run s1 ops).
Qed.

Lemma Map_set_keys {V} (m : JS.Map.t V) k v :
  JS.Map.has m k = false -> map fst (JS.Map.set m k v) = (map fst m ++ [k])%list.
Proof. intros H. now rewrite Map_set_absent, map_app. Qed.

Lemma Map_has_In {V} (m : JS.Map.t V) k :
  JS.Map.has m k = true <-> In k (map fst m).
Proof.
  unfold JS.Map.has. induction m as [|[k' v'] m IH]; simpl.
  - split; [discriminate | tauto].
  - destruct (String.eqb k' k) eqn:E.
    + apply String.eqb_eq in E. subst. split; auto.
    + rewrite IH. split; auto. intros [H|H]; auto.
      subst. now rewrite String.eqb_refl in E.
Qed.

Lemma inStep_empty q w l g :
  inStep {| currentQuestion := q; currentWinner := w; isLocked := l;
            submissions := JS.Map.empty; submissionOrder := [];
            GRACE_PERIOD_MS := g |}.
Proof. repeat split; simpl; auto. constructor. Qed.

Lemma step_inStep s op : inStep s -> inStep (fst (step s op)).
Proof.
  intros I. destruct op.
  - apply inStep_empty.
  - rewrite step_RecordSubmission. unfold recordSubmission.
    destruct (isLocked s); simpl; auto.
    destruct (hasSubmitted s socketId) eqn:H; simpl; auto.
    destruct (currentQuestion s); simpl; auto.
    destruct (JS.toISOString timestamp) as [iso|]; simpl; auto.
    destruct I as (N & P & F). unfold hasSubmitted in H.
    unfold inStep; simpl. rewrite Map_set_keys by assumption.
    rewrite map_app; simpl. repeat split.
    + apply NoDup_app; [assumption | repeat constructor; tauto |].
      intros x Hx [<-|[]]. apply Map_has_In in Hx. congruence.
    + now apply Permutation_app_tail.
    + apply Forall_app; split.
      * eapply Forall_impl; [|exact F]. simpl. intros e (sub & G & T).
        exists sub. split; auto.
        rewrite Map_get_set_other; auto.
        intros E. rewrite E in G. unfold JS.Map.has in H. now rewrite G in H.
      * repeat constructor. simpl. eexists. rewrite Map_get_set_same. eauto.
  - simpl. unfold attemptWin.
    destruct (isLocked s); simpl; auto. destruct isCorrect; simpl; auto.
  - apply inStep_empty.
  - simpl. unfold setGracePeriod. destruct (milliseconds <? 0); simpl; auto.
  - simpl. destruct (read_frame s a) as [-> | ->]; auto.
    destruct I as (N & P & F). unfold inStep; simpl. repeat split; auto.
    + rewrite <- P. apply Permutation_map. symmetry. apply sort_permutation.
    + rewrite Forall_forall in *. intros e He. apply F.
      eapply Permutation_in; [symmetry; apply sort_permutation | exact He].
Qed.

Lemma run_inStep ops : forall s, inStep s -> inStep (fst (run s ops)).
Proof.
  induction ops as [|op ops IH]; intros s I; simpl; auto.
  pose proof (step_inStep s op I) as I1.
  destruct (step s op) as [s1 o]; simpl in *.
  specialize (IH s1 I1). now destruct (run s1 ops).
Qed.

End RoundInvariants.

(** X2, I1.  After any run of public operations on a new state manager the
    round is locked exactly when it has a winner. *)
Theorem locked_iff_winner :
  forall ops : list StateManager.Op,
    let s := fst (StateManager.run StateManager.constructor ops) in
    StateManager.isLocked s = true <-> StateManager.currentWinner s <> None.
Proof.
  intros ops. apply run_lock_and_winner. simpl. split; [discriminate | congruence].
Qed.

(** X3, I2.  After any run of public operations on a new state manager no
    connection has two stored submissions, and the order list holds one
    entry for each stored submission, with its timestamp. *)
Theorem one_submission_per_connection :
  forall ops : list StateManager.Op,
    let s := fst (StateManager.run StateManager.constructor ops) in
    NoDup (map fst (StateManager.submissions s))
    /\ Permutation (map StateManager.Entry.socketId (StateManager.submissionOrder s))
                   (map fst (StateManager.submissions s))
    /\ Forall (fun e => exists sub,
                 StateManager.getSubmission s (StateManager.Entry.socketId e) = Some sub
                 /\ StateManager.Submission.timestamp sub = StateManager.Entry.timestamp e)
              (StateManager.submissionOrder s).
Proof.
  intros ops. apply (run_inStep ops StateManager.constructor).
  repeat split; simpl; auto. constructor.
Qed.

Section World.

Lemma Math_random_range w :
  (0 <= fst (JS.Math_random w) < 1)%Q.
Proof.
  unfold JS.Math_random; simpl.
  set (r := JS.randomOutcomes w (JS.randomCalls w)).
  pose proof (Qfloor_le r) as L. pose proof (Qlt_floor r) as U.
  split.
  - rewrite <- (Qplus_opp_r (inject_Z (Qfloor r))).
    apply Qplus_le_l. exact L.
  - apply Qplus_lt_l with (z := inject_Z (Qfloor r)).
    ring_simplify. rewrite Qplus_comm.
    change 1%Q with (inject_Z 1). rewrite <- inject_Z_plus.
    now rewrite Z.add_comm.
Qed.

Lemma Date_now_valid w : JS.validTime (fst (JS.Date_now w)) = true.
Proof.
  unfold JS.Date_now, JS.validTime, JS.maxTime; simpl.
  apply Z.leb_le. lia.
Qed.

(** A draw scaled to [n] choices falls on one of them. *)
Lemma scaled_draw_range w (n : Z) :
  0 < n -> 0 <= Qfloor (fst (JS.Math_random w) * inject_Z n) < n.
Proof.
  intros Hn. destruct (Math_random_range w) as [L U].
  set (r := fst (JS.Math_random w)) in *.
  split.
  - change 0 with (Qfloor (inject_Z 0)). apply Qfloor_resp_le.
    apply Qmult_le_0_compat; auto.
    change 0%Q with (inject_Z 0). rewrite <- Zle_Qle. lia.
  - apply Z.lt_nge. intros G.
    assert (B : (inject_Z n <= r * inject_Z n)%Q).
    { eapply Qle_trans; [|apply Qfloor_le]. now rewrite <- Zle_Qle. }
    assert (P : (0 < inject_Z n)%Q).
    { change 0%Q with (inject_Z 0). now rewrite <- Zlt_Qlt. }
    apply (Qlt_not_le _ _ U).
    apply Qmult_le_r with (z := inject_Z n); auto.
    now rewrite Qmult_1_l.
Qed.

End World.

Section Generator.
Import QuestionGenerator.

(** [getRandomNumber] stays within its bounds. *)
Lemma getRandomNumber_range min max w :
  min <= max -> min <= fst (getRandomNumber min max w) <= max.
Proof.
  intros H. unfold getRandomNumber, JS.bind.
  pose proof (scaled_draw_range w (max - min + 1)) as R.
  destruct (JS.Math_random w) as [r w1]; simpl in *. lia.
Qed.

(** [getRandomOperator] returns an operator the difficulty allows: the
    index it draws is below the length of the list. *)
Lemma getRandomOperator_allowed g difficulty w :
  let d := match difficulty with Some d => d | None => currentDifficulty g end in
  In (fst (getRandomOperator g difficulty w))
     (filter (fun op => includes (configOperators (difficultyLevels d)) (symbol op))
             operators).
Proof.
  intros d. unfold getRandomOperator, JS.bind. fold d.
  set (available := filter _ operators).
  assert (P : 0 < Z.of_nat (List.length available)) by (destruct d; simpl; lia).
  pose proof (scaled_draw_range w _ P) as R.
  destruct (JS.Math_random w) as [r w1]; simpl in *.
  apply nth_In. lia.
Qed.

Lemma operator_of_symbol op :
  In op operators ->
  operation op = match symbol op with
                 | Plus => Z.add | Minus => Z.sub | Times => Z.mul
                 end.
Proof. simpl. intros [<-|[<-|[<-|[]]]]; reflexivity. Qed.

Lemma generate_answer g difficulty w :
  let q := fst (generate g difficulty w) in
  Question.answer q
  = match Question.operator q with
    | Plus => Z.add | Minus => Z.sub | Times => Z.mul
    end (fst (Question.operands q)) (snd (Question.operands q))
  /\ (Question.operator q = Minus ->
      snd (Question.operands q) <= fst (Question.operands q)).
Proof.
  unfold generate, JS.bind.
  destruct (getRandomNumber _ _ w) as [num1 w1].
  destruct (getRandomNumber _ _ w1) as [num2 w2].
  pose proof (getRandomOperator_allowed g
                (Some match difficulty with Some d => d | None => currentDifficulty g end)
                w2) as A.
  destruct (getRandomOperator g _ w2) as [op w3]; cbn [fst] in A.
  apply filter_In in A as [A _]. apply operator_of_symbol in A.
  destruct (symbol op) eqn:S; cbn [Symbol_eqb andb].
  - destruct (JS.Date_now w3) as [t1 w4], (JS.Math_random w4) as [r w5],
             (JS.Date_now w5) as [t2 w6], (JS.Date_now w6) as [t3 w7].
    cbn. rewrite ?S, A. split; [reflexivity | discriminate].
  - destruct (num1 <? num2) eqn:C;
    destruct (JS.Date_now w3) as [t1 w4], (JS.Math_random w4) as [r w5],
             (JS.Date_now w5) as [t2 w6], (JS.Date_now w6) as [t3 w7];
    cbn; rewrite ?S, A; (split; [reflexivity | intros _; lia]).
  - unfold JS.bind.
    destruct (getRandomNumber (minNumber _) (Z.min _ 20) w3) as [n1 w3'].
    destruct (getRandomNumber (minNumber _) (Z.min _ 20) w3') as [n2 w3''].
    destruct (JS.Date_now w3'') as [t1 w4], (JS.Math_random w4) as [r w5],
             (JS.Date_now w5) as [t2 w6], (JS.Date_now w6) as [t3 w7].
    cbn. rewrite ?S, A. split; [reflexivity | discriminate].
Qed.

End Generator.

(** X4, P4 (subtraction non-negative).  Every generated question carries the
    answer of its operator on its operands, and the answer of a
    subtraction is not negative. *)
Theorem subtraction_answer_not_negative :
  forall (g : QuestionGenerator.t) (difficulty : option QuestionGenerator.Difficulty)
         (w : JS.World),
    let q := fst (QuestionGenerator.generate g difficulty w) in
    QuestionGenerator.Question.operator q = QuestionGenerator.Minus ->
    0 <= QuestionGenerator.Question.answer q.
Proof.
  intros g difficulty w q M.
  destruct (generate_answer g difficulty w) as [A S]. fold q in A, S.
  rewrite A, M. specialize (S M). lia.
Qed.

Lemma subtraction_answer_not_negative_witness :
  0 <= QuestionGenerator.Question.answer
         (fst (QuestionGenerator.generate QuestionGenerator.constructor None
                 (Samples.world 1700000000000 (1 # 2)))).
Proof.
  apply (subtraction_answer_not_negative QuestionGenerator.constructor None
           (Samples.world 1700000000000 (1 # 2))).
  vm_compute. reflexivity.
Defined.

Section NoUncaughtError.
Import socketHandlers.

Lemma recordSubmission_completion s socketId answer timestamp :
  JS.validTime timestamp = true ->
  match StateManager.recordSubmission s socketId answer timestamp with
  | (_, JS.Throws _) => False
  | (sm, JS.Returns (StateManager.Accepted _)) =>
      StateManager.currentQuestion sm <> None
      /\ StateManager.getSubmission sm socketId <> None
  | (sm, JS.Returns (StateManager.Rejected _ _)) => sm = s
  end.
Proof.
  intros T. unfold StateManager.recordSubmission.
  destruct (StateManager.isLocked s); auto.
  destruct (StateManager.hasSubmitted s socketId); auto.
  destruct (StateManager.currentQuestion s) eqn:Q; auto.
  destruct (toISOString_valid timestamp T) as [iso ->]. simpl.
  unfold StateManager.getSubmission; simpl. rewrite Map_get_set_same.
  split; discriminate.
Qed.

Lemma attemptWin_keeps s socketId isCorrect :
  StateManager.currentQuestion (fst (StateManager.attemptWin s socketId isCorrect))
  = StateManager.currentQuestion s
  /\ StateManager.submissions (fst (StateManager.attemptWin s socketId isCorrect))
     = StateManager.submissions s.
Proof.
  unfold StateManager.attemptWin.
  destruct (StateManager.isLocked s); simpl; auto.
  destruct isCorrect; simpl; auto.
Qed.

Lemma handleAnswerSubmission_returns h socketId data w :
  completionOf (handleAnswerSubmission h socketId data w) = JS.Returns tt.
Proof.
  unfold handleAnswerSubmission, JS.bind, completionOf.
  pose proof (Date_now_valid w) as T.
  destruct (JS.Date_now w) as [timestamp w1]; simpl in T.
  destruct (emptyAnswer (answer data)); simpl; auto.
  pose proof (recordSubmission_completion (stateManager h) socketId (answer data)
                timestamp T) as R.
  destruct (StateManager.recordSubmission (stateManager h) socketId (answer data) timestamp)
    as [sm [[ts|reason message]|e]]; simpl; auto; [|contradiction].
  destruct R as [Q G]. unfold StateManager.getCurrentQuestion.
  destruct (StateManager.currentQuestion sm) as [q|]; [|congruence].
  destruct (attemptWin_keeps sm socketId
              (QuestionGenerator.validate (answer data) (Question.answer q))) as [_ A].
  destruct (StateManager.attemptWin sm socketId
              (QuestionGenerator.validate (answer data) (Question.answer q)))
    as [sm' isWinner]; simpl in *.
  destruct isWinner; simpl; auto.
  destruct (StateMachineLogger.transition _ _ _ w1) as [machine w2].
  unfold StateManager.getSubmission in *. rewrite A.
  destruct (JS.Map.get (StateManager.submissions sm) socketId); [reflexivity|congruence].
Qed.

Lemma generateNewQuestion_returns h difficulty w :
  completionOf (generateNewQuestion h difficulty w) = JS.Returns tt.
Proof.
  unfold generateNewQuestion, JS.bind, completionOf.
  destruct (QuestionGenerator.generate _ _ w) as [q w1].
  destruct (StateMachineLogger.transition _ _ _ w1) as [machine w2].
  now destruct (JS.Date_now w2).
Qed.

Lemma handle_returns h e w : completionOf (handle h e w) = JS.Returns tt.
Proof.
  destruct e; simpl.
  - unfold sendCurrentQuestionToUser, JS.bind, completionOf.
    destruct (StateManager.getCurrentQuestion (stateManager h));
      now destruct (JS.Date_now w).
  - apply handleAnswerSubmission_returns.
  - unfold sendCurrentQuestionToUser, JS.bind, completionOf.
    destruct (StateManager.getCurrentQuestion (stateManager h));
      now destruct (JS.Date_now w).
  - reflexivity.
  - destruct callback; simpl.
    + unfold JS.bind, completionOf.
      now destruct (StateMachineLogger.transition _ _ _ w).
    + apply generateNewQuestion_returns.
  - unfold forceNewQuestion, JS.bind.
    pose proof (generateNewQuestion_returns h difficulty w) as G.
    unfold completionOf in *.
    now destruct (generateNewQuestion h difficulty w) as [[[h1 effects] c] w1].
  - reflexivity.
Qed.

End NoUncaughtError.


Section SingleWinner.
Import socketHandlers.

Lemma declaredWinners_app e1 e2 :
  declaredWinners (e1 ++ e2) = (declaredWinners e1 ++ declaredWinners e2)%list.
Proof.
  induction e1 as [|[c m|m|i cb d|i] e1 IH]; simpl; auto;
    destruct m; simpl; now rewrite ?IH.
Qed.

Lemma congratulated_app e1 e2 :
  congratulated (e1 ++ e2) = (congratulated e1 ++ congratulated e2)%list.
Proof.
  induction e1 as [|[c m|m|i cb d|i] e1 IH]; simpl; auto;
    destruct m; simpl; now rewrite ?IH.
Qed.

(** A submission declares nobody, or, on a round still open, declares
    and congratulates its sender and closes the round. *)
Lemma handleAnswerSubmission_winner h socketId data w :
  let r := handleAnswerSubmission h socketId data w in
  (declaredWinners (effectsOf r) = [] /\ congratulated (effectsOf r) = []
   /\ (closed (stateManager h) = true -> closed (stateManager (hubOf r)) = true))
  \/ (closed (stateManager h) = false
      /\ declaredWinners (effectsOf r) = [socketId]
      /\ congratulated (effectsOf r) = [socketId]
      /\ closed (stateManager (hubOf r)) = true).
Proof.
  unfold handleAnswerSubmission, JS.bind, effectsOf, hubOf, closed.
  destruct (JS.Date_now w) as [timestamp w1]; simpl.
  destruct (emptyAnswer (answer data)); simpl; [left; repeat split; auto|].
  unfold StateManager.recordSubmission, StateManager.getCurrentQuestion.
  destruct (StateManager.isLocked (stateManager h)) eqn:L; simpl;
    [left; rewrite ?L; repeat split; auto|].
  destruct (StateManager.hasSubmitted (stateManager h) socketId); simpl;
    [left; rewrite ?L; repeat split; auto|].
  destruct (StateManager.currentQuestion (stateManager h)) as [q|] eqn:Q; simpl;
    [|left; rewrite ?L, ?Q; repeat split; auto].
  destruct (JS.toISOString timestamp) as [iso|e]; simpl;
    [|left; rewrite ?L, ?Q; repeat split; auto].
  unfold StateManager.attemptWin; simpl. rewrite ?L.
  destruct (QuestionGenerator.validate (answer data) (Question.answer q)); simpl.
  - destruct (StateMachineLogger.transition _ _ _ w1) as [machine w2].
    unfold StateManager.getSubmission; simpl. rewrite Map_get_set_same. simpl.
    right. auto.
  - left. repeat split; auto.
Qed.

Lemma handle_winner h e w :
  startsQuestion e = false ->
  let r := handle h e w in
  (declaredWinners (effectsOf r) = [] /\ congratulated (effectsOf r) = []
   /\ (closed (stateManager h) = true -> closed (stateManager (hubOf r)) = true))
  \/ (closed (stateManager h) = false
      /\ (exists socketId,
            declaredWinners (effectsOf r) = [socketId]
            /\ congratulated (effectsOf r) = [socketId])
      /\ closed (stateManager (hubOf r)) = true).
Proof.
  intros S. destruct e; simpl in *; try discriminate.
  - left. unfold sendCurrentQuestionToUser, JS.bind, effectsOf, hubOf.
    destruct (StateManager.getCurrentQuestion (stateManager h));
      destruct (JS.Date_now w); simpl; auto.
  - destruct (handleAnswerSubmission_winner h socketId data w)
      as [N | (O & D & C & K)]; [left; exact N | right].
    split; auto. split; auto. exists socketId. auto.
  - left. unfold sendCurrentQuestionToUser, JS.bind, effectsOf, hubOf.
    destruct (StateManager.getCurrentQuestion (stateManager h));
      destruct (JS.Date_now w); simpl; auto.
  - left. auto.
  - destruct callback; try discriminate.
    left. unfold fire, JS.bind, effectsOf, hubOf.
    destruct (StateMachineLogger.transition _ _ _ w); simpl; auto.
  - left. unfold effectsOf, hubOf, closed; simpl. repeat split; auto.
Qed.

Lemma serve_closed events : forall h w,
  forallb (fun e => negb (startsQuestion e)) events = true ->
  closed (stateManager h) = true ->
  declaredWinners (effectsOf (serve h events w)) = []
  /\ congratulated (effectsOf (serve h events w)) = [].
Proof.
  induction events as [|e events IH]; intros h w S C; simpl in *; auto.
  apply andb_prop in S as [S1 S2]. apply negb_true_iff in S1.
  destruct (handle_winner h e w S1) as [(D & G & K) | (O & _)]; [|congruence].
  unfold JS.bind, effectsOf, hubOf in *.
  destruct (handle h e w) as [[[h1 effects1] c1] w1]; simpl in *.
  destruct c1 as [u|err]; simpl; auto.
  destruct (IH h1 w1 S2 (K C)) as [D2 G2].
  destruct (serve h1 events w1) as [[[h2 effects2] c2] w2]; simpl in *.
  now rewrite declaredWinners_app, congratulated_app, D, G, D2, G2.
Qed.

Lemma serve_winner events : forall h w,
  forallb (fun e => negb (startsQuestion e)) events = true ->
  (declaredWinners (effectsOf (serve h events w)) = []
   /\ congratulated (effectsOf (serve h events w)) = [])
  \/ exists socketId,
       declaredWinners (effectsOf (serve h events w)) = [socketId]
       /\ congratulated (effectsOf (serve h events w)) = [socketId].
Proof.
  induction events as [|e events IH]; intros h w S; simpl in *; auto.
  apply andb_prop in S as [S1 S2]. apply negb_true_iff in S1.
  pose proof (handle_winner h e w S1) as H.
  pose proof (fun h1 w1 => serve_closed events h1 w1 S2) as C.
  unfold JS.bind, effectsOf, hubOf in *.
  destruct (handle h e w) as [[[h1 effects1] c1] w1]; simpl in *.
  specialize (IH h1 w1 S2). specialize (C h1 w1).
  destruct c1 as [u|err]; simpl.
  - destruct (serve h1 events w1) as [[[h2 effects2] c2] w2]; simpl in *.
    rewrite declaredWinners_app, congratulated_app.
    destruct H as [(D & G & _) | (_ & (c & D & G) & K)].
    + now rewrite D, G.
    + destruct (C K) as [D2 G2]. rewrite D, G, D2, G2. right. exists c. auto.
  - destruct H as [(D & G & _) | (_ & (c & D & G) & K)]; eauto.
Qed.

End SingleWinner.

(** X6, P1 (single winner).  Between two new questions the server broadcasts
    [winner-declared] at most once and sends [you-won] at most once, to the
    connection the broadcast names. *)
Theorem one_winner_per_question :
  forall (h : socketHandlers.t) (events : list socketHandlers.Inbound) (w : JS.World),
    forallb (fun e => negb (startsQuestion e)) events = true ->
    let effects := effectsOf (socketHandlers.serve h events w) in
    (List.length (declaredWinners effects) <= 1)%nat
    /\ congratulated effects = declaredWinners effects.
Proof.
  intros h events w S effects.
  destruct (serve_winner events h w S) as [[D G] | (c & D & G)];
    subst effects; rewrite D, G; simpl; auto.
Qed.

(** P1 at work (the second seed scenario): A and B both send the right
    answer; one winner is declared. *)
Lemma one_winner_per_question_witness :
  let start := socketHandlers.setupSocketHandlers Samples.noon in
  let events :=
    [socketHandlers.submit_answer "A" {| socketHandlers.answer := JS.Str "52" |};
     socketHandlers.submit_answer "B" {| socketHandlers.answer := JS.Str "52" |};
     socketHandlers.timeout socketHandlers.ToTransitioning;
     socketHandlers.resetting;
     socketHandlers.submit_answer "C" {| socketHandlers.answer := JS.Str "52" |}] in
  let effects := effectsOf (socketHandlers.serve (hubOf start) events (snd start)) in
  declaredWinners effects = ["A"]
  /\ (List.length (declaredWinners effects) <= 1)%nat.
Proof.
  intros start events effects. split; [vm_compute; reflexivity|].
  apply (one_winner_per_question (hubOf start) events (snd start)). reflexivity.
Defined.

(* ================================================================== *)
(** * More on the runtime: the stable sort keeps the order of arrival *)
(* ================================================================== *)

Section SortStability.
Context {A : Type} (key : A -> Z).

Lemma insert_In a y l : In y (JS.insert key a l) <-> y = a \/ In y l.
Proof.
  split.
  - intros H. apply (Permutation_in _ (Permutation_sym (insert_permutation key a l))) in H.
    destruct H; auto.
  - intros H. apply (Permutation_in _ (insert_permutation key a l)).
    destruct H; [left | right]; auto.
Qed.

Lemma sort_In y l : In y (JS.sort key l) <-> In y l.
Proof.
  split; apply Permutation_in;
    [apply Permutation_sym|]; apply sort_permutation.
Qed.

Lemma precedes_insert x y a l :
  precedes x y l -> precedes x y (JS.insert key a l).
Proof.
  induction l as [|z l IH]; simpl; [tauto|].
  intros H. destruct (key a <=? key z); simpl; [tauto|].
  destruct H as [[-> H] | H]; [left | right; auto].
  split; auto. apply insert_In. auto.
Qed.

Lemma insert_precedes a y l :
  In y l -> key a <= key y -> precedes a y (JS.insert key a l).
Proof.
  induction l as [|z l IH]; simpl; [tauto|].
  intros H L. destruct (key a <=? key z) eqn:E; simpl; [left; auto|].
  right. destruct H as [-> | H]; [lia | auto].
Qed.

(** Two elements the second of which has no smaller key keep their
    order through the sort. *)
Lemma sort_stable x y l :
  precedes x y l -> key x <= key y -> precedes x y (JS.sort key l).
Proof.
  induction l as [|z l IH]; simpl; [tauto|].
  intros [[-> H] | H] L.
  - apply insert_precedes; auto. now apply sort_In.
  - apply precedes_insert; auto.
Qed.

Lemma ascending_head x l :
  ascending key (x :: l) -> Forall (fun y => key x <= key y) l.
Proof.
  revert x; induction l as [|z l IH]; intros x; simpl; auto.
  intros [Hx Hl]. constructor; auto.
  eapply Forall_impl; [|apply (IH z Hl)]. simpl. intros; lia.
Qed.

(** In an ascending list the elements up to a bound come before the
    others. *)
Lemma ascending_filter bound l :
  ascending key l ->
  l = (filter (fun e => key e <=? bound) l
       ++ filter (fun e => negb (key e <=? bound)) l)%list.
Proof.
  induction l as [|x l IH]; auto.
  intros H. pose proof (ascending_head x l H) as F.
  destruct H as [_ H]. simpl.
  destruct (key x <=? bound) eqn:E; simpl.
  - now rewrite <- IH.
  - assert (N : filter (fun e => key e <=? bound) l = []).
    { clear IH H. induction F as [|y l Hy F IH]; simpl; auto.
      destruct (key y <=? bound) eqn:E'; auto. lia. }
    rewrite N. simpl. f_equal. rewrite (IH H) at 1. now rewrite N.
Qed.

End SortStability.

Section SortMap.
Context {A B : Type} (keyA : A -> Z) (keyB : B -> Z) (f : A -> B).
Hypothesis same_key : forall x, keyB (f x) = keyA x.

Lemma insert_map a l :
  JS.insert keyB (f a) (map f l) = map f (JS.insert keyA a l).
Proof.
  induction l as [|x l IH]; simpl; auto.
  rewrite !same_key. destruct (keyA a <=? keyA x); simpl; auto.
  now rewrite IH.
Qed.

Lemma sort_map l : JS.sort keyB (map f l) = map f (JS.sort keyA l).
Proof.
  induction l as [|x l IH]; simpl; auto. now rewrite IH, insert_map.
Qed.

Lemma ascending_map l : ascending keyA l -> ascending keyB (map f l).
Proof.
  induction l as [|x l IH]; simpl; auto.
  intros [Hx Hl]. split; auto.
  destruct l; simpl; auto. now rewrite !same_key.
Qed.

End SortMap.

Lemma precedes_map {A B : Type} (f : A -> B) x y l :
  precedes x y l -> precedes (f x) (f y) (map f l).
Proof.
  induction l as [|z l IH]; simpl; auto.
  intros [[-> H] | H]; [left | right; auto].
  split; auto. now apply in_map.
Qed.

Lemma Map_get_In {V : Type} (m : JS.Map.t V) k v :
  NoDup (map fst m) -> In (k, v) m -> JS.Map.get m k = Some v.
Proof.
  induction m as [|[k' v'] m IH]; simpl; [tauto|].
  intros N [E | H].
  - inversion E; subst. now rewrite String.eqb_refl.
  - inversion N as [|? ? N1 N2]; subst.
    destruct (String.eqb k' k) eqn:E; auto.
    apply String.eqb_eq in E; subst. elim N1.
    change k with (fst (k, v)). now apply in_map.
Qed.

(* ================================================================== *)
(** * More on the state manager: what the accessors return *)
(* ================================================================== *)

Lemma insertLast_map {A B : Type} (keyA : A -> Z) (keyB : B -> Z) (f : A -> B) a l :
  (forall x, keyB (f x) = keyA x) ->
  insertLast keyB (f a) (map f l) = map f (insertLast keyA a l).
Proof.
  intros same_key. induction l as [|x l IH]; simpl; auto.
  rewrite !same_key. destruct (keyA a <? keyA x); simpl; auto.
  now rewrite IH.
Qed.

Section OrderOfSubmissions.
Import StateManager.

Lemma step_orderFollowsArrival s op :
  orderFollowsArrival s -> orderFollowsArrival (fst (step s op)).
Proof.
  unfold orderFollowsArrival. intros K. destruct op.
  - reflexivity.
  - rewrite step_RecordSubmission. unfold recordSubmission.
    destruct (isLocked s); simpl; auto.
    destruct (hasSubmitted s socketId) eqn:H; simpl; auto.
    destruct (currentQuestion s); simpl; auto.
    destruct (JS.toISOString timestamp) as [iso|]; simpl; auto.
    rewrite Map_set_absent by exact H.
    rewrite !sort_snoc, K.
    now rewrite <- (insertLast_map arrivalTime Entry.timestamp entryOf).
  - simpl. unfold attemptWin.
    destruct (isLocked s); simpl; auto. destruct isCorrect; simpl; auto.
  - reflexivity.
  - simpl. unfold setGracePeriod. destruct (milliseconds <? 0); simpl; auto.
  - simpl. destruct (read_frame s a) as [-> | ->]; auto.
    simpl. now rewrite sort_idempotent.
Qed.

Lemma run_orderFollowsArrival ops : forall s,
  orderFollowsArrival s -> orderFollowsArrival (fst (run s ops)).
Proof.
  induction ops as [|op ops IH]; intros s I; simpl; auto.
  pose proof (step_orderFollowsArrival s op I) as I1.
  destruct (step s op) as [s1 o]; simpl in *.
  specialize (IH s1 I1). now destruct (run s1 ops).
Qed.

(** What [getSubmissionsInOrder] returns on a state whose order list
    goes with its mapping. *)
Lemma getSubmissionsInOrder_result s :
  NoDup (map fst (submissions s)) -> orderFollowsArrival s ->
  snd (getSubmissionsInOrder s) = map orderedOf (JS.sort arrivalTime (submissions s)).
Proof.
  intros N K. unfold getSubmissionsInOrder; simpl. rewrite K, map_map.
  apply map_ext_in. intros [k sub] H. apply sort_In in H.
  unfold spread; simpl. now rewrite (Map_get_In _ _ _ N H).
Qed.

Lemma inStep_new ops : inStep (fst (run constructor ops)).
Proof.
  apply (run_inStep ops constructor). repeat split; simpl; auto. constructor.
Qed.

End OrderOfSubmissions.

(** X7.  After any run of public operations on a new state manager,
    [getSubmissionsInOrder] returns every stored submission once, with its
    answer and timestamp, in ascending order of the timestamps; and of two
    submissions the second of which has no smaller timestamp, the one that
    was stored first comes first (so ties keep the order of arrival). *)
Theorem submissions_by_time_then_arrival :
  forall ops : list StateManager.Op,
    let s := fst (StateManager.run StateManager.constructor ops) in
    let result := snd (StateManager.getSubmissionsInOrder s) in
    result = map orderedOf (JS.sort arrivalTime (StateManager.submissions s))
    /\ ascending StateManager.Ordered.timestamp result
    /\ Permutation result (map orderedOf (StateManager.submissions s))
    /\ forall p1 p2,
         precedes p1 p2 (StateManager.submissions s) ->
         arrivalTime p1 <= arrivalTime p2 ->
         precedes (orderedOf p1) (orderedOf p2) result.
Proof.
  intros ops s result.
  assert (E : result = map orderedOf (JS.sort arrivalTime (StateManager.submissions s))).
  { apply getSubmissionsInOrder_result.
    - apply (inStep_new ops).
    - apply (run_orderFollowsArrival ops StateManager.constructor). reflexivity. }
  rewrite E. repeat split.
  - apply (ascending_map arrivalTime StateManager.Ordered.timestamp orderedOf);
      [reflexivity | apply sort_ascending].
  - apply Permutation_map. symmetry. apply sort_permutation.
  - intros p1 p2 P L. apply precedes_map. now apply sort_stable.
Qed.

Section GracePeriod.
Import StateManager.

Lemma step_grace_not_negative s op :
  0 <= GRACE_PERIOD_MS s -> 0 <= GRACE_PERIOD_MS (fst (step s op)).
Proof.
  intros G. destruct op.
  - exact G.
  - rewrite step_RecordSubmission. unfold recordSubmission.
    destruct (isLocked s); simpl; auto.
    destruct (hasSubmitted s socketId); simpl; auto.
    destruct (currentQuestion s); simpl; auto.
    destruct (JS.toISOString timestamp); simpl; auto.
  - simpl. unfold attemptWin.
    destruct (isLocked s); simpl; auto. destruct isCorrect; simpl; auto.
  - exact G.
  - simpl. unfold setGracePeriod.
    destruct (milliseconds <? 0) eqn:E; simpl; auto. lia.
  - simpl. destruct (read_fields s a) as (_ & _ & _ & _ & ->). exact G.
Qed.

Lemma run_grace_not_negative ops : forall s,
  0 <= GRACE_PERIOD_MS s -> 0 <= GRACE_PERIOD_MS (fst (run s ops)).
Proof.
  induction ops as [|op ops IH]; intros s G; simpl; auto.
  pose proof (step_grace_not_negative s op G) as G1.
  destruct (step s op) as [s1 o]; simpl in *.
  specialize (IH s1 G1). now destruct (run s1 ops).
Qed.

Lemma step_keeps_grace s op :
  (forall ms, op <> SetGracePeriod ms) ->
  GRACE_PERIOD_MS (fst (step s op)) = GRACE_PERIOD_MS s.
Proof.
  intros N. destruct op.
  - reflexivity.
  - rewrite step_RecordSubmission. unfold recordSubmission.
    destruct (isLocked s); simpl; auto.
    destruct (hasSubmitted s socketId); simpl; auto.
    destruct (currentQuestion s); simpl; auto.
    destruct (JS.toISOString timestamp); simpl; auto.
  - simpl. unfold attemptWin.
    destruct (isLocked s); simpl; auto. destruct isCorrect; simpl; auto.
  - reflexivity.
  - now elim (N milliseconds).
  - simpl. now destruct (read_fields s a) as (_ & _ & _ & _ & ->).
Qed.

Lemma run_keeps_grace ops : forall s,
  Forall (fun op => forall ms, op <> SetGracePeriod ms) ops ->
  GRACE_PERIOD_MS (fst (run s ops)) = GRACE_PERIOD_MS s.
Proof.
  induction ops as [|op ops IH]; intros s F; simpl; auto.
  inversion F as [|? ? N F']; subst.
  pose proof (step_keeps_grace s op N) as G1.
  destruct (step s op) as [s1 o]; simpl in *.
  specialize (IH s1 F'). destruct (run s1 ops); simpl in *. congruence.
Qed.

End GracePeriod.

(** X8.  [setGracePeriod] refuses a negative duration with an error and
    changes nothing; any other duration becomes the grace period and stays
    it through every later operation but another [setGracePeriod] -- new
    questions and [reset] included.  So the grace period of a state manager
    is never negative. *)
Theorem grace_period_is_kept_and_not_negative :
  forall (s : StateManager.t) (milliseconds : Z) (ops : list StateManager.Op),
    (milliseconds < 0 ->
     StateManager.setGracePeriod s milliseconds
     = (s, JS.Throws (JS.PlainError "Grace period must be non-negative")))
    /\ (0 <= milliseconds ->
        snd (StateManager.setGracePeriod s milliseconds) = JS.Returns tt
        /\ (Forall (fun op => forall ms, op <> StateManager.SetGracePeriod ms) ops ->
            StateManager.getGracePeriod
              (fst (StateManager.run (fst (StateManager.setGracePeriod s milliseconds)) ops))
            = milliseconds))
    /\ 0 <= StateManager.getGracePeriod
              (fst (StateManager.run StateManager.constructor ops)).
Proof.
  intros s milliseconds ops. unfold StateManager.setGracePeriod.
  split; [|split].
  - intros H. apply Z.ltb_lt in H. now rewrite H.
  - intros H. apply Z.ltb_ge in H. rewrite H. simpl. split; auto.
    intros F. unfold StateManager.getGracePeriod. now rewrite run_keeps_grace.
  - apply run_grace_not_negative. simpl. lia.
Qed.

Lemma grace_period_is_kept_and_not_negative_witness :
  StateManager.getGracePeriod
    (fst (StateManager.run
            (fst (StateManager.setGracePeriod StateManager.constructor 200))
            [StateManager.SetQuestion sevenPlusEight;
             StateManager.RecordSubmission "user-1" (JS.Str "15") 1700000000000;
             StateManager.Reset]))
  = 200.
Proof.
  apply (grace_period_is_kept_and_not_negative StateManager.constructor 200); [lia|].
  repeat constructor; discriminate.
Defined.

Section GracePeriodSubmissions.
Import StateManager.

Lemma getGracePeriodSubmissions_result s :
  let sorted := JS.sort Entry.timestamp (submissionOrder s) in
  let bound := match sorted with
               | e :: _ => Entry.timestamp e + GRACE_PERIOD_MS s
               | [] => 0
               end in
  snd (getGracePeriodSubmissions s)
  = filter (fun entry => Entry.timestamp entry <=? bound) sorted.
Proof.
  unfold getGracePeriodSubmissions.
  destruct (submissionOrder s) as [|e l] eqn:E; [reflexivity|].
  cbn [snd sortSubmissionOrder submissionOrder GRACE_PERIOD_MS]. rewrite ?E.
  destruct (JS.sort Entry.timestamp (e :: l)) as [|e' l'] eqn:E'; [|reflexivity].
  apply sort_nil in E'. discriminate.
Qed.

End GracePeriodSubmissions.

(** X9.  After any run of public operations on a new state manager,
    [getGracePeriodSubmissions] returns a prefix of the order list sorted
    by timestamp: the entries it returns lie within the grace period of
    the earliest submission, the entries it leaves out lie beyond it, and
    when there is a submission at all the earliest one is returned
    first. *)
Theorem grace_period_submissions_are_a_prefix :
  forall ops : list StateManager.Op,
    let s := fst (StateManager.run StateManager.constructor ops) in
    let sorted := JS.sort StateManager.Entry.timestamp (StateManager.submissionOrder s) in
    let result := snd (StateManager.getGracePeriodSubmissions s) in
    exists rest,
      sorted = (result ++ rest)%list
      /\ (forall earliest others, sorted = earliest :: others ->
            (exists more, result = earliest :: more)
            /\ Forall (fun e => StateManager.Entry.timestamp e
                                <= StateManager.Entry.timestamp earliest
                                   + StateManager.getGracePeriod s) result
            /\ Forall (fun e => StateManager.Entry.timestamp earliest
                                + StateManager.getGracePeriod s
                                < StateManager.Entry.timestamp e) rest)
      /\ (sorted = [] -> result = []).
Proof.
  intros ops s sorted result.
  pose proof (run_grace_not_negative ops StateManager.constructor) as G.
  fold s in G. simpl in G. specialize (G ltac:(lia)).
  pose proof (getGracePeriodSubmissions_result s) as R.
  fold sorted in R. fold result in R. cbv zeta in R.
  exists (filter (fun e => negb (StateManager.Entry.timestamp e
                              <=? (match sorted with
                                   | e0 :: _ => StateManager.Entry.timestamp e0
                                                + StateManager.GRACE_PERIOD_MS s
                                   | [] => 0
                                   end))) sorted).
  rewrite R. split; [|split].
  - apply ascending_filter. apply sort_ascending.
  - intros earliest others E. rewrite E. unfold StateManager.getGracePeriod.
    split; [|split].
    + simpl. assert (L : (StateManager.Entry.timestamp earliest
                         <=? StateManager.Entry.timestamp earliest
                             + StateManager.GRACE_PERIOD_MS s) = true)
        by (apply Z.leb_le; lia).
      rewrite L. eauto.
    + apply Forall_forall. intros e H. apply filter_In in H as [_ H].
      now apply Z.leb_le in H.
    + apply Forall_forall. intros e H. apply filter_In in H as [_ H].
      apply negb_true_iff, Z.leb_gt in H. exact H.
  - intros E. now rewrite E.
Qed.

Section StoredSubmissions.
Import StateManager.

Lemma step_keeps_submission s op socketId sub :
  withinRound op = true ->
  getSubmission s socketId = Some sub ->
  getSubmission (fst (step s op)) socketId = Some sub.
Proof.
  unfold getSubmission. intros W G. destruct op; try discriminate.
  - rewrite step_RecordSubmission. unfold recordSubmission.
    destruct (isLocked s); simpl; auto.
    destruct (hasSubmitted s socketId0) eqn:H; simpl; auto.
    destruct (currentQuestion s); simpl; auto.
    destruct (JS.toISOString timestamp); simpl; auto.
    rewrite Map_get_set_other; auto.
    intros ->. unfold hasSubmitted, JS.Map.has in H. now rewrite G in H.
  - simpl. unfold attemptWin.
    destruct (isLocked s); simpl; auto. destruct isCorrect; simpl; auto.
  - simpl. unfold setGracePeriod. destruct (milliseconds <? 0); simpl; auto.
  - simpl. now destruct (read_fields s a) as (_ & _ & _ & -> & _).
Qed.

Lemma run_keeps_submission ops : forall s socketId sub,
  forallb withinRound ops = true ->
  getSubmission s socketId = Some sub ->
  getSubmission (fst (run s ops)) socketId = Some sub.
Proof.
  induction ops as [|op ops IH]; intros s socketId sub W G; simpl in *; auto.
  apply andb_prop in W as [W1 W2].
  pose proof (step_keeps_submission s op socketId sub W1 G) as G1.
  destruct (step s op) as [s1 o]; simpl in *.
  specialize (IH s1 socketId sub W2 G1). now destruct (run s1 ops).
Qed.

End StoredSubmissions.

(** X10.  A stored submission is never overwritten or dropped within its
    round: whatever operations follow, short of [setQuestion] and [reset],
    [getSubmission] keeps returning the answer and the timestamp that were
    recorded -- later submissions of the same connection included -- and
    after [setQuestion] or [reset] it returns nothing. *)
Theorem stored_submission_is_kept :
  forall (s : StateManager.t) (socketId : string) (sub : StateManager.Submission.t)
         (ops : list StateManager.Op) (q : QuestionGenerator.Question.t),
    StateManager.getSubmission s socketId = Some sub ->
    forallb withinRound ops = true ->
    let s' := fst (StateManager.run s ops) in
    StateManager.getSubmission s' socketId = Some sub
    /\ StateManager.hasSubmitted s' socketId = true
    /\ StateManager.getSubmission (StateManager.setQuestion s' q) socketId = None
    /\ StateManager.getSubmission (StateManager.reset s') socketId = None.
Proof.
  intros s socketId sub ops q G W s'.
  pose proof (run_keeps_submission ops s socketId sub W G) as G'. fold s' in G'.
  repeat split; auto.
  unfold StateManager.hasSubmitted, JS.Map.has.
  unfold StateManager.getSubmission in G'. now rewrite G'.
Qed.

Lemma stored_submission_is_kept_witness :
  let s := fst (StateManager.run StateManager.constructor
                  [StateManager.SetQuestion sevenPlusEight;
                   StateManager.RecordSubmission "user-1" (JS.Str "99") 1700000000000]) in
  let ops := [StateManager.RecordSubmission "user-1" (JS.Str "15") 1700000000100;
              StateManager.RecordSubmission "user-2" (JS.Str "15") 1700000000200;
              StateManager.AttemptWin "user-2" true;
              StateManager.Read StateManager.GetSubmissionsInOrder] in
  option_map StateManager.Submission.answer
    (StateManager.getSubmission (fst (StateManager.run s ops)) "user-1")
  = Some (JS.Str "99").
Proof.
  intros s ops.
  rewrite (proj1 (stored_submission_is_kept s "user-1"
                    {| StateManager.Submission.answer := JS.Str "99";
                       StateManager.Submission.timestamp := 1700000000000;
                       StateManager.Submission.timestampISO := "2023-11-14T22:13:20.000Z" |}
                    ops sevenPlusEight eq_refl eq_refl)).
  reflexivity.
Defined.

(** The submissions within the grace period are a prefix of the sorted
    order list that starts with the earliest. *)
Lemma grace_prefix (ops : list StateManager.Op) :
  let s := fst (StateManager.run StateManager.constructor ops) in
  exists rest,
    JS.sort StateManager.Entry.timestamp (StateManager.submissionOrder s)
    = (snd (StateManager.getGracePeriodSubmissions s) ++ rest)%list
    /\ forall earliest others,
         JS.sort StateManager.Entry.timestamp (StateManager.submissionOrder s)
         = earliest :: others ->
         exists more, snd (StateManager.getGracePeriodSubmissions s) = earliest :: more.
Proof.
  intros s.
  pose proof (run_grace_not_negative ops StateManager.constructor) as G.
  fold s in G. simpl in G. specialize (G ltac:(lia)).
  pose proof (getGracePeriodSubmissions_result s) as R. cbv zeta in R.
  eexists. rewrite R. split; [apply ascending_filter, sort_ascending|].
  intros earliest others E. rewrite E. simpl.
  assert (L : (StateManager.Entry.timestamp earliest
               <=? StateManager.Entry.timestamp earliest
                   + StateManager.GRACE_PERIOD_MS s) = true)
    by (apply Z.leb_le; lia).
  rewrite L. eauto.
Qed.

Lemma new_state_lock_and_winner (ops : list StateManager.Op) :
  let s := fst (StateManager.run StateManager.constructor ops) in
  StateManager.isLocked s = true <-> StateManager.currentWinner s <> None.
Proof.
  apply run_lock_and_winner. simpl. split; [discriminate | congruence].
Qed.

(** X11.  After any run of public operations on a new state manager the
    figures of [getState] and [getStats] agree with the state and with each
    other: the submission count is the number of entries of the mapping and
    of the order list, [hasWinner] says what [isLocked] says, and the count
    of submissions within the grace period is at most the total, and at
    least one when there is a submission. *)
Theorem state_and_stats_agree :
  forall ops : list StateManager.Op,
    let s := fst (StateManager.run StateManager.constructor ops) in
    let snapshot := StateManager.getState s in
    let stats := snd (StateManager.getStats s) in
    StateManager.Snapshot.submissionCount snapshot
    = Z.of_nat (List.length (StateManager.Snapshot.submissions snapshot))
    /\ StateManager.Snapshot.submissionCount snapshot
       = Z.of_nat (List.length (StateManager.submissionOrder s))
    /\ StateManager.Stats.totalSubmissions stats
       = StateManager.Snapshot.submissionCount snapshot
    /\ StateManager.Stats.hasWinner stats = StateManager.Stats.isLocked stats
    /\ StateManager.Stats.isLocked stats = StateManager.Snapshot.isLocked snapshot
    /\ 0 <= StateManager.Stats.gracePeriodSubmissions stats
         <= StateManager.Stats.totalSubmissions stats
    /\ (0 < StateManager.Stats.totalSubmissions stats ->
        1 <= StateManager.Stats.gracePeriodSubmissions stats).
Proof.
  intros ops s snapshot stats.
  destruct (inStep_new ops) as (_ & P & _). fold s in P.
  destruct (new_state_lock_and_winner ops) as [I1 I2]. fold s in I1, I2.
  destruct (grace_prefix ops) as (rest & E & First). fold s in E, First.
  assert (L : List.length (StateManager.submissionOrder s)
              = List.length (StateManager.submissions s)).
  { apply Permutation_length in P. now rewrite !length_map in P. }
  assert (T : StateManager.Stats.totalSubmissions stats
              = Z.of_nat (List.length (StateManager.submissions s))).
  { unfold stats, StateManager.getStats.
    now destruct (StateManager.getGracePeriodSubmissions s). }
  assert (Gr : StateManager.Stats.gracePeriodSubmissions stats
               = Z.of_nat (List.length (snd (StateManager.getGracePeriodSubmissions s)))).
  { unfold stats, StateManager.getStats.
    now destruct (StateManager.getGracePeriodSubmissions s). }
  assert (S : List.length (JS.sort StateManager.Entry.timestamp
                             (StateManager.submissionOrder s))
              = List.length (StateManager.submissionOrder s)).
  { symmetry. apply Permutation_length, sort_permutation. }
  split; [reflexivity|]. split; [unfold snapshot; simpl; unfold JS.Map.size; lia|].
  split; [exact T|]. split.
  { unfold stats, StateManager.getStats.
    destruct (StateManager.getGracePeriodSubmissions s). simpl.
    destruct (StateManager.currentWinner s) eqn:W, (StateManager.isLocked s) eqn:Lk; auto.
    - symmetry. apply I2. discriminate.
    - now elim (I1 eq_refl). }
  split.
  { unfold stats, StateManager.getStats.
    now destruct (StateManager.getGracePeriodSubmissions s). }
  rewrite T, Gr. rewrite E, length_app in S. split; [lia|].
  intros Pos.
  destruct (JS.sort StateManager.Entry.timestamp (StateManager.submissionOrder s))
    as [|earliest others] eqn:Es.
  - apply sort_nil in Es. rewrite Es in L. simpl in L. lia.
  - destruct (First earliest others eq_refl) as (more & ->). simpl. lia.
Qed.

(* ================================================================== *)
(** * More on the question generator *)
(* ================================================================== *)

Section GeneratedQuestions.
Import QuestionGenerator.

Lemma config_ranges d :
  let config := difficultyLevels d in
  1 <= minNumber config <= maxNumber config
  /\ minNumber config <= Z.min (maxNumber config) 20.
Proof. destruct d; simpl; lia. Qed.

Lemma operator_entry op :
  In op operators ->
  operation op = apply (symbol op) /\ name op = nameOf (symbol op).
Proof. simpl. intros [<-|[<-|[<-|[]]]]; split; reflexivity. Qed.

Lemma includes_In l s : includes l s = true <-> In s l.
Proof.
  unfold includes. rewrite existsb_exists. split.
  - intros (x & H & E). destruct s, x; try discriminate; exact H.
  - intros H. exists s. split; auto. now destruct s.
Qed.

Lemma generate_wellFormed g difficulty w :
  wellFormed (match difficulty with Some d => d | None => currentDifficulty g end)
             (fst (generate g difficulty w)).
Proof.
  unfold generate, JS.bind.
  set (d := match difficulty with Some d => d | None => currentDifficulty g end).
  destruct (config_ranges d) as [[R0 R1] R2]. cbv zeta in R0, R1, R2.
  pose proof (getRandomNumber_range _ _ w R1) as N1.
  destruct (getRandomNumber _ _ w) as [num1 w1]; cbn [fst] in N1.
  pose proof (getRandomNumber_range _ _ w1 R1) as N2.
  destruct (getRandomNumber _ _ w1) as [num2 w2]; cbn [fst] in N2.
  pose proof (getRandomOperator_allowed g (Some d) w2) as A.
  destruct (getRandomOperator g (Some d) w2) as [op w3]; cbn [fst] in A.
  apply filter_In in A as [A I]. apply includes_In in I.
  apply operator_entry in A as [A Nm].
  unfold wellFormed.
  destruct (symbol op) eqn:S; cbn [Symbol_eqb andb].
  - destruct (JS.Date_now w3) as [t1 w4], (JS.Math_random w4) as [r w5],
             (JS.Date_now w5) as [t2 w6], (JS.Date_now w6) as [t3 w7].
    cbn. rewrite ?S, A, Nm. repeat split; auto; try lia; discriminate.
  - destruct (num1 <? num2) eqn:C;
    destruct (JS.Date_now w3) as [t1 w4], (JS.Math_random w4) as [r w5],
             (JS.Date_now w5) as [t2 w6], (JS.Date_now w6) as [t3 w7];
    cbn; rewrite ?S, A, Nm; repeat split; auto; try lia; discriminate.
  - unfold JS.bind.
    pose proof (getRandomNumber_range _ _ w3 R2) as M1.
    destruct (getRandomNumber (minNumber _) (Z.min _ 20) w3) as [n1 w3'];
      cbn [fst] in M1.
    pose proof (getRandomNumber_range _ _ w3' R2) as M2.
    destruct (getRandomNumber (minNumber _) (Z.min _ 20) w3') as [n2 w3''];
      cbn [fst] in M2.
    destruct (JS.Date_now w3'') as [t1 w4], (JS.Math_random w4) as [r w5],
             (JS.Date_now w5) as [t2 w6], (JS.Date_now w6) as [t3 w7].
    cbn. rewrite ?S, A, Nm. repeat split; auto; try lia; discriminate.
Qed.

Lemma generateBatch_wellFormed g count difficulty : forall w,
  let d := match difficulty with Some d => d | None => currentDifficulty g end in
  List.length (fst (generateBatch g count difficulty w)) = count
  /\ Forall (wellFormed d) (fst (generateBatch g count difficulty w)).
Proof.
  induction count as [|count IH]; intros w d; simpl.
  - split; auto.
  - unfold JS.bind.
    pose proof (generate_wellFormed g (Some d) w) as W. fold d.
    destruct (generate g (Some d) w) as [q w1]; cbn [fst] in W.
    destruct (IH w1) as [L F].
    destruct (generateBatch g count difficulty w1) as [qs w2]; simpl in *.
    split; auto.
Qed.

End GeneratedQuestions.

(** X12.  Every question [generate] returns, whatever the draws and the
    clock, is well formed for the difficulty asked for (the generator's
    current difficulty when none is given): the operator is one the
    difficulty allows, the operands lie in its range, those of a product do
    not exceed 20, the first operand of a difference is not the smaller,
    the answer is the operator applied to the operands, and the text and
    the operator's name go with them.  Hence no answer is negative or
    larger than 400. *)
Theorem generated_question_is_well_formed :
  forall (g : QuestionGenerator.t) (difficulty : option QuestionGenerator.Difficulty)
         (w : JS.World),
    let d := match difficulty with
             | Some d => d | None => QuestionGenerator.currentDifficulty g end in
    let q := fst (QuestionGenerator.generate g difficulty w) in
    wellFormed d q /\ 0 <= QuestionGenerator.Question.answer q <= 400.
Proof.
  intros g difficulty w d q.
  pose proof (generate_wellFormed g difficulty w) as W. fold d q in W.
  split; auto.
  destruct W as (_ & O & A & B & T & M & E & _). rewrite E.
  destruct (config_ranges d) as [[R0 R1] _]. cbv zeta in R0, R1.
  assert (U : QuestionGenerator.maxNumber (QuestionGenerator.difficultyLevels d) <= 100)
    by (destruct d; simpl; lia).
  destruct (QuestionGenerator.Question.operator q); simpl.
  - lia.
  - specialize (M eq_refl). lia.
  - destruct (T eq_refl). nia.
Qed.

(** X13.  [generateBatch] returns as many questions as asked for, each
    well formed for the difficulty asked for. *)
Theorem batch_has_count_well_formed_questions :
  forall (g : QuestionGenerator.t) (count : nat)
         (difficulty : option QuestionGenerator.Difficulty) (w : JS.World),
    let d := match difficulty with
             | Some d => d | None => QuestionGenerator.currentDifficulty g end in
    let questions := fst (QuestionGenerator.generateBatch g count difficulty w) in
    List.length questions = count /\ Forall (wellFormed d) questions.
Proof. intros g count difficulty w. apply generateBatch_wellFormed. Qed.

(* ================================================================== *)
(** * Answers in decimal notation *)
(* ================================================================== *)

Section DecimalAnswers.

Local Abbreviation text := NilEmpty.string_of_uint.

(* Evaluates the value of the digit at hand. *)
Local Ltac digit :=
  match goal with
  | |- context [JS.digitValue 10 ?c] =>
      let v := eval vm_compute in (JS.digitValue 10 c) in
      change (JS.digitValue 10 c) with v; cbv iota
  end.

Lemma digits_acc d : forall p len,
  JS.digits 10 (Zpos p) len (text d)
  = (Zpos (Pos.of_uint_acc d p), (len + Decimal.nb_digits d)%nat, "").
Proof.
  induction d; intros p len; cbn [text Decimal.nb_digits];
    [ now rewrite Nat.add_0_r | .. ];
    cbn [JS.digits]; digit; cbn [Pos.of_uint_acc];
    match goal with
    | |- JS.digits _ ?a _ _ = (Zpos (Pos.of_uint_acc _ ?q), _, _) =>
        replace a with (Zpos q) by lia
    end;
    rewrite IHd; now rewrite Nat.add_succ_r.
Qed.

Lemma digits_uint d : forall len,
  JS.digits 10 0 len (text d)
  = (Z.of_N (Pos.of_uint d), (len + Decimal.nb_digits d)%nat, "").
Proof.
  induction d; intros len; cbn [text Decimal.nb_digits Pos.of_uint];
    [ now rewrite Nat.add_0_r | .. ];
    cbn [JS.digits]; digit;
    [ change (10 * 0 + 0) with 0; rewrite IHd; now rewrite Nat.add_succ_r | .. ];
    match goal with
    | |- JS.digits _ ?a _ _ = (Z.of_N (N.pos (Pos.of_uint_acc _ ?q)), _, _) =>
        change a with (Zpos q)
    end;
    rewrite digits_acc; now rewrite Nat.add_succ_r.
Qed.

Lemma unsignedDecimal_text d :
  d <> Decimal.Nil ->
  JS.unsignedDecimal (text d)
  = JS.Finite (inject_Z (Z.of_N (Pos.of_uint d)) * 1).
Proof.
  intros N. unfold JS.unsignedDecimal.
  replace (String.eqb (text d) "Infinity") with false by (now destruct d).
  rewrite digits_uint.
  destruct d; [congruence | ..]; reflexivity.
Qed.

Lemma numericLiteral_text d :
  d <> Decimal.Nil -> JS.numericLiteral (text d) = JS.unsignedDecimal (text d).
Proof.
  intros N. destruct d as [|d|d|d|d|d|d|d|d|d|d]; try congruence; try reflexivity.
  destruct d; reflexivity.
Qed.

Lemma trimEnd_text d : JS.trimEnd (text d) = text d.
Proof.
  induction d; cbn [text JS.trimEnd]; try reflexivity;
    rewrite IHd; now destruct (text d).
Qed.

Lemma trim_text d : JS.trim (text d) = text d.
Proof.
  unfold JS.trim.
  replace (JS.trimStart (text d)) with (text d) by (now destruct d).
  apply trimEnd_text.
Qed.

Lemma text_not_empty d : d <> Decimal.Nil -> exists c r, text d = String c r.
Proof. destruct d; [congruence | ..]; intros _; cbn [text]; eauto. Qed.

Lemma StringToNumber_trimmed s c r :
  JS.trim s = s -> s = String c r -> JS.StringToNumber s = JS.numericLiteral s.
Proof. intros T E. unfold JS.StringToNumber. rewrite T, E. reflexivity. Qed.

Lemma StringToNumber_text d :
  d <> Decimal.Nil ->
  JS.StringToNumber (text d) = JS.Finite (inject_Z (Z.of_N (Pos.of_uint d)) * 1).
Proof.
  intros N. destruct (text_not_empty d N) as (c & r & E).
  rewrite (StringToNumber_trimmed _ c r (trim_text d) E).
  now rewrite numericLiteral_text, unsignedDecimal_text.
Qed.

Lemma StringToNumber_minus_text d :
  d <> Decimal.Nil ->
  JS.StringToNumber (String "-" (text d))
  = JS.Finite (- (inject_Z (Z.of_N (Pos.of_uint d)) * 1)).
Proof.
  intros N. destruct (text_not_empty d N) as (c & r & E).
  rewrite (StringToNumber_trimmed _ "-" (text d)); [| |reflexivity].
  - cbn [JS.numericLiteral]. now rewrite unsignedDecimal_text.
  - unfold JS.trim.
    change (JS.trimStart (String "-" (text d))) with (String "-" (text d)).
    cbn [JS.trimEnd]. rewrite trimEnd_text, E. reflexivity.
Qed.

Lemma to_uint_not_Nil p : Pos.to_uint p <> Decimal.Nil.
Proof.
  intros E. pose proof (DecimalPos.Unsigned.of_to p) as H.
  rewrite E in H. discriminate.
Qed.

(** The text of an integer reads back as that integer. *)
Lemma Number_decimal n :
  exists q, JS.Number (JS.Str (JS.decimal n)) = JS.Finite q /\ (q == inject_Z n)%Q.
Proof.
  unfold JS.decimal. destruct n as [|p|p]; cbn [Z.to_int NilZero.string_of_int JS.Number].
  - eexists. split; [reflexivity|reflexivity].
  - pose proof (to_uint_not_Nil p) as N.
    replace (NilZero.string_of_uint (Pos.to_uint p)) with (text (Pos.to_uint p))
      by (destruct (Pos.to_uint p); [congruence | ..]; reflexivity).
    rewrite StringToNumber_text, DecimalPos.Unsigned.of_to by assumption.
    eexists. split; [reflexivity|]. cbn [Z.of_N]. ring.
  - pose proof (to_uint_not_Nil p) as N.
    replace (NilZero.string_of_uint (Pos.to_uint p)) with (text (Pos.to_uint p))
      by (destruct (Pos.to_uint p); [congruence | ..]; reflexivity).
    rewrite StringToNumber_minus_text, DecimalPos.Unsigned.of_to by assumption.
    eexists. split; [reflexivity|]. cbn [Z.of_N].
    change (Z.neg p) with (- Z.pos p). rewrite inject_Z_opp. ring.
Qed.

Lemma decimal_not_empty n : exists c r, JS.decimal n = String c r.
Proof.
  unfold JS.decimal. destruct n as [|p|p]; cbn [Z.to_int NilZero.string_of_int].
  - cbn. eauto.
  - pose proof (to_uint_not_Nil p) as N.
    destruct (Pos.to_uint p); [congruence | ..]; cbn; eauto.
  - eauto.
Qed.

(** Two integers are closer than a ten-thousandth only when equal. *)
Lemma close_integers q n m :
  (q == inject_Z n)%Q ->
  JS.Qltb (Qabs (q - inject_Z m)) (1 # 10000) = (n =? m).
Proof.
  intros E. unfold JS.Qltb.
  assert (H : (1 # 10000 <= Qabs (q - inject_Z m))%Q <-> n <> m).
  { rewrite E. unfold Qle, Qabs, Qminus, Qplus, Qopp, inject_Z. cbn. lia. }
  destruct (Qle_bool _ _) eqn:B; destruct (Z.eqb_spec n m) as [->|D]; cbn; auto.
  - apply Qle_bool_iff, H in B. congruence.
  - apply H, Qle_bool_iff in D. congruence.
Qed.

Lemma validate_decimal n m :
  QuestionGenerator.validate (JS.Str (JS.decimal n)) m = (n =? m).
Proof.
  destruct (Number_decimal n) as (q & E & V).
  destruct (decimal_not_empty n) as (c & r & S).
  unfold QuestionGenerator.validate. rewrite S, <- S, E. cbn.
  now apply close_integers.
Qed.

End DecimalAnswers.

(** X14.  On integers [validate] is equality: for a correct answer that is
    a safe integer (below 2^53 in size, where the doubles of the source are
    exact), as every generated answer is, an integer submitted in decimal
    notation, or as a number, is accepted exactly when it is the correct
    answer. *)
Theorem validate_accepts_exactly_the_answer :
  forall n correctAnswer : Z,
    Z.abs correctAnswer < 2 ^ 53 ->
    QuestionGenerator.validate (JS.Str (JS.decimal n)) correctAnswer
    = (n =? correctAnswer)
    /\ QuestionGenerator.validate (JS.Num (JS.Finite (inject_Z n))) correctAnswer
       = (n =? correctAnswer).
Proof.
  intros n m _. split.
  - apply validate_decimal.
  - unfold QuestionGenerator.validate.
    cbn [JS.Number JS.isNaN JS.minus JS.abs JS.lessThan].
    now apply close_integers.
Qed.

(** The answer 52, sent as the client sends it. *)
Lemma validate_accepts_exactly_the_answer_witness :
  QuestionGenerator.validate (JS.Str "52") 52 = true
  /\ QuestionGenerator.validate (JS.Str "51") 52 = false.
Proof.
  split.
  - exact (proj1 (validate_accepts_exactly_the_answer 52 52 eq_refl)).
  - exact (proj1 (validate_accepts_exactly_the_answer 51 52 eq_refl)).
Defined.

(* ================================================================== *)
(** * Statistics of the lifecycle machine *)
(* ================================================================== *)

Section Statistics.
Import StateMachineLogger.

Lemma stateName_inj s s' : stateName s = stateName s' -> s = s'.
Proof. destruct s, s'; simpl; congruence. Qed.

Lemma State_eqb_eq s s' : State_eqb s s' = true <-> s = s'.
Proof. destruct s, s'; simpl; split; congruence. Qed.

Lemma orZero_set counters k v k' :
  orZero (JS.Map.set counters k v) k' = if String.eqb k k' then v else orZero counters k'.
Proof.
  unfold orZero. destruct (String.eqb k k') eqn:E.
  - apply String.eqb_eq in E; subst. now rewrite Map_get_set_same.
  - rewrite Map_get_set_other; auto.
    intros ->. now rewrite String.eqb_refl in E.
Qed.

Lemma totalOf_set counters k v :
  totalOf (JS.Map.set counters k v) = totalOf counters - orZero counters k + v.
Proof.
  unfold totalOf, orZero.
  induction counters as [|[k' v'] m IH]; simpl.
  - lia.
  - destruct (String.eqb k' k); simpl; lia.
Qed.

Lemma stateName_eqb s s' : String.eqb (stateName s) (stateName s') = State_eqb s s'.
Proof. destruct s, s'; reflexivity. Qed.

Lemma countVisits_counts h : forall counters,
  (forall s, orZero (countVisits h counters) (stateName s)
             = orZero counters (stateName s)
               + Z.of_nat (List.length
                   (filter (fun tr => State_eqb (Transition.to tr) s) h)))
  /\ totalOf (countVisits h counters) = totalOf counters + Z.of_nat (List.length h).
Proof.
  induction h as [|tr h IH]; intros counters; cbn [countVisits filter List.length].
  - split; [intros s|]; lia.
  - destruct (IH (JS.Map.set counters (stateName (Transition.to tr))
                    (orZero counters (stateName (Transition.to tr)) + 1))) as [C T].
    split.
    + intros s. rewrite C, orZero_set, stateName_eqb.
      destruct (State_eqb (Transition.to tr) s) eqn:E; cbn [List.length].
      * apply State_eqb_eq in E. subst s. lia.
      * lia.
    + rewrite T, totalOf_set. lia.
Qed.

Lemma transition_numbered m newState context w :
  numbered (stateHistory m) ->
  transitionCount m = Z.of_nat (List.length (stateHistory m)) ->
  numbered (stateHistory (fst (transition m newState context w))).
Proof.
  intros N C.
  destruct (transition_effect m newState context w) as (tr & E & _ & _ & K & _).
  rewrite E. cbn [stateHistory]. unfold numbered in *.
  rewrite map_app, length_app, N. cbn [List.length map].
  rewrite Nat.add_1_r, seq_S, map_app. cbn [map]. rewrite K, C.
  do 2 f_equal. lia.
Qed.

Lemma step_numbered m op w :
  numbered (stateHistory m) ->
  transitionCount m = Z.of_nat (List.length (stateHistory m)) ->
  numbered (stateHistory (fst (step m op w)))
  /\ transitionCount (fst (step m op w))
     = Z.of_nat (List.length (stateHistory (fst (step m op w)))).
Proof.
  intros N C. split.
  - destruct op; cbn [step]; unfold reset, JS.ret; cbn [fst];
      auto using transition_numbered.
  - destruct (step_effect m op w) as (h & _ & H & _ & _ & _ & _ & K).
    rewrite K, H, length_app. lia.
Qed.

Lemma run_numbered ops : forall m w,
  numbered (stateHistory m) ->
  transitionCount m = Z.of_nat (List.length (stateHistory m)) ->
  numbered (stateHistory (fst (run m ops w))).
Proof.
  induction ops as [|op ops IH]; intros m w N C; cbn [run].
  - exact N.
  - unfold JS.bind. destruct (step_numbered m op w N C) as [N1 C1].
    destruct (step m op w) as [m1 w1]. cbn [fst] in *. now apply IH.
Qed.

Lemma linked_last h : forall s tr s',
  linked s (h ++ [tr]) = Some s' -> Transition.to tr = s'.
Proof.
  induction h as [|x h IH]; intros s tr s'; cbn [app linked].
  - destruct (State_eqb _ _); [|discriminate]. congruence.
  - destruct (State_eqb _ _); [|discriminate]. apply IH.
Qed.

Lemma last_record (h : list Transition.t) tr :
  nth_error (h ++ [tr]) (List.length (h ++ [tr]) - 1) = Some tr.
Proof.
  rewrite length_app. cbn [List.length]. rewrite Nat.add_sub.
  rewrite nth_error_app2 by lia. now rewrite Nat.sub_diag.
Qed.

Lemma last_of_history (h : list Transition.t) tr :
  match (h ++ [tr])%list with
  | [] => None
  | _ => nth_error (h ++ [tr]) (List.length (h ++ [tr]) - 1)
  end = Some tr.
Proof.
  destruct (h ++ [tr])%list eqn:E; [now destruct h|].
  rewrite <- E. apply last_record.
Qed.

End Statistics.

(** X15.  The statistics of a machine, after any run of operations on a
    new one, account for every transition: the history's records carry
    the numbers 1, 2, 3, ...; each state's visit count is the number of
    records that lead to it (0 when the state has no counter); the visit
    counts add up to the total of transitions; and the last transition
    reported is absent exactly when nothing was recorded, and otherwise
    leads to the current state and carries the total as its number. *)
Theorem statistics_account_for_every_transition :
  forall (ops : list StateMachineLogger.Op) (w : JS.World),
    let m := fst (StateMachineLogger.run StateMachineLogger.constructor ops w) in
    let stats := StateMachineLogger.getStatistics m in
    numbered (StateMachineLogger.stateHistory m)
    /\ (forall s,
          StateMachineLogger.orZero
            (StateMachineLogger.Statistics.stateVisitCounts stats)
            (StateMachineLogger.stateName s)
          = StateMachineLogger.stateVisitCounts m s)
    /\ totalOf (StateMachineLogger.Statistics.stateVisitCounts stats)
       = StateMachineLogger.Statistics.totalTransitions stats
    /\ match StateMachineLogger.Statistics.lastTransition stats with
       | None =>
           StateMachineLogger.stateHistory m = []
           /\ StateMachineLogger.Statistics.totalTransitions stats = 0
           /\ StateMachineLogger.Statistics.currentState stats = StateMachineLogger.IDLE
       | Some tr =>
           StateMachineLogger.Transition.to tr
           = StateMachineLogger.Statistics.currentState stats
           /\ StateMachineLogger.Transition.transitionNumber tr
              = StateMachineLogger.Statistics.totalTransitions stats
       end.
Proof.
  intros ops w m stats.
  assert (N : numbered (StateMachineLogger.stateHistory m))
    by (apply run_numbered; reflexivity).
  destruct (run_effect ops StateMachineLogger.constructor w)
    as (h & _ & H & _ & L & _ & _ & C).
  fold m in H, L, C. cbn in H, L, C.
  destruct (countVisits_counts (StateMachineLogger.stateHistory m) JS.Map.empty)
    as [V T].
  subst stats. unfold StateMachineLogger.getStatistics.
  cbn [StateMachineLogger.Statistics.stateVisitCounts
       StateMachineLogger.Statistics.totalTransitions
       StateMachineLogger.Statistics.lastTransition
       StateMachineLogger.Statistics.currentState].
  split; [exact N|]. split; [|split].
  - intros s. rewrite V. reflexivity.
  - rewrite T, C, H. reflexivity.
  - rewrite H in N |- *. rewrite C. clear H V T.
    destruct h as [|x h'] using rev_ind.
    + cbn in *. repeat split. now inversion L.
    + clear IHh'. rewrite last_of_history.
      split; [now apply linked_last in L|].
      unfold numbered in N. rewrite map_app, length_app in N. cbn in N.
      rewrite Nat.add_1_r, seq_S, map_app in N. cbn in N.
      apply app_inj_tail in N as [_ N]. rewrite N, length_app. cbn. lia.
Qed.

Section Averages.
Import StateMachineLogger.

Local Abbreviation named := (fun e : string * Z => exists s, fst e = stateName s).

Lemma set_named (m : JS.Map.t Z) s v :
  Forall named m -> Forall named (JS.Map.set m (stateName s) v).
Proof.
  induction m as [|[k' v'] m IH]; cbn [JS.Map.set]; intros F.
  - constructor; [now exists s | constructor].
  - inversion F as [|? ? Hd Tl]; subst.
    destruct (String.eqb k' (stateName s)); constructor; auto.
Qed.

Lemma has_orZero (m : JS.Map.t Z) k :
  JS.Map.has m k = true -> JS.Map.get m k = Some (orZero m k).
Proof. unfold JS.Map.has, orZero. now destruct (JS.Map.get m k). Qed.

Lemma In_has {V} (m : JS.Map.t V) k v : In (k, v) m -> JS.Map.has m k = true.
Proof.
  unfold JS.Map.has. induction m as [|[k' v'] m IH]; cbn [In JS.Map.get].
  - intros [].
  - intros [E|I].
    + inversion E; subst. now rewrite String.eqb_refl.
    + destruct (String.eqb k' k); auto.
Qed.

Lemma get_map_values {V W} (f : string -> V -> W) (m : JS.Map.t V) k :
  JS.Map.get (map (fun '(k, v) => (k, f k v)) m) k = option_map (f k) (JS.Map.get m k).
Proof.
  induction m as [|[k' v'] m IH]; cbn [map JS.Map.get]; auto.
  destruct (String.eqb k' k) eqn:E; auto.
  apply String.eqb_eq in E. now subst.
Qed.

Lemma staysIn_step s current next rest :
  staysIn s (current :: next :: rest)
  = (if State_eqb (Transition.to current) s then 1 else 0) + staysIn s (next :: rest).
Proof. reflexivity. Qed.

Lemma timeIn_step s current next rest :
  timeIn s (current :: next :: rest)
  = (if State_eqb (Transition.to current) s
     then Transition.timestamp next - Transition.timestamp current else 0)
    + timeIn s (next :: rest).
Proof. reflexivity. Qed.

Lemma sumDurations_step current next rest stateTimes stateCounts :
  sumDurations (current :: next :: rest) stateTimes stateCounts
  = let duration := Transition.timestamp next - Transition.timestamp current in
    let key := stateName (Transition.to current) in
    sumDurations (next :: rest)
      (JS.Map.set stateTimes key (orZero stateTimes key + duration))
      (JS.Map.set stateCounts key (orZero stateCounts key + 1)).
Proof. reflexivity. Qed.

Lemma staysIn_not_negative s h : 0 <= staysIn s h.
Proof.
  induction h as [|x [|y h] IH]; [cbn; lia | cbn; lia |].
  rewrite staysIn_step. destruct (State_eqb _ _); lia.
Qed.

Lemma sumDurations_sums h : forall stateTimes stateCounts,
  let r := sumDurations h stateTimes stateCounts in
  (forall s, orZero (fst r) (stateName s)
             = orZero stateTimes (stateName s) + timeIn s h)
  /\ (forall s, orZero (snd r) (stateName s)
                = orZero stateCounts (stateName s) + staysIn s h)
  /\ (forall s, JS.Map.has (fst r) (stateName s)
                = JS.Map.has stateTimes (stateName s) || negb (staysIn s h =? 0))
  /\ (forall s, JS.Map.has (snd r) (stateName s)
                = JS.Map.has stateCounts (stateName s) || negb (staysIn s h =? 0))
  /\ (Forall named stateTimes -> Forall named (fst r)).
Proof.
  induction h as [|current [|next rest] IH]; intros stateTimes stateCounts.
  - cbn. repeat split; intros; rewrite ?orb_false_r; auto; lia.
  - cbn. repeat split; intros; rewrite ?orb_false_r; auto; lia.
  - rewrite sumDurations_step. cbv zeta.
    set (key := stateName (Transition.to current)).
    set (duration := Transition.timestamp next - Transition.timestamp current).
    specialize (IH (JS.Map.set stateTimes key (orZero stateTimes key + duration))
                   (JS.Map.set stateCounts key (orZero stateCounts key + 1))).
    cbv zeta in IH. destruct IH as (T & C & HT & HC & N).
    pose proof (staysIn_not_negative) as P.
    split; [|split; [|split; [|split]]].
    + intros s. rewrite T, orZero_set, timeIn_step. unfold key.
      rewrite stateName_eqb. fold duration.
      destruct (State_eqb (Transition.to current) s) eqn:E; [|lia].
      apply State_eqb_eq in E. subst s. lia.
    + intros s. rewrite C, orZero_set, staysIn_step. unfold key.
      rewrite stateName_eqb.
      destruct (State_eqb (Transition.to current) s) eqn:E; [|lia].
      apply State_eqb_eq in E. subst s. lia.
    + intros s. rewrite HT, Map_has_set, staysIn_step. unfold key.
      rewrite stateName_eqb.
      specialize (P s (next :: rest)).
      destruct (State_eqb (Transition.to current) s); cbn [orb].
      * replace (1 + staysIn s (next :: rest) =? 0) with false
          by (symmetry; apply Z.eqb_neq; lia).
        now rewrite orb_true_r.
      * now rewrite Z.add_0_l.
    + intros s. rewrite HC, Map_has_set, staysIn_step. unfold key.
      rewrite stateName_eqb.
      specialize (P s (next :: rest)).
      destruct (State_eqb (Transition.to current) s); cbn [orb].
      * replace (1 + staysIn s (next :: rest) =? 0) with false
          by (symmetry; apply Z.eqb_neq; lia).
        now rewrite orb_true_r.
      * now rewrite Z.add_0_l.
    + intros F. apply N. now apply set_named.
Qed.

Lemma average_of_stays total count :
  count <> 0 ->
  average total (Some count)
  = JS.Finite (inject_Z (JS.Math_round (inject_Z total / inject_Z count))).
Proof. intros N. unfold average. now destruct (Z.eqb_spec count 0). Qed.

End Averages.

(** The averages in the exact arithmetic of the model. *)
Lemma calculateAverageTimeInStates_exact :
  forall (m : StateMachineLogger.t),
    let h := StateMachineLogger.stateHistory m in
    let averages := StateMachineLogger.calculateAverageTimeInStates m in
    (forall s,
        JS.Map.get averages (StateMachineLogger.stateName s)
        = if staysIn s h =? 0 then None
          else Some (JS.Finite (inject_Z (JS.Math_round
                       (inject_Z (timeIn s h) / inject_Z (staysIn s h))))))
    /\ Forall (fun e => exists s, fst e = StateMachineLogger.stateName s) averages
    /\ Forall (fun e => exists z, snd e = JS.Finite (inject_Z z)) averages.
Proof.
  intros m h averages. subst averages.
  unfold StateMachineLogger.calculateAverageTimeInStates. fold h.
  pose proof (sumDurations_sums h JS.Map.empty JS.Map.empty) as S.
  cbv zeta in S.
  destruct (StateMachineLogger.sumDurations h JS.Map.empty JS.Map.empty)
    as [stateTimes stateCounts].
  cbn [fst snd] in S. destruct S as (T & C & HT & HC & N).
  unfold JS.Map.entries.
  assert (V : forall s, (staysIn s h =? 0) = false ->
            forall total,
              StateMachineLogger.average total
                (JS.Map.get stateCounts (StateMachineLogger.stateName s))
              = JS.Finite (inject_Z (JS.Math_round
                  (inject_Z total / inject_Z (staysIn s h))))).
  { intros s Z total.
    rewrite has_orZero by (rewrite HC, Z; reflexivity).
    rewrite C. cbn. apply average_of_stays. lia. }
  split; [|split].
  - intros s.
    rewrite (get_map_values
               (fun state total =>
                  StateMachineLogger.average total (JS.Map.get stateCounts state))).
    destruct (staysIn s h =? 0) eqn:Z.
    + specialize (HT s). rewrite Z in HT. cbn in HT.
      unfold JS.Map.has in HT.
      now destruct (JS.Map.get stateTimes (StateMachineLogger.stateName s)).
    + rewrite (has_orZero stateTimes) by (rewrite HT, Z; reflexivity).
      cbn [option_map]. rewrite V by assumption. rewrite T. reflexivity.
  - specialize (N (Forall_nil _)).
    apply Forall_forall. intros [k v] I. apply in_map_iff in I as ([k' v'] & E & I).
    inversion E; subst.
    rewrite Forall_forall in N. apply (N _ I).
  - specialize (N (Forall_nil _)).
    apply Forall_forall. intros [k v] I. apply in_map_iff in I as ([k' total] & E & I).
    inversion E; subst. cbn [snd].
    rewrite Forall_forall in N. destruct (N _ I) as [s K]. cbn [fst] in K. subst k.
    apply In_has in I. rewrite HT in I. cbn in I.
    destruct (staysIn s h =? 0) eqn:Z; [discriminate|].
    rewrite V by assumption. eauto.
Qed.

Section StayTimes.
Import StateMachineLogger.

(** With ascending timestamps the stays in a state take no longer than
    the history. *)
Lemma timeIn_bounds s bound h :
  ascending Transition.timestamp h ->
  Forall (fun tr => Transition.timestamp tr <= bound) h ->
  0 <= timeIn s h
  /\ timeIn s h <= bound - match h with tr :: _ => Transition.timestamp tr | [] => bound end.
Proof.
  induction h as [|current [|next rest] IH]; intros A F.
  - cbn. lia.
  - cbn. inversion F; subst. lia.
  - rewrite timeIn_step. destruct A as [D A].
    inversion F as [|? ? B F']; subst.
    destruct (IH A F') as [L U].
    inversion F' as [|? ? B' _]; subst.
    destruct (State_eqb _ _); lia.
Qed.

Lemma Math_round_not_negative total count :
  0 <= total -> 0 < count ->
  0 <= JS.Math_round (inject_Z total / inject_Z count).
Proof.
  intros T C. unfold JS.Math_round.
  change 0 with (Qfloor (inject_Z 0)). apply Qfloor_resp_le.
  unfold Qle, Qdiv, Qmult, Qplus, Qinv, inject_Z.
  destruct count as [|p|p]; try lia. cbn. nia.
Qed.

End StayTimes.

(** X16.  The averages [calculateAverageTimeInStates] reports, for any
    history.  A state has an average exactly when the history shows a
    complete stay in it (a record leading to it that is not the last); the
    object holds nothing but states, and every value in it is a finite
    integer, never NaN or an infinity.  Where the timestamps ascend and lie
    between 0 and 2^51 (so that the doubles of the source are exact), the
    time of the stays in a state lies in that range too, and the state's
    average is that time divided by the number of the stays, rounded to the
    nearest integer, and not negative. *)
Theorem averages_are_rounded_mean_stays :
  forall (m : StateMachineLogger.t),
    let h := StateMachineLogger.stateHistory m in
    let averages := StateMachineLogger.calculateAverageTimeInStates m in
    (forall s,
        JS.Map.has averages (StateMachineLogger.stateName s)
        = negb (staysIn s h =? 0))
    /\ Forall (fun e => exists s, fst e = StateMachineLogger.stateName s) averages
    /\ Forall (fun e => exists z, snd e = JS.Finite (inject_Z z)) averages
    /\ (ascending StateMachineLogger.Transition.timestamp h ->
        Forall (fun tr => 0 <= StateMachineLogger.Transition.timestamp tr < 2 ^ 51) h ->
        forall s,
          0 <= timeIn s h < 2 ^ 51
          /\ (staysIn s h <> 0 ->
              let mean :=
                JS.Math_round (inject_Z (timeIn s h) / inject_Z (staysIn s h)) in
              JS.Map.get averages (StateMachineLogger.stateName s)
              = Some (JS.Finite (inject_Z mean))
              /\ 0 <= mean)).
Proof.
  intros m h averages.
  destruct (calculateAverageTimeInStates_exact m) as (G & K & V).
  fold h averages in G, K, V.
  split; [|split; [exact K|split; [exact V|]]].
  - intros s. unfold JS.Map.has. rewrite G. now destruct (staysIn s h =? 0).
  - intros A F s.
    assert (B : 0 <= timeIn s h < 2 ^ 51).
    { destruct (timeIn_bounds s (2 ^ 51 - 1) h A) as [L U].
      - eapply Forall_impl; [|exact F]. cbn beta. intros tr. lia.
      - split; [exact L|].
        destruct h as [|tr h']; [lia|].
        inversion F; subst. lia. }
    split; [exact B|].
    intros N mean. subst mean. rewrite G.
    destruct (Z.eqb_spec (staysIn s h) 0) as [E|_]; [congruence|].
    split; [reflexivity|].
    apply Math_round_not_negative; [lia|].
    pose proof (staysIn_not_negative s h). lia.
Qed.

(* ================================================================== *)
(** * The handlers: what is sent, and to whom *)
(* ================================================================== *)

Section Replies.
Import socketHandlers.

Lemma sendCurrentQuestionToUser_asks h socketId w :
  let r := sendCurrentQuestionToUser h socketId w in
  hubOf r = h
  /\ forall e, senderOf e = Some socketId ->
               forallb (wellAddressed e) (effectsOf r) = true
               /\ existsb tooLate (effectsOf r) = false.
Proof.
  unfold sendCurrentQuestionToUser, JS.bind, hubOf, effectsOf.
  destruct (StateManager.getCurrentQuestion (stateManager h));
    destruct (JS.Date_now w) as [now w1]; cbn;
    (split; [reflexivity|]); intros e ->; now rewrite String.eqb_refl.
Qed.

Lemma handleAnswerSubmission_replies h socketId data w :
  let r := handleAnswerSubmission h socketId data w in
  forallb (wellAddressed (submit_answer socketId data)) (effectsOf r) = true
  /\ existsb tooLate (effectsOf r) = false.
Proof.
  unfold handleAnswerSubmission, JS.bind, effectsOf.
  destruct (JS.Date_now w) as [timestamp w1]; cbn [fst snd].
  destruct (emptyAnswer (answer data));
    [cbn; now rewrite String.eqb_refl|].
  unfold StateManager.recordSubmission, StateManager.getCurrentQuestion.
  destruct (StateManager.isLocked (stateManager h)) eqn:L;
    [cbn; now rewrite String.eqb_refl|].
  destruct (StateManager.hasSubmitted (stateManager h) socketId);
    [cbn; now rewrite String.eqb_refl|].
  destruct (StateManager.currentQuestion (stateManager h)) as [q|] eqn:Q;
    [|cbn; now rewrite String.eqb_refl].
  destruct (JS.toISOString timestamp) as [iso|e]; [|cbn; auto].
  cbn [StateManager.currentQuestion].
  unfold StateManager.attemptWin. cbn [StateManager.isLocked]. rewrite ?L.
  destruct (QuestionGenerator.validate (answer data) (Question.answer q)).
  - destruct (StateMachineLogger.transition _ _ _ w1) as [machine w2].
    unfold StateManager.getSubmission. cbn [StateManager.submissions].
    rewrite Map_get_set_same. cbn. now rewrite String.eqb_refl.
  - cbn. now rewrite String.eqb_refl.
Qed.

Lemma generateNewQuestion_replies h difficulty w :
  let r := generateNewQuestion h difficulty w in
  forall e, forallb (wellAddressed e) (effectsOf r) = true
            /\ existsb tooLate (effectsOf r) = false.
Proof.
  unfold generateNewQuestion, JS.bind, effectsOf.
  destruct (QuestionGenerator.generate _ _ w) as [q w1].
  destruct (StateMachineLogger.transition _ _ _ w1) as [machine w2].
  destruct (JS.Date_now w2). cbn. auto.
Qed.

Lemma handle_replies h e w :
  let r := handle h e w in
  forallb (wellAddressed e) (effectsOf r) = true
  /\ existsb tooLate (effectsOf r) = false
  /\ (onlyAsks e = true -> hubOf r = h).
Proof.
  destruct e; cbn [handle onlyAsks].
  - destruct (sendCurrentQuestionToUser_asks h socketId w) as [H A].
    destruct (A (connection socketId) eq_refl). auto.
  - destruct (handleAnswerSubmission_replies h socketId data w).
    repeat split; auto; discriminate.
  - destruct (sendCurrentQuestionToUser_asks h socketId w) as [H A].
    destruct (A (request_question socketId) eq_refl). auto.
  - cbn. auto.
  - destruct callback; cbn [fire].
    + unfold JS.bind, effectsOf.
      destruct (StateMachineLogger.transition _ _ _ w). cbn.
      repeat split; auto; discriminate.
    + destruct (generateNewQuestion_replies h None w
                  (timeout NextQuestion)).
      repeat split; auto; discriminate.
  - unfold forceNewQuestion, JS.bind.
    pose proof (generateNewQuestion_replies h difficulty w (force difficulty)) as G.
    unfold effectsOf in *.
    destruct (generateNewQuestion h difficulty w) as [[[h1 effects] c] w1].
    cbn in *. destruct G. repeat split; auto; discriminate.
  - cbn. repeat split; auto; discriminate.
Qed.

End Replies.


(** X18.  A correct answer is never told that somebody else was first: a
    submission is examined only on a round that is still open, where a
    correct answer wins, so the reply [submission-result] with [correct]
    set is never sent, whatever the state the server starts in and
    whatever the events. *)
Theorem correct_answer_is_never_too_late :
  forall (h : socketHandlers.t) (events : list socketHandlers.Inbound) (w : JS.World),
    existsb tooLate (effectsOf (socketHandlers.serve h events w)) = false.
Proof.
  intros h events. revert h.
  induction events as [|e events IH]; intros h w; cbn [socketHandlers.serve].
  - reflexivity.
  - unfold JS.bind. destruct (handle_replies h e w) as (_ & T & _).
    unfold effectsOf in *.
    destruct (socketHandlers.handle h e w) as [[[h1 effects1] c1] w1]. cbn in T.
    destruct c1 as [u|err]; [|exact T].
    specialize (IH h1 w1).
    destruct (socketHandlers.serve h1 events w1) as [[[h2 effects2] c2] w2].
    cbn in *. now rewrite existsb_app, T, IH.
Qed.

(* ================================================================== *)
(** * The handlers: an answer on an open round, and a new question *)
(* ================================================================== *)

(** X19.  An answer that is not empty, from a connection that has not
    answered yet, on a round that is open: the submission is stored under
    the server's time, and the answer's correctness alone decides the
    rest.  A correct answer makes its sender the winner and locks the
    round; the winner is announced to all with the submission's time, the
    sender is congratulated, the lifecycle machine goes to LOCKED, and the
    two timers are armed after the old one is cleared.  A wrong answer is
    told so, to its sender alone, and leaves the round open, the machine
    and the timers as they were. *)
Theorem answer_on_open_round :
  forall (h : socketHandlers.t) (socketId : string) (data : socketHandlers.Data)
         (w : JS.World) (q : QuestionGenerator.Question.t),
    StateManager.getCurrentQuestion (socketHandlers.stateManager h) = Some q ->
    StateManager.isQuestionLocked (socketHandlers.stateManager h) = false ->
    StateManager.hasSubmitted (socketHandlers.stateManager h) socketId = false ->
    socketHandlers.emptyAnswer (socketHandlers.answer data) = false ->
    let r := socketHandlers.handleAnswerSubmission h socketId data w in
    let now := fst (JS.Date_now w) in
    let h' := hubOf r in
    let sm := socketHandlers.stateManager h' in
    (exists sub,
        StateManager.getSubmission sm socketId = Some sub
        /\ StateManager.Submission.answer sub = socketHandlers.answer data
        /\ StateManager.Submission.timestamp sub = now)
    /\ StateManager.getCurrentQuestion sm = Some q
    /\ if QuestionGenerator.validate (socketHandlers.answer data)
            (QuestionGenerator.Question.answer q)
       then
         StateManager.getWinner sm = Some socketId
         /\ StateManager.isQuestionLocked sm = true
         /\ StateMachineLogger.getCurrentState (socketHandlers.stateMachine h')
            = StateMachineLogger.LOCKED
         /\ socketHandlers.questionTimeout h' = Some (socketHandlers.timers h + 1)
         /\ effectsOf r
            = [ socketHandlers.IoEmit
                  (socketHandlers.winner_declared socketId
                     (QuestionGenerator.Question.answer q)
                     (QuestionGenerator.Question.question q)
                     (QuestionGenerator.Question.id q)
                     now socketHandlers.WINNER_DISPLAY_DURATION now);
                socketHandlers.SocketEmit socketId
                  (socketHandlers.you_won "Congratulations! You got it right first!"
                     (QuestionGenerator.Question.answer q)
                     (QuestionGenerator.Question.question q) now);
                socketHandlers.SetTimeout (socketHandlers.timers h)
                  socketHandlers.ToTransitioning 100;
                socketHandlers.ClearTimeout (socketHandlers.questionTimeout h);
                socketHandlers.SetTimeout (socketHandlers.timers h + 1)
                  socketHandlers.NextQuestion socketHandlers.WINNER_DISPLAY_DURATION ]
       else
         StateManager.getWinner sm = StateManager.getWinner (socketHandlers.stateManager h)
         /\ StateManager.isQuestionLocked sm = false
         /\ socketHandlers.stateMachine h' = socketHandlers.stateMachine h
         /\ socketHandlers.questionTimeout h' = socketHandlers.questionTimeout h
         /\ socketHandlers.timers h' = socketHandlers.timers h
         /\ effectsOf r
            = [ socketHandlers.SocketEmit socketId
                  (socketHandlers.submission_result false false
                     "Incorrect answer. Keep trying!" now) ].
Proof.
  intros h socketId data w q Q L S E r now h' sm.
  subst sm h' r now.
  unfold StateManager.getCurrentQuestion, StateManager.isQuestionLocked,
    StateManager.getWinner, StateManager.getSubmission in *.
  unfold socketHandlers.handleAnswerSubmission, JS.bind, hubOf, effectsOf.
  pose proof (Date_now_valid w) as T.
  destruct (JS.Date_now w) as [timestamp w1]; cbn [fst snd] in *.
  rewrite E.
  unfold StateManager.recordSubmission, StateManager.getCurrentQuestion.
  rewrite L, S, Q.
  destruct (toISOString_valid timestamp T) as [iso ->].
  cbn [StateManager.currentQuestion].
  unfold StateManager.attemptWin. cbn [StateManager.isLocked]. rewrite ?L.
  destruct (QuestionGenerator.validate (socketHandlers.answer data)
              (QuestionGenerator.Question.answer q)).
  - destruct (transition_effect (socketHandlers.stateMachine h)
                StateMachineLogger.LOCKED
                [("winnerId", JS.Str socketId);
                 ("question", JS.Str (QuestionGenerator.Question.question q));
                 ("answer", socketHandlers.number (QuestionGenerator.Question.answer q))]
                w1) as (tr & M & _).
    destruct (StateMachineLogger.transition _ _ _ w1) as [machine w2].
    cbn [fst] in M. subst machine.
    unfold StateManager.getSubmission. cbn [StateManager.submissions].
    rewrite Map_get_set_same. cbn.
    rewrite Map_get_set_same.
    split; [eexists; split; [reflexivity|split; reflexivity]|].
    repeat split.
  - cbn. rewrite Map_get_set_same.
    split; [eexists; split; [reflexivity|split; reflexivity]|].
    repeat split.
Qed.

(** The first question of [Samples.noon] is answered by A with 52. *)
Lemma answer_on_open_round_witness :
  let start := socketHandlers.setupSocketHandlers Samples.noon in
  let data := {| socketHandlers.answer := JS.Str "52" |} in
  let r := socketHandlers.handleAnswerSubmission (hubOf start) "A" data (snd start) in
  StateManager.getWinner (socketHandlers.stateManager (hubOf r)) = Some "A".
Proof.
  intros start data r.
  destruct (StateManager.getCurrentQuestion (socketHandlers.stateManager (hubOf start)))
    as [q|] eqn:Q; [|vm_compute in Q; discriminate].
  assert (V : QuestionGenerator.validate (socketHandlers.answer data)
                (QuestionGenerator.Question.answer q) = true).
  { vm_compute in Q. inversion Q. vm_compute. reflexivity. }
  pose proof (answer_on_open_round (hubOf start) "A" data (snd start) q Q
                eq_refl eq_refl eq_refl) as (_ & _ & W).
  rewrite V in W. exact (proj1 W).
Defined.

Section Quiet.
Import QuestionGenerator.

(* Reads one result of the world and keeps what is known of its warnings. *)
Local Ltac read :=
  match goal with
  | |- context [getRandomNumber ?a ?b ?w] =>
      let W := fresh "W" in
      assert (W : JS.warnings (snd (getRandomNumber a b w)) = JS.warnings w)
        by reflexivity;
      destruct (getRandomNumber a b w) as [? ?]; cbn [snd] in W
  | |- context [getRandomOperator ?g ?d ?w] =>
      let W := fresh "W" in
      assert (W : JS.warnings (snd (getRandomOperator g d w)) = JS.warnings w)
        by reflexivity;
      destruct (getRandomOperator g d w) as [? ?]; cbn [snd] in W
  | |- context [JS.Date_now ?w] =>
      let W := fresh "W" in
      assert (W : JS.warnings (snd (JS.Date_now w)) = JS.warnings w)
        by reflexivity;
      destruct (JS.Date_now w) as [? ?]; cbn [snd] in W
  | |- context [JS.Math_random ?w] =>
      let W := fresh "W" in
      assert (W : JS.warnings (snd (JS.Math_random w)) = JS.warnings w)
        by reflexivity;
      destruct (JS.Math_random w) as [? ?]; cbn [snd] in W
  end.

(** Generating a question writes no warning. *)
Lemma generate_warnings g difficulty w :
  JS.warnings (snd (generate g difficulty w)) = JS.warnings w.
Proof.
  unfold generate, JS.bind.
  do 3 read.
  match goal with
  | |- context [Symbol_eqb (symbol ?o) Minus] => destruct (symbol o)
  end; cbn [Symbol_eqb andb].
  - repeat read. cbn. congruence.
  - match goal with |- context [?a <? ?b] => destruct (a <? b) end;
      repeat read; cbn; congruence.
  - unfold JS.bind. repeat read. cbn. congruence.
Qed.

End Quiet.

Section NewQuestion.
Import socketHandlers.

(** What [generateNewQuestion] leaves behind. *)
Lemma generateNewQuestion_effect h difficulty w :
  let d := match difficulty with Some d => d | None => DEFAULT_DIFFICULTY end in
  let r := generateNewQuestion h difficulty w in
  exists q tr now,
    hubOf r
    = {| questionGenerator := questionGenerator h;
         stateManager := StateManager.setQuestion (stateManager h) q;
         stateMachine :=
           {| StateMachineLogger.currentState := StateMachineLogger.ACTIVE;
              StateMachineLogger.stateHistory :=
                (StateMachineLogger.stateHistory (stateMachine h) ++ [tr])%list;
              StateMachineLogger.transitionCount :=
                StateMachineLogger.transitionCount (stateMachine h) + 1 |};
         questionTimeout := questionTimeout h;
         timers := timers h |}
    /\ wellFormed d q
    /\ StateMachineLogger.Transition.from tr
       = StateMachineLogger.currentState (stateMachine h)
    /\ StateMachineLogger.Transition.to tr = StateMachineLogger.ACTIVE
    /\ effectsOf r
       = [IoEmit (new_question (Question.question q) (Question.id q)
                    (Question.difficulty q) now)]
    /\ JS.warnings (snd r)
       = (JS.warnings w
          ++ (if StateMachineLogger.allowed tr then []
              else [StateMachineLogger.invalidTransitionMessage
                      (StateMachineLogger.currentState (stateMachine h))
                      StateMachineLogger.ACTIVE]))%list.
Proof.
  intros d r. subst r. unfold generateNewQuestion, JS.bind, hubOf, effectsOf.
  fold d.
  pose proof (generate_wellFormed (questionGenerator h) (Some d) w) as F.
  pose proof (generate_warnings (questionGenerator h) (Some d) w) as W.
  destruct (QuestionGenerator.generate (questionGenerator h) (Some d) w) as [q w1].
  cbn [fst snd] in F, W.
  match goal with
  | |- context [StateMachineLogger.transition ?m ?s ?c w1] =>
      destruct (transition_effect m s c w1) as (tr & M & Hf & Ht & _ & _ & Hw);
      destruct (StateMachineLogger.transition m s c w1) as [machine w2]
  end.
  cbn [fst snd] in M, Hw. subst machine.
  assert (W2 : JS.warnings (snd (JS.Date_now w2)) = JS.warnings w2) by reflexivity.
  destruct (JS.Date_now w2) as [now w3]. cbn [fst snd] in *.
  exists q, tr, now. unfold JS.ret. cbn [fst snd].
  rewrite W2, Hw, W.
  split; [reflexivity|]. split; [exact F|]. repeat split; auto.
Qed.

End NewQuestion.

(** X20.  A new question opens a fresh round.  [generateNewQuestion]
    installs a question that is well formed for the difficulty asked for,
    or for medium when none is given, whatever the generator's own current
    difficulty; the round has no winner, no lock and no submission; the
    lifecycle machine is ACTIVE; the timers are as they were; and the one
    thing sent is the broadcast of the installed question's text,
    identifier and difficulty. *)
Theorem new_question_opens_a_fresh_round :
  forall (h : socketHandlers.t) (difficulty : option QuestionGenerator.Difficulty)
         (w : JS.World),
    let d := match difficulty with
             | Some d => d | None => QuestionGenerator.medium end in
    let r := socketHandlers.generateNewQuestion h difficulty w in
    let h' := hubOf r in
    let sm := socketHandlers.stateManager h' in
    exists q now,
      StateManager.getCurrentQuestion sm = Some q
      /\ wellFormed d q
      /\ StateManager.getWinner sm = None
      /\ StateManager.isQuestionLocked sm = false
      /\ (forall socketId, StateManager.hasSubmitted sm socketId = false)
      /\ snd (StateManager.getSubmissionsInOrder sm) = []
      /\ StateMachineLogger.getCurrentState (socketHandlers.stateMachine h')
         = StateMachineLogger.ACTIVE
      /\ socketHandlers.questionTimeout h' = socketHandlers.questionTimeout h
      /\ socketHandlers.timers h' = socketHandlers.timers h
      /\ effectsOf r
         = [socketHandlers.IoEmit
              (socketHandlers.new_question
                 (QuestionGenerator.Question.question q)
                 (QuestionGenerator.Question.id q)
                 (QuestionGenerator.Question.difficulty q) now)].
Proof.
  intros h difficulty w d r h' sm.
  destruct (generateNewQuestion_effect h difficulty w)
    as (q & tr & now & H & F & _ & _ & E & _).
  exists q, now. subst sm h' r. rewrite H, E.
  split; [reflexivity|]. split; [exact F|]. repeat split; auto.
Qed.

Section AlwaysAQuestion.
Import socketHandlers.

Local Abbreviation asked h := (StateManager.currentQuestion (stateManager h) <> None).

Lemma handleAnswerSubmission_asked h socketId data w :
  asked h ->
  let r := handleAnswerSubmission h socketId data w in
  asked (hubOf r) /\ existsb noQuestionReply (effectsOf r) = false.
Proof.
  intros Q. unfold handleAnswerSubmission, JS.bind, hubOf, effectsOf.
  destruct (JS.Date_now w) as [timestamp w1]; cbn [fst snd].
  destruct (emptyAnswer (answer data)); [cbn; auto|].
  unfold StateManager.recordSubmission, StateManager.getCurrentQuestion.
  destruct (StateManager.isLocked (stateManager h)) eqn:L; [cbn; auto|].
  destruct (StateManager.hasSubmitted (stateManager h) socketId); [cbn; auto|].
  destruct (StateManager.currentQuestion (stateManager h)) as [q|] eqn:E;
    [|congruence].
  destruct (JS.toISOString timestamp) as [iso|e];
    [|cbn; rewrite E; split; [discriminate|reflexivity]].
  cbn [StateManager.currentQuestion].
  unfold StateManager.attemptWin. cbn [StateManager.isLocked]. rewrite ?L.
  destruct (QuestionGenerator.validate (answer data) (Question.answer q)).
  - destruct (StateMachineLogger.transition _ _ _ w1) as [machine w2].
    unfold StateManager.getSubmission. cbn [StateManager.submissions].
    rewrite Map_get_set_same. cbn. split; [discriminate|reflexivity].
  - cbn. split; [discriminate|reflexivity].
Qed.

Lemma handle_asked h e w :
  resets e = false ->
  asked h ->
  let r := handle h e w in
  asked (hubOf r) /\ existsb noQuestionReply (effectsOf r) = false.
Proof.
  intros R Q. destruct e; cbn [handle]; try discriminate.
  - unfold sendCurrentQuestionToUser, StateManager.getCurrentQuestion,
      JS.bind, hubOf, effectsOf.
    destruct (StateManager.currentQuestion (stateManager h)) eqn:E; [|congruence].
    destruct (JS.Date_now w). cbn. rewrite E. split; [discriminate|reflexivity].
  - now apply handleAnswerSubmission_asked.
  - unfold sendCurrentQuestionToUser, StateManager.getCurrentQuestion,
      JS.bind, hubOf, effectsOf.
    destruct (StateManager.currentQuestion (stateManager h)) eqn:E; [|congruence].
    destruct (JS.Date_now w). cbn. rewrite E. split; [discriminate|reflexivity].
  - cbn. auto.
  - destruct callback; cbn [fire].
    + unfold JS.bind, hubOf, effectsOf.
      destruct (StateMachineLogger.transition _ _ _ w). cbn. auto.
    + destruct (generateNewQuestion_effect h None w)
        as (q & tr & now & H & _ & _ & _ & E & _).
      rewrite H, E. cbn. split; [discriminate|reflexivity].
  - unfold forceNewQuestion, JS.bind.
    destruct (generateNewQuestion_effect h difficulty w)
      as (q & tr & now & H & _ & _ & _ & E & _).
    unfold hubOf, effectsOf in *.
    destruct (generateNewQuestion h difficulty w) as [[[h1 effects] c] w1].
    cbn in *. subst. cbn. split; [discriminate|reflexivity].
Qed.

Lemma serve_asked events : forall h w,
  forallb (fun e => negb (resets e)) events = true ->
  asked h ->
  let r := serve h events w in
  asked (hubOf r) /\ existsb noQuestionReply (effectsOf r) = false.
Proof.
  induction events as [|e events IH]; intros h w R Q; cbn [serve].
  - cbn. auto.
  - cbn [forallb] in R. apply andb_prop in R as [R1 R2].
    apply negb_true_iff in R1.
    unfold JS.bind. destruct (handle_asked h e w R1 Q) as [Q1 N1].
    unfold hubOf, effectsOf in *.
    destruct (handle h e w) as [[[h1 effects1] c1] w1]. cbn [fst snd] in *.
    destruct c1 as [u|err]; [|cbn; auto].
    destruct (IH h1 w1 R2 Q1) as [Q2 N2].
    destruct (serve h1 events w1) as [[[h2 effects2] c2] w2]. cbn [fst snd] in *.
    unfold JS.ret. cbn [fst snd].
    split; auto. now rewrite existsb_app, N1, N2.
Qed.

End AlwaysAQuestion.

(** X21.  Once there is a question there always is one, as long as the
    quiz is not reset: after any events but the reset the server still has
    a current question, and it has told nobody to wait for a question nor
    rejected an answer for want of one.  The server starts in such a
    state: [setupSocketHandlers] installs the first question. *)
Theorem question_stays_until_reset :
  forall (h : socketHandlers.t) (events : list socketHandlers.Inbound) (w : JS.World),
    StateManager.getCurrentQuestion (socketHandlers.stateManager h) <> None ->
    forallb (fun e => negb (resets e)) events = true ->
    let r := socketHandlers.serve h events w in
    StateManager.getCurrentQuestion (socketHandlers.stateManager (hubOf r)) <> None
    /\ existsb noQuestionReply (effectsOf r) = false
    /\ forall w0,
         StateManager.getCurrentQuestion
           (socketHandlers.stateManager (hubOf (socketHandlers.setupSocketHandlers w0)))
         <> None.
Proof.
  intros h events w Q R r.
  destruct (serve_asked events h w R Q) as [Q' N].
  split; [exact Q'|]. split; [exact N|].
  intros w0. unfold socketHandlers.setupSocketHandlers.
  destruct (generateNewQuestion_effect socketHandlers.initial None w0)
    as (q & tr & now & H & _).
  rewrite H. discriminate.
Qed.

(** From the start of [Samples.noon], through an answer, a request and
    both timers. *)
Lemma question_stays_until_reset_witness :
  let start := socketHandlers.setupSocketHandlers Samples.noon in
  let events :=
    [socketHandlers.submit_answer "A" {| socketHandlers.answer := JS.Str "52" |};
     socketHandlers.request_question "B";
     socketHandlers.timeout socketHandlers.ToTransitioning;
     socketHandlers.timeout socketHandlers.NextQuestion;
     socketHandlers.connection "C"] in
  let r := socketHandlers.serve (hubOf start) events (snd start) in
  existsb noQuestionReply (effectsOf r) = false.
Proof.
  intros start events r.
  refine (proj1 (proj2 (question_stays_until_reset (hubOf start) events (snd start) _ _))).
  - vm_compute. discriminate.
  - reflexivity.
Defined.

(* ================================================================== *)
(** * The lifecycle of a question in a run of the server *)
(* ================================================================== *)

Section QuestionLifecycle.
Import socketHandlers.

(** The question timer on record is one that was armed. *)
Local Abbreviation armedBefore h :=
  (match questionTimeout h with Some i => i < timers h | None => True end).

(** A handler call that arms no timer and leaves the machine, the lock
    and the timers alone. *)
Local Abbreviation quiet h w r :=
  (stateMachine (hubOf r) = stateMachine h
   /\ StateManager.isLocked (stateManager (hubOf r))
      = StateManager.isLocked (stateManager h)
   /\ questionTimeout (hubOf r) = questionTimeout h
   /\ timers (hubOf r) = timers h
   /\ (forall pending, scheduled pending (effectsOf r) = pending)
   /\ JS.warnings (snd r) = JS.warnings w).

Lemma sendCurrentQuestionToUser_quiet h socketId w :
  quiet h w (sendCurrentQuestionToUser h socketId w).
Proof.
  unfold sendCurrentQuestionToUser, JS.bind, hubOf, effectsOf.
  destruct (StateManager.getCurrentQuestion (stateManager h));
    destruct (JS.Date_now w) as [now w1] eqn:D; cbn;
    assert (W : JS.warnings w1 = JS.warnings w)
      by (change w1 with (snd (now, w1)); rewrite <- D; reflexivity);
    repeat split; auto.
Qed.

Lemma handleAnswerSubmission_outcomes h socketId data w :
  let r := handleAnswerSubmission h socketId data w in
  quiet h w r
  \/ (StateManager.isLocked (stateManager h) = false
      /\ StateManager.isLocked (stateManager (hubOf r)) = true
      /\ (exists tr,
            stateMachine (hubOf r)
            = {| StateMachineLogger.currentState := StateMachineLogger.LOCKED;
                 StateMachineLogger.stateHistory :=
                   (StateMachineLogger.stateHistory (stateMachine h) ++ [tr])%list;
                 StateMachineLogger.transitionCount :=
                   StateMachineLogger.transitionCount (stateMachine h) + 1 |}
            /\ StateMachineLogger.Transition.from tr
               = StateMachineLogger.currentState (stateMachine h)
            /\ StateMachineLogger.Transition.to tr = StateMachineLogger.LOCKED
            /\ JS.warnings (snd r)
               = (JS.warnings w
                  ++ (if StateMachineLogger.allowed tr then []
                      else [StateMachineLogger.invalidTransitionMessage
                              (StateMachineLogger.currentState (stateMachine h))
                              StateMachineLogger.LOCKED]))%list)
      /\ questionTimeout (hubOf r) = Some (timers h + 1)
      /\ timers (hubOf r) = timers h + 2
      /\ (forall pending,
            scheduled pending (effectsOf r)
            = scheduled pending
                [SetTimeout (timers h) ToTransitioning 100;
                 ClearTimeout (questionTimeout h);
                 SetTimeout (timers h + 1) NextQuestion WINNER_DISPLAY_DURATION])).
Proof.
  unfold handleAnswerSubmission, JS.bind, hubOf, effectsOf.
  destruct (JS.Date_now w) as [timestamp w1] eqn:D.
  assert (W : JS.warnings w1 = JS.warnings w)
    by (change w1 with (snd (timestamp, w1)); rewrite <- D; reflexivity).
  cbn [fst snd].
  destruct (emptyAnswer (answer data)); [left; cbn; repeat split; auto|].
  unfold StateManager.recordSubmission, StateManager.getCurrentQuestion.
  destruct (StateManager.isLocked (stateManager h)) eqn:L;
    [left; cbn; rewrite ?L; repeat split; auto|].
  destruct (StateManager.hasSubmitted (stateManager h) socketId);
    [left; cbn; rewrite ?L; repeat split; auto|].
  destruct (StateManager.currentQuestion (stateManager h)) as [q|] eqn:Q;
    [|left; cbn; rewrite ?L; repeat split; auto].
  destruct (JS.toISOString timestamp) as [iso|e];
    [|left; cbn; rewrite ?L, ?Q; cbn; rewrite ?L; repeat split; auto].
  cbn [StateManager.currentQuestion].
  unfold StateManager.attemptWin. cbn [StateManager.isLocked]. rewrite ?L.
  destruct (QuestionGenerator.validate (answer data) (Question.answer q)).
  - right.
    match goal with
    | |- context [StateMachineLogger.transition ?m ?s ?c w1] =>
        destruct (transition_effect m s c w1) as (tr & M & Hf & Ht & _ & _ & Hw);
        destruct (StateMachineLogger.transition m s c w1) as [machine w2]
    end.
    cbn [fst snd] in M, Hw. subst machine.
    unfold StateManager.getSubmission. cbn [StateManager.submissions].
    rewrite Map_get_set_same. cbn.
    split; [reflexivity|]. split; [reflexivity|].
    split; [exists tr; rewrite Hw, W; auto|].
    repeat split.
  - left. cbn. rewrite ?L. repeat split; auto.
Qed.

Lemma handle_returns_unit h e w :
  exists h1 effects1 w1, handle h e w = (h1, effects1, JS.Returns tt, w1).
Proof.
  pose proof (handle_returns h e w) as R. unfold completionOf in R.
  destruct (handle h e w) as [[[h1 effects1] c1] w1]. cbn in R. subst c1. eauto.
Qed.

Lemma illegal_app h1 h2 : illegal (h1 ++ h2) = (illegal h1 ++ illegal h2)%list.
Proof. unfold illegal. apply filter_app. Qed.

(** One event of a timely run keeps the phases, legally and quietly. *)
Lemma handle_inPhase h pending e events w :
  inPhase h pending ->
  armedBefore h ->
  illegal (StateMachineLogger.stateHistory (stateMachine h)) = [] ->
  timely h pending (e :: events) w = true ->
  let r := handle h e w in
  exists pending',
    timely (hubOf r) pending' events (snd r) = true
    /\ inPhase (hubOf r) pending'
    /\ armedBefore (hubOf r)
    /\ illegal (StateMachineLogger.stateHistory (stateMachine (hubOf r))) = []
    /\ JS.warnings (snd r) = JS.warnings w.
Proof.
  intros P A I T r.
  assert (K : forall r0 : Result * JS.World,
             quiet h w r0 ->
             timely (hubOf r0) (scheduled pending (effectsOf r0)) events (snd r0) = true ->
             exists pending',
               timely (hubOf r0) pending' events (snd r0) = true
               /\ inPhase (hubOf r0) pending'
               /\ armedBefore (hubOf r0)
               /\ illegal (StateMachineLogger.stateHistory (stateMachine (hubOf r0))) = []
               /\ JS.warnings (snd r0) = JS.warnings w).
  { intros r0 (M & L & Q & N & S & W) T0. exists pending.
    rewrite S in T0. unfold inPhase. rewrite M, L, Q, N. auto. }
  subst r. destruct e; cbn [timely handle] in *.
  - apply K; auto. apply sendCurrentQuestionToUser_quiet.
  - destruct (handleAnswerSubmission_outcomes h socketId data w)
      as [Q | (L & L' & (tr & M & Hf & Ht & W) & Q & N & S)]; [now apply K|].
    eexists. split; [exact T|].
    destruct P as [(C & _ & E) | [(_ & L1 & _) | (_ & L1 & _)]]; try congruence.
    subst pending. unfold inPhase. rewrite S, Q, N, M.
    assert (AL : StateMachineLogger.allowed tr = true)
      by (unfold StateMachineLogger.allowed; rewrite Hf, Ht, C; reflexivity).
    rewrite AL, app_nil_r in W.
    split; [|split; [cbn; lia|split; [|exact W]]].
    + right; left. cbn [StateMachineLogger.currentState].
      split; [reflexivity|]. split; [exact L'|].
      unfold scheduled. cbn [fold_left schedule enqueue].
      destruct (questionTimeout h) as [i|].
      * cbn [filter Timer.handle].
        replace (timers h =? i) with false by (symmetry; apply Z.eqb_neq; lia).
        reflexivity.
      * reflexivity.
    + cbn [StateMachineLogger.stateHistory]. rewrite illegal_app, I.
      unfold illegal. cbn [filter]. now rewrite AL.
  - apply K; auto. apply sendCurrentQuestionToUser_quiet.
  - apply K; auto. cbn. repeat split; auto.
  - destruct pending as [|t pending']; [discriminate|].
    apply andb_prop in T as [F T].
    destruct callback; cbn [fire] in *.
    + (* LOCKED -> TRANSITIONING *)
      destruct P as [(_ & _ & E) | [(C & L & E) | (_ & _ & E)]];
        [discriminate| |].
      2:{ cbn in E. inversion E as [[E1 E2]]. rewrite E1 in F. discriminate. }
      unfold JS.bind, hubOf, effectsOf in *.
      match goal with
      | |- context [StateMachineLogger.transition ?m ?s ?c w] =>
          destruct (transition_effect m s c w) as (tr & M & Hf & Ht & _ & _ & W);
          destruct (StateMachineLogger.transition m s c w) as [machine w1]
      end.
      cbn [fst snd] in *. subst machine.
      assert (AL : StateMachineLogger.allowed tr = true)
        by (unfold StateMachineLogger.allowed; rewrite Hf, Ht, C; reflexivity).
      rewrite AL, app_nil_r in W.
      exists pending'. split; [exact T|].
      split; [|split; [exact A|split; [|exact W]]].
      * right; right. cbn. repeat split; auto.
        cbn in E. now inversion E.
      * unfold JS.ret. cbn [fst snd stateMachine StateMachineLogger.stateHistory].
        rewrite illegal_app, I.
        unfold illegal. cbn [filter]. now rewrite AL.
    + (* TRANSITIONING -> ACTIVE *)
      destruct P as [(_ & _ & E) | [(_ & _ & E) | (C & L & E)]];
        [discriminate| |].
      { cbn in E. inversion E as [[E1 E2]]. rewrite E1 in F. discriminate. }
      destruct (generateNewQuestion_effect h None w)
        as (q & tr & now & H & _ & Hf & Ht & E' & W).
      assert (AL : StateMachineLogger.allowed tr = true)
        by (unfold StateMachineLogger.allowed; rewrite Hf, Ht, C; reflexivity).
      rewrite AL, app_nil_r in W.
      rewrite E' in T. unfold inPhase. rewrite H in *.
      exists pending'. split; [exact T|].
      split; [|split; [exact A|split; [|exact W]]].
      * left. cbn. repeat split; auto.
        destruct pending'; [reflexivity | cbn in E; discriminate].
      * cbn [stateMachine StateMachineLogger.stateHistory].
        rewrite illegal_app, I. unfold illegal. cbn [filter]. now rewrite AL.
  - discriminate.
  - discriminate.
Qed.

Lemma serve_inPhase events : forall h pending w,
  inPhase h pending ->
  armedBefore h ->
  illegal (StateMachineLogger.stateHistory (stateMachine h)) = [] ->
  timely h pending events w = true ->
  let r := serve h events w in
  (exists pending', inPhase (hubOf r) pending')
  /\ illegal (StateMachineLogger.stateHistory (stateMachine (hubOf r))) = []
  /\ JS.warnings (snd r) = JS.warnings w.
Proof.
  induction events as [|e events IH]; intros h pending w P A I T.
  - cbn. eauto.
  - cbn [serve]. unfold JS.bind.
    destruct (handle_inPhase h pending e events w P A I T)
      as (pending1 & T1 & P1 & A1 & I1 & W1).
    destruct (handle_returns_unit h e w) as (h1 & effects1 & w1 & E).
    rewrite E in *. unfold hubOf in *. cbn [fst snd] in *.
    specialize (IH h1 pending1 w1 P1 A1 I1 T1). cbv zeta in IH.
    destruct (serve h1 events w1) as [[[h2 effects2] c2] w2].
    unfold JS.ret. cbn [fst snd] in *.
    destruct IH as (P2 & I2 & W2). rewrite W2, W1. auto.
Qed.

End QuestionLifecycle.

(** X22.  The lifecycle of a question in a run of the server as it is
    deployed (connections sending what they like, each timer firing when
    it is due first, the exported controls unused): from the start on
    every move of the lifecycle machine is one of its table, so no warning
    is written; the machine is ACTIVE exactly while the round is open, and
    never IDLE again. *)
Theorem lifecycle_is_legal_in_timely_runs :
  forall (events : list socketHandlers.Inbound) (w : JS.World),
    let start := socketHandlers.setupSocketHandlers w in
    timely (hubOf start) (scheduled [] (effectsOf start)) events (snd start) = true ->
    let r := socketHandlers.serve (hubOf start) events (snd start) in
    let machine := socketHandlers.stateMachine (hubOf r) in
    JS.warnings (snd r) = JS.warnings w
    /\ illegal (StateMachineLogger.getHistory machine) = []
    /\ StateManager.isQuestionLocked (socketHandlers.stateManager (hubOf r))
       = negb (StateMachineLogger.isInState machine StateMachineLogger.ACTIVE)
    /\ StateMachineLogger.isInState machine StateMachineLogger.IDLE = false.
Proof.
  intros events w start T r machine.
  destruct (generateNewQuestion_effect socketHandlers.initial None w)
    as (q & tr & now & H & _ & Hf & Ht & E & W).
  fold socketHandlers.setupSocketHandlers in H, E, W. fold start in H, E, W.
  assert (AL : StateMachineLogger.allowed tr = true)
    by (unfold StateMachineLogger.allowed; rewrite Hf, Ht; reflexivity).
  rewrite AL, app_nil_r in W.
  rewrite E in T.
  destruct (serve_inPhase events (hubOf start) [] (snd start)) as ((p & P) & I & W').
  - rewrite H. left. cbn. auto.
  - rewrite H. cbn. exact Logic.I.
  - rewrite H. cbn. unfold illegal. cbn. now rewrite AL.
  - exact T.
  - fold r in P, I, W'. fold machine in I.
    split; [now rewrite W', W|]. split; [exact I|].
    unfold StateManager.isQuestionLocked, StateMachineLogger.isInState.
    fold machine in P. unfold inPhase in P. fold machine in P.
    destruct P as [(C & L & _) | [(C & L & _) | (C & L & _)]];
      rewrite C, L; auto.
Qed.

(** A round of [Samples.noon]: A wins with 52, B is turned away, the
    timers fire, and the next round is open. *)
Lemma lifecycle_is_legal_in_timely_runs_witness :
  let start := socketHandlers.setupSocketHandlers Samples.noon in
  let events :=
    [socketHandlers.connection "A";
     socketHandlers.submit_answer "A" {| socketHandlers.answer := JS.Str "52" |};
     socketHandlers.submit_answer "B" {| socketHandlers.answer := JS.Str "52" |};
     socketHandlers.timeout socketHandlers.ToTransitioning;
     socketHandlers.request_question "B";
     socketHandlers.timeout socketHandlers.NextQuestion;
     socketHandlers.disconnect "A"] in
  let r := socketHandlers.serve (hubOf start) events (snd start) in
  JS.warnings (snd r) = [].
Proof.
  intros start events r.
  refine (proj1 (lifecycle_is_legal_in_timely_runs events Samples.noon _)).
  vm_compute. reflexivity.
Defined.

(* ================================================================== *)
(** * The server: who is connected *)
(* ================================================================== *)

Section Registry.
Context {V : Type}.
Implicit Types (m : JS.Map.t V) (k : string) (v : V).









End Registry.

Section Connections.
Import server.






Local Abbreviation tracked socketId :=
  (fun there e =>
     match e with
     | socketHandlers.connection c => String.eqb c socketId || there
     | socketHandlers.disconnect c => negb (String.eqb c socketId) && there
     | _ => there
     end).


End Connections.


(* ================================================================== *)
(** * The winner of a round *)
(* ================================================================== *)

Section Winner.
Import socketHandlers.

Lemma handleAnswerSubmission_winnerIsRight h socketId data w :
  winnerIsRight (stateManager h) ->
  winnerIsRight (stateManager (hubOf (handleAnswerSubmission h socketId data w))).
Proof.
  intros I. unfold handleAnswerSubmission, JS.bind, hubOf.
  destruct (JS.Date_now w) as [timestamp w1]; cbn [fst snd].
  destruct (emptyAnswer (answer data)); [exact I|].
  unfold StateManager.recordSubmission, StateManager.getCurrentQuestion.
  destruct (StateManager.isLocked (stateManager h)) eqn:L; [exact I|].
  destruct (StateManager.hasSubmitted (stateManager h) socketId); [exact I|].
  destruct (StateManager.currentQuestion (stateManager h)) as [q|] eqn:Q; [|exact I].
  destruct (JS.toISOString timestamp) as [iso|e]; [|exact I].
  assert (N : StateManager.currentWinner (stateManager h) = None).
  { unfold winnerIsRight, StateManager.getWinner, StateManager.isQuestionLocked in I.
    destruct (StateManager.currentWinner (stateManager h)); [|reflexivity].
    destruct I; congruence. }
  cbn [StateManager.currentQuestion].
  unfold StateManager.attemptWin. cbn [StateManager.isLocked]. rewrite ?L.
  destruct (QuestionGenerator.validate (answer data) (Question.answer q)) eqn:V.
  - destruct (StateMachineLogger.transition _ _ _ w1) as [machine w2].
    unfold StateManager.getSubmission. cbn [StateManager.submissions].
    rewrite Map_get_set_same. cbn.
    unfold winnerIsRight, StateManager.getWinner, StateManager.isQuestionLocked,
      StateManager.getCurrentQuestion, StateManager.getSubmission. cbn.
    split; [reflexivity|]. exists q. eexists.
    rewrite Map_get_set_same. split; [first [exact Q | reflexivity]|].
    split; [reflexivity|exact V].
  - cbn. unfold winnerIsRight, StateManager.getWinner, StateManager.isQuestionLocked.
    cbn. rewrite ?N, ?L. auto.
Qed.

Lemma handle_winnerIsRight h e w :
  winnerIsRight (stateManager h) ->
  winnerIsRight (stateManager (hubOf (handle h e w))).
Proof.
  intros I. destruct e; cbn [handle].
  - now rewrite (proj1 (sendCurrentQuestionToUser_asks h socketId w)).
  - now apply handleAnswerSubmission_winnerIsRight.
  - now rewrite (proj1 (sendCurrentQuestionToUser_asks h socketId w)).
  - exact I.
  - destruct callback; cbn [fire].
    + unfold JS.bind, hubOf.
      destruct (StateMachineLogger.transition _ _ _ w). exact I.
    + destruct (generateNewQuestion_effect h None w) as (q & tr & now & H & _).
      rewrite H. reflexivity.
  - unfold forceNewQuestion, JS.bind.
    destruct (generateNewQuestion_effect h difficulty w) as (q & tr & now & H & _).
    unfold hubOf in *.
    destruct (generateNewQuestion h difficulty w) as [[[h1 effects] c] w1].
    cbn in *. subst. reflexivity.
  - reflexivity.
Qed.

Lemma serve_winnerIsRight events : forall h w,
  winnerIsRight (stateManager h) ->
  winnerIsRight (stateManager (hubOf (serve h events w))).
Proof.
  induction events as [|e events IH]; intros h w I; cbn [serve].
  - exact I.
  - unfold JS.bind. pose proof (handle_winnerIsRight h e w I) as I1.
    unfold hubOf in *.
    destruct (handle h e w) as [[[h1 effects1] c1] w1]. cbn [fst snd] in *.
    destruct c1 as [u|err]; [|exact I1].
    specialize (IH h1 w1 I1).
    destruct (serve h1 events w1) as [[[h2 effects2] c2] w2]. exact IH.
Qed.

End Winner.

(** X24.  The winner of a round answered it: whatever reaches the server
    after its start (answers, timers in any order, the controls), a round
    with a winner is locked and holds the winner's submission, whose
    answer is right for the current question; a round without a winner is
    open. *)
Theorem winner_answered_the_current_question :
  forall (events : list socketHandlers.Inbound) (w : JS.World),
    let start := socketHandlers.setupSocketHandlers w in
    let r := socketHandlers.serve (hubOf start) events (snd start) in
    winnerIsRight (socketHandlers.stateManager (hubOf r)).
Proof.
  intros events w start r. apply serve_winnerIsRight.
  subst start. unfold socketHandlers.setupSocketHandlers.
  destruct (generateNewQuestion_effect socketHandlers.initial None w)
    as (q & tr & now & H & _).
  rewrite H. reflexivity.
Qed.

(* ================================================================== *)
(** * The generator's difficulty *)
(* ================================================================== *)

(** X25.  [setDifficulty] and the names of the levels.  After one of the
    three names is set, [getDifficulty] gives its level and every question
    generated without a difficulty is well formed for it.  A string that is
    neither a level nor a name the levels' object inherits is refused with
    an error that quotes it, and the generator stays as it was. *)
Theorem setDifficulty_accepts_the_levels :
  forall (g : QuestionGenerator.t) (name : string),
    (forall d,
        name = difficultyName d ->
        exists g',
          QuestionGenerator.setDifficulty g name = Some (g', JS.Returns tt)
          /\ QuestionGenerator.getDifficulty g' = d
          /\ forall w, wellFormed d (fst (QuestionGenerator.generate g' None w)))
    /\ ((forall d, name <> difficultyName d) ->
        QuestionGenerator.inherited name = false ->
        QuestionGenerator.setDifficulty g name
        = Some (g, JS.Throws (JS.PlainError
                 ("Invalid difficulty level: " ++ name
                  ++ ". Must be 'easy', 'medium', or 'hard'.")))).
Proof.
  intros g name. split.
  - intros d ->. exists {| QuestionGenerator.currentDifficulty := d |}.
    split; [now destruct d|]. split; [reflexivity|].
    intros w.
    apply (generate_wellFormed {| QuestionGenerator.currentDifficulty := d |} None w).
  - intros N I.
    unfold QuestionGenerator.setDifficulty, QuestionGenerator.difficultyOfString.
    rewrite I.
    destruct (String.eqb_spec name "easy") as [->|_];
      [now destruct (N QuestionGenerator.easy)|].
    destruct (String.eqb_spec name "medium") as [->|_];
      [now destruct (N QuestionGenerator.medium)|].
    destruct (String.eqb_spec name "hard") as [->|_];
      [now destruct (N QuestionGenerator.hard)|].
    reflexivity.
Qed.
